(** * Maestro capture pipeline: a shallow embedding and its properties

    The development follows the TypeScript sources of the capture pipeline:
    - [Js]        the few JavaScript primitives the code relies on
                  (UTF-16 strings, truthiness, [Math.round], [Map]);
    - [FoodDb]    lib/food-db.ts ([validateBarcode], [lookupBarcode]);
    - [Lookup]    services/food-lookup-service.ts (quality score, cache,
                  retry loop, request de-duplication);
    - [Resources] lib/resource-manager.ts;
    - [Camera]    services/camera-service.ts;
    - [Scan]      hooks/useBarcodeDetection.ts;
    - [Capture]   hooks/useCapture.ts;
    - [Meals]     lib/meal-storage.ts;
    - [MealSelection] app/capture/components/MealSelectionModal.tsx
                  (the serving control).

    Numbers are JavaScript doubles in the source; they are modelled by
    exact rationals ([Q]) or integers where the code only counts.
    Asynchronous code is modelled by explicit events: a step is the
    synchronous run of one callback or continuation of the event loop. *)

From Stdlib Require Import ZArith QArith Qround Lia Lqa List Bool String Ascii.
From stdpp Require Import base option list gmap strings.
Import ListNotations.

Local Open Scope Z_scope.

(* ===================================================================== *)
(** ** JavaScript primitives *)
(* ===================================================================== *)

Module Js.

(** A JavaScript string is a sequence of UTF-16 code units; [length]
    counts code units. *)
Definition jsstring : Type := list N.

(** An ASCII literal of the source as a JavaScript string. *)
Definition lit (s : string) : jsstring :=
  map N_of_ascii (list_ascii_of_string s).

(** [\d] of a regular expression without the unicode flag: [0-9]. *)
Definition is_digit (c : N) : bool := ((48 <=? c) && (c <=? 57))%N.

(** [\s]: the WhiteSpace and LineTerminator code points of ECMAScript. *)
Definition is_space (c : N) : bool :=
  (((9 <=? c) && (c <=? 13)) || (c =? 32) || (c =? 160) || (c =? 5760)
   || ((8192 <=? c) && (c <=? 8202)) || (c =? 8232) || (c =? 8233)
   || (c =? 8239) || (c =? 8287) || (c =? 12288) || (c =? 65279))%N.

(** [-] *)
Definition is_dash (c : N) : bool := (c =? 45)%N.

(** Truthiness of an optional string: [undefined] and [''] are falsy. *)
Definition truthy (s : option jsstring) : bool :=
  match s with
  | Some (_ :: _) => true
  | _ => false
  end.

(** [a || b] on optional strings. *)
Definition or_else (a b : option jsstring) : option jsstring :=
  if truthy a then a else b.

(** [Math.round]: the nearest integer, ties towards +infinity. *)
Definition Math_round (x : Q) : Z := Qfloor (x + (1 # 2))%Q.

(** [Math.pow(2, n)] for a non-negative integer [n]. *)
Definition pow2 (n : nat) : Z := 2 ^ Z.of_nat n.

(** [s.substring(i, j)] and [s.substring(i)] for [0 <= i <= j]; indices
    beyond the end are clamped to the length. *)
Definition substring (i j : nat) (s : jsstring) : jsstring :=
  firstn (j - i) (skipn i s).

Definition substring_from (i : nat) (s : jsstring) : jsstring := skipn i s.

(** A [Map] with string keys: an association list in insertion order,
    one binding per key. *)
Section JsMap.
Context {V : Type}.

Definition Map : Type := list (string * V).

Fixpoint mget (k : string) (m : Map) : option V :=
  match m with
  | [] => None
  | (k', v) :: m' => if String.eqb k k' then Some v else mget k m'
  end.

(** [Map.set] keeps the position of an existing key and appends a new one. *)
Fixpoint mset (k : string) (v : V) (m : Map) : Map :=
  match m with
  | [] => [(k, v)]
  | (k', v') :: m' =>
      if String.eqb k k' then (k, v) :: m' else (k', v') :: mset k v m'
  end.

Fixpoint mdelete (k : string) (m : Map) : Map :=
  match m with
  | [] => []
  | (k', v') :: m' =>
      if String.eqb k k' then mdelete k m' else (k', v') :: mdelete k m'
  end.

Definition msize (m : Map) : nat := List.length m.

Definition mkeys (m : Map) : list string := map fst m.

End JsMap.
Arguments Map V : clear implicits.

End Js.

(* ===================================================================== *)
(** ** lib/food-db.ts *)
(* ===================================================================== *)

Module FoodDb.
Import Js.

Record Nutrition : Type := mkNutrition {
  calories : Q;
  carbs : Q;
  fat : Q;
  protein : Q;
  fiber : Q
}.

Inductive Source : Type := barcode_src | search_src | manual_src.

Record ProductData : Type := mkProductData {
  name : jsstring;
  brand : option jsstring;
  barcode : jsstring;
  source : Source;
  nutrition : Nutrition;
  imageUrl : option jsstring;
  verified : bool
}.

(** [barcode.replace(/[\s-]/g, '')] *)
Definition cleanBarcode (barcode : jsstring) : jsstring :=
  List.filter (fun c => negb (is_space c || is_dash c)) barcode.

(** [[8, 12, 13].includes(n)] *)
Definition valid_length (n : nat) : bool :=
  (Nat.eqb n 8 || Nat.eqb n 12 || Nat.eqb n 13)%bool.

(** [/^\d+$/.test(s)] *)
Definition digits_only (s : jsstring) : bool :=
  match s with
  | [] => false
  | _ => forallb is_digit s
  end.

Definition validateBarcode (barcode : jsstring) : bool :=
  let clean := cleanBarcode barcode in
  if negb (valid_length (List.length clean)) then false
  else if negb (digits_only clean) then false
  else true.

(** The [product] object of an Open Food Facts answer, as far as
    [lookupBarcode] reads it.  [extracted] is the value of
    [extractNutritionFromProduct(product)]. *)
Record OffProduct : Type := mkOffProduct {
  product_name : option jsstring;
  product_name_en : option jsstring;
  brands : option jsstring;
  image_front_url : option jsstring;
  image_url : option jsstring;
  extracted : option Nutrition
}.

(** What [fetch] and [response.json()] do for one request. *)
Inductive FetchOutcome : Type :=
| FetchThrows                       (* transport error *)
| HttpNotOk                         (* [!response.ok] *)
| JsonThrows                        (* body is not JSON *)
| Json (status : Z) (product : OffProduct).

Definition unknown_product : jsstring := lit "Unknown Product".

(** [lookupBarcode] outside mock mode.  Every exception raised in its
    [try] block is caught and turned into [null]: the promise it returns
    is never rejected. *)
Definition lookupBarcode (b : jsstring) (r : FetchOutcome) : option ProductData :=
  match r with
  | FetchThrows | HttpNotOk | JsonThrows => None
  | Json status product =>
      if negb (Z.eqb status 1) then None
      else match extracted product with
           | None => None
           | Some n =>
               Some {| name :=
                         match or_else (or_else (product_name product)
                                                (product_name_en product))
                                       (Some unknown_product) with
                         | Some s => s
                         | None => unknown_product
                         end;
                       brand := if truthy (brands product) then brands product else None;
                       barcode := b;
                       source := barcode_src;
                       nutrition := n;
                       imageUrl :=
                         let u := or_else (image_front_url product) (image_url product) in
                         if truthy u then u else None;
                       verified := true |}
           end
  end.

(** [formatBarcode]: the three template strings put dashes between
    substrings of the cleaned barcode. *)
Definition formatBarcode (barcode : jsstring) : jsstring :=
  let clean := cleanBarcode barcode in
  if Nat.eqb (List.length clean) 13 then
    substring 0 1 clean ++ lit "-" ++ substring 1 7 clean ++ lit "-"
      ++ substring_from 7 clean
  else if Nat.eqb (List.length clean) 12 then
    substring 0 6 clean ++ lit "-" ++ substring_from 6 clean
  else if Nat.eqb (List.length clean) 8 then
    substring 0 4 clean ++ lit "-" ++ substring_from 4 clean
  else clean.

End FoodDb.

(* ===================================================================== *)
(** ** services/food-lookup-service.ts: [FoodLookupService] *)
(* ===================================================================== *)

Module Lookup.
Import Js FoodDb.

Inductive Level : Type := low | medium | high.

Record ProductQuality : Type := mkQuality {
  score : Z;
  level : Level;
  issues : list string;
  strengths : list string
}.

(** [EnhancedProductData extends ProductData]: the product's own fields
    ([data], whose [source] is overwritten by the metadata) and the four
    added ones. *)
Record EnhancedProductData : Type := mkEnhanced {
  data : ProductData;
  quality : ProductQuality;
  confidence : Z;
  cached : bool
}.

Record LookupOptions : Type := mkOptions {
  enableCache : bool;
  maxRetries : nat;
  timeoutMs : Z;
  requireHighQuality : bool
}.

Definition default_options : LookupOptions :=
  {| enableCache := true; maxRetries := 2; timeoutMs := 5000;
     requireHighQuality := false |}.

Record LookupResult : Type := mkResult {
  success : bool;
  product : option EnhancedProductData;
  error : option string;
  fallbackSuggestions : option (list string)
}.

(** *** Quality score *)

(** [x > y] and [x >= y] on numbers. *)
Definition gt (x y : Q) : bool := negb (Qle_bool x y).
Definition ge (x y : Q) : bool := Qle_bool y x.

Definition nutritionFields (n : Nutrition) : list Q :=
  [calories n; carbs n; fat n; protein n; fiber n].

Definition completeFields (n : Nutrition) : nat :=
  List.length (List.filter (fun value => gt value 0%Q) (nutritionFields n)).

Definition nutritionScore (n : Nutrition) : Q :=
  ((inject_Z (Z.of_nat (completeFields n))
      / inject_Z (Z.of_nat (List.length (nutritionFields n)))) * 40)%Q.

(** The accumulator of [assessProductQuality]: [score], [issues],
    [strengths]. *)
Record Acc : Type := mkAcc { a_score : Q; a_issues : list string; a_strengths : list string }.

Definition add_score (q : Q) (a : Acc) : Acc :=
  mkAcc (a_score a + q)%Q (a_issues a) (a_strengths a).
Definition push_issue (s : string) (a : Acc) : Acc :=
  mkAcc (a_score a) (a_issues a ++ [s]) (a_strengths a).
Definition push_strength (s : string) (a : Acc) : Acc :=
  mkAcc (a_score a) (a_issues a) (a_strengths a ++ [s]).

Definition name_ok (p : ProductData) : bool :=
  truthy (Some (name p)) && (3 <? List.length (name p))%nat.

Definition score_name (p : ProductData) (a : Acc) : Acc :=
  if name_ok p
  then push_strength "Product name available" (add_score 20%Q a)
  else push_issue "Missing or poor product name" a.

Definition score_brand (p : ProductData) (a : Acc) : Acc :=
  if truthy (brand p)
  then push_strength "Brand information available" (add_score 15%Q a)
  else push_issue "No brand information" a.

Definition score_nutrition (p : ProductData) (a : Acc) : Acc :=
  let ns := nutritionScore (nutrition p) in
  let a := add_score ns a in
  if ge ns 30%Q then push_strength "Complete nutrition data" a
  else if ge ns 20%Q
       then push_issue "Some nutrition values missing"
              (push_strength "Most nutrition data available" a)
       else push_issue "Incomplete nutrition data" a.

Definition score_image (p : ProductData) (a : Acc) : Acc :=
  if truthy (imageUrl p)
  then push_strength "Product image available" (add_score 10%Q a)
  else push_issue "No product image" a.

Definition score_verified (p : ProductData) (a : Acc) : Acc :=
  if verified p
  then push_strength "Verified product data" (add_score 15%Q a)
  else push_issue "Unverified product data" a.

(** The unrounded [score] at the end of [assessProductQuality]. *)
Definition raw_quality (p : ProductData) : Acc :=
  score_verified p
    (score_image p
       (score_nutrition p
          (score_brand p
             (score_name p (mkAcc 0%Q [] []))))).

Definition level_of (score : Q) : Level :=
  if ge score 80%Q then high
  else if ge score 60%Q then medium
  else low.

Definition assessProductQuality (p : ProductData) : ProductQuality :=
  let a := raw_quality p in
  {| score := Math_round (a_score a);
     level := level_of (a_score a);
     issues := a_issues a;
     strengths := a_strengths a |}.

Definition with_source (s : Source) (p : ProductData) : ProductData :=
  {| name := name p; brand := brand p; barcode := barcode p; source := s;
     nutrition := nutrition p; imageUrl := imageUrl p; verified := verified p |}.

(** [enhanceProductData], in exact arithmetic.  The product with 0.95 is
    an exact half for the scores 10, 30, 50, 70 and 90, where a double
    may round the other way. *)
Definition enhanceProductData (p : ProductData) (meta_cached : bool)
           (meta_source : Source) : EnhancedProductData :=
  let quality := assessProductQuality p in
  let confidence := (inject_Z (score quality) / 100)%Q in
  let confidence :=
    match meta_source with
    | barcode_src => (confidence * (95 # 100))%Q
    | search_src => (confidence * (8 # 10))%Q
    | manual_src => confidence
    end in
  {| data := with_source meta_source p;
     quality := quality;
     confidence := Math_round (confidence * 100)%Q;
     cached := meta_cached |}.

(** [{ ...cached, cached: true }] *)
Definition set_cached (c : bool) (e : EnhancedProductData) : EnhancedProductData :=
  {| data := data e; quality := quality e; confidence := confidence e; cached := c |}.

(** [n] points when [b] holds. *)
Definition points (b : bool) (n : Z) : Z := if b then n else 0.

(** The score as a sum of integer weights. *)
Definition weighted_total (p : ProductData) : Z :=
  points (name_ok p) 20 + points (truthy (brand p)) 15
  + 8 * Z.of_nat (completeFields (nutrition p))
  + points (truthy (imageUrl p)) 10 + points (verified p) 15.

(** *** Results built by the service *)

Definition invalid_format : LookupResult :=
  {| success := false; product := None;
     error := Some "Invalid barcode format"%string;
     fallbackSuggestions :=
       Some ["Try scanning again"; "Enter product manually"]%string |}.

Definition not_found : LookupResult :=
  {| success := false; product := None;
     error := Some "Product not found in database"%string;
     fallbackSuggestions :=
       Some ["Try scanning again in better lighting";
             "Check if barcode is complete and undamaged";
             "Search for product by name instead";
             "Enter nutrition information manually"]%string |}.

Definition quality_too_low : LookupResult :=
  {| success := false; product := None;
     error := Some "Product data quality too low"%string;
     fallbackSuggestions :=
       Some ["Use nutrition label scanning instead";
             "Enter nutrition information manually"]%string |}.

Definition found (e : EnhancedProductData) : LookupResult :=
  {| success := true; product := Some e; error := None;
     fallbackSuggestions := None |}.

(** [lastError?.message || 'Unknown error'] *)
Definition message_or_unknown (lastError : option string) : string :=
  match lastError with
  | Some (String c s) => String c s
  | _ => "Unknown error"%string
  end.

Definition all_retries_failed (lastError : option string) : LookupResult :=
  {| success := false; product := None;
     error := Some (message_or_unknown lastError);
     fallbackSuggestions :=
       Some ["Check your internet connection";
             "Try again in a moment";
             "Use nutrition label scanning instead";
             "Enter product information manually"]%string |}.

(** *** [performLookup] *)

(** What the promise returned by [lookupBarcode(barcode)] does in one
    attempt: it is fulfilled or rejected after some milliseconds, or it
    stays pending. *)
Inductive Reply : Type :=
| Fulfils (after : Z) (value : option ProductData)
| Rejects (after : Z) (message : string)
| Hangs.

Inductive Settled : Type :=
| Resolved (value : option ProductData)
| Rejected (message : string).

(** [Promise.race([lookupPromise, timeoutPromise])]: the first of the two
    to settle decides, and the attempt takes that long. *)
Definition race (timeoutMs : Z) (r : Reply) : Settled * Z :=
  match r with
  | Fulfils after value =>
      if after <? timeoutMs then (Resolved value, after)
      else (Rejected "Request timeout", timeoutMs)
  | Rejects after message =>
      if after <? timeoutMs then (Rejected message, after)
      else (Rejected "Request timeout", timeoutMs)
  | Hangs => (Rejected "Request timeout", timeoutMs)
  end.

(** What [performLookup] does, in order: a network invocation that took
    [elapsed] ms, or a back-off wait. *)
Inductive Event : Type :=
| Attempt (attempt : nat) (elapsed : Z)
| Backoff (delay : Z).

(** The body of the [for] loop, [remaining] iterations before
    [attempt <= maxRetries] fails. *)
Fixpoint attempts (maxRetries : nat) (timeoutMs : Z) (requireHighQuality : bool)
         (net : nat -> Reply) (remaining attempt : nat)
         (lastError : option string) : LookupResult * list Event :=
  match remaining with
  | O => (all_retries_failed lastError, [])
  | S remaining' =>
      let '(settled, elapsed) := race timeoutMs (net attempt) in
      match settled with
      | Resolved None => (not_found, [Attempt attempt elapsed])
      | Resolved (Some p) =>
          let enhancedProduct := enhanceProductData p false barcode_src in
          if requireHighQuality
             && match level (quality enhancedProduct) with low => true | _ => false end
          then (quality_too_low, [Attempt attempt elapsed])
          else (found enhancedProduct, [Attempt attempt elapsed])
      | Rejected message =>
          let wait :=
            if (attempt <? maxRetries)%nat
            then [Backoff (pow2 attempt * 1000)] else [] in
          let '(result, events) :=
            attempts maxRetries timeoutMs requireHighQuality net
                     remaining' (S attempt) (Some message) in
          (result, Attempt attempt elapsed :: wait ++ events)
      end
  end.

Definition performLookup (maxRetries : nat) (timeoutMs : Z)
           (requireHighQuality : bool) (net : nat -> Reply)
  : LookupResult * list Event :=
  attempts maxRetries timeoutMs requireHighQuality net (S maxRetries) 0 None.

Definition is_attempt (e : Event) : bool :=
  match e with Attempt _ _ => true | Backoff _ => false end.

(** Number of network invocations in a run. *)
Definition invocations (events : list Event) : nat :=
  List.length (List.filter is_attempt events).

Definition backoffs (events : list Event) : list Z :=
  flat_map (fun e => match e with Backoff d => [d] | _ => [] end) events.

Definition durations (events : list Event) : list Z :=
  flat_map (fun e => match e with Attempt _ d => [d] | _ => [] end) events.

(** Attempt [j] ends in the [catch] block: the raced promise is rejected,
    by the lookup or by the timeout. *)
Definition rejected (timeoutMs : Z) (net : nat -> Reply) (j : nat) : Prop :=
  exists message, fst (race timeoutMs (net j)) = Rejected message.

(** The network as seen through [lookupBarcode]: a request is answered
    after some milliseconds or not at all. *)
Inductive Network : Type :=
| Answers (after : Z) (r : FetchOutcome)
| NoAnswer.

Definition through_lookupBarcode (b : jsstring) (network : nat -> Network)
  : nat -> Reply :=
  fun j =>
    match network j with
    | Answers after r => Fulfils after (lookupBarcode b r)
    | NoAnswer => Hangs
    end.

(** The reply has not come when the timer of the attempt fires. *)
Definition unanswered (timeoutMs : Z) (r : Reply) : Prop :=
  match r with
  | Fulfils after _ | Rejects after _ => timeoutMs < after
  | Hangs => True
  end.

(** The request itself fails: the transport throws, the HTTP status is
    not ok, or the body is not JSON. *)
Definition network_failure (r : FetchOutcome) : Prop :=
  r = FetchThrows \/ r = HttpNotOk \/ r = JsonThrows.

(** *** [searchByName] *)

(** What the promise of [searchProducts(query, limit)] does. *)
Inductive SearchReply : Type :=
| Products (products : list ProductData)
| SearchRejects.

Definition searchByName (r : SearchReply) : list EnhancedProductData :=
  match r with
  | Products products =>
      map (fun product => enhanceProductData product false search_src) products
  | SearchRejects => []
  end.

(** A result the caller can act upon: a product and no error, or no
    product, an error message and at least two suggestions. *)
Definition actionable (r : LookupResult) : Prop :=
  if success r
  then (exists e, product r = Some e) /\ error r = None
  else product r = None
       /\ (exists message, error r = Some message /\ message <> EmptyString)
       /\ (exists s1 s2 rest, fallbackSuggestions r = Some (s1 :: s2 :: rest)).

(** *** Sample products *)

Definition hazelnut_spread : ProductData :=
  {| name := lit "Nutella"; brand := Some (lit "Ferrero");
     barcode := lit "3017620425035"; source := barcode_src;
     nutrition := mkNutrition 539 (575 # 10) (309 # 10) (63 # 10) (34 # 10);
     imageUrl := Some (lit "https://example.com/nutella.jpg");
     verified := true |}.

Definition tea : ProductData :=
  {| name := lit "Tea"; brand := Some (lit "Twinings");
     barcode := lit "070177154004"; source := barcode_src;
     nutrition := mkNutrition 1 (3 # 10) (1 # 10) (1 # 10) (1 # 10);
     imageUrl := Some (lit "https://example.com/tea.jpg");
     verified := true |}.

End Lookup.

(** *** The service object: cache, request queue and [lookupByBarcode]

  [lookupByBarcode] is an [async] method.  Its body runs synchronously up
  to [await lookupPromise] (step [lookupByBarcode] below); the rest runs
  when the promise of [performLookup] settles (step [settle]). *)

Module Service.
Import Js FoodDb Lookup.

Record CacheEntry : Type := mkEntry {
  entry_product : EnhancedProductData;
  timestamp : Z
}.

Definition cacheMaxAge : Z := 24 * 60 * 60 * 1000.

(** A promise of [performLookup] that has not settled, with the
    arguments of the call that created it and awaits it in its [try]
    block. *)
Record Request : Type := mkRequest {
  pid : nat;
  r_barcode : jsstring;
  r_maxRetries : nat;
  r_timeoutMs : Z;
  r_requireHighQuality : bool;
  r_enableCache : bool
}.

(** The fields [cache] and [requestQueue] of the service; the promises in
    flight; the log of [lookupBarcode] invocations (one per network
    request). *)
Record State : Type := mkState {
  cache : gmap jsstring CacheEntry;
  requestQueue : gmap jsstring nat;
  inflight : list Request;
  network : list jsstring;
  next_pid : nat
}.

Definition init : State :=
  {| cache := ∅; requestQueue := ∅; inflight := []; network := []; next_pid := 0 |}.

Definition with_cache (c : gmap jsstring CacheEntry) (s : State) : State :=
  {| cache := c; requestQueue := requestQueue s; inflight := inflight s;
     network := network s; next_pid := next_pid s |}.

(** [getCachedProduct], at [Date.now() = now]. *)
Definition getCachedProduct (b : jsstring) (now : Z) (s : State)
  : option EnhancedProductData * State :=
  match cache s !! b with
  | None => (None, s)
  | Some cached =>
      let isExpired := cacheMaxAge <? now - timestamp cached in
      if isExpired then (None, with_cache (delete b (cache s)) s)
      else (Some (entry_product cached), s)
  end.

(** [cleanupCache], at [Date.now() = now]. *)
Definition cleanupCache (now : Z) (s : State) : State :=
  let cutoffTime := now - cacheMaxAge in
  with_cache (filter (λ kv : jsstring * CacheEntry, ¬ (timestamp kv.2 < cutoffTime)) (cache s)) s.

(** [cacheProduct], at [Date.now() = now]. *)
Definition cacheProduct (b : jsstring) (p : EnhancedProductData) (now : Z)
           (s : State) : State :=
  let s := with_cache (<[b := mkEntry p now]> (cache s)) s in
  if (1000 <? size (cache s))%nat then cleanupCache now s else s.

(** What the caller of [lookupByBarcode] holds once the synchronous part
    has run: a result, or the promise it awaits. *)
Inductive Answer : Type :=
| Returns (r : LookupResult)
| Awaits (p : nat).

(** [lookupByBarcode] up to [await lookupPromise].  Creating the request
    runs [performLookup] up to its first [await], which issues the first
    network invocation. *)
Definition lookupByBarcode (b : jsstring) (o : LookupOptions) (now : Z)
           (s : State) : State * Answer :=
  if negb (validateBarcode b) then (s, Returns invalid_format)
  else
    let '(hit, s) :=
      if enableCache o then getCachedProduct b now s else (None, s) in
    match hit with
    | Some cached => (s, Returns (found (set_cached true cached)))
    | None =>
        match requestQueue s !! b with
        | Some existingRequest => (s, Awaits existingRequest)
        | None =>
            let p := next_pid s in
            ({| cache := cache s;
                requestQueue := <[b := p]> (requestQueue s);
                inflight :=
                  inflight s ++
                    [mkRequest p b (maxRetries o) (timeoutMs o)
                               (requireHighQuality o) (enableCache o)];
                network := network s ++ [b];
                next_pid := S p |},
             Awaits p)
        end
    end.

Definition find_request (p : nat) (s : State) : option Request :=
  List.find (fun r => Nat.eqb (pid r) p) (inflight s).

(** The promise [p] settles: [net] is what the network does at each
    attempt of its [performLookup], [now] is [Date.now()] when the caller
    that created it resumes.  That caller stores a successful result if
    it asked for caching and, in its [finally] block, removes the promise
    from the queue.  Every caller awaiting [p] receives the result. *)
Definition settle (p : nat) (net : nat -> Reply) (now : Z) (s : State)
  : option (State * LookupResult) :=
  match find_request p s with
  | None => None
  | Some r =>
      let '(result, events) :=
        performLookup (r_maxRetries r) (r_timeoutMs r) (r_requireHighQuality r) net in
      let s :=
        {| cache := cache s; requestQueue := requestQueue s;
           inflight := List.filter (fun r' => negb (Nat.eqb (pid r') p)) (inflight s);
           network := network s ++ repeat (r_barcode r) (invocations events - 1);
           next_pid := next_pid s |} in
      let s :=
        match product result with
        | Some e =>
            if success result && r_enableCache r
            then cacheProduct (r_barcode r) e now s else s
        | None => s
        end in
      Some ({| cache := cache s;
               requestQueue := delete (r_barcode r) (requestQueue s);
               inflight := inflight s; network := network s;
               next_pid := next_pid s |},
            result)
  end.

(** [clearCache] *)
Definition clearCache (s : State) : State := with_cache ∅ s.

(** A lookup that runs to completion before anything else happens. *)
Definition lookup_to_completion (b : jsstring) (o : LookupOptions)
           (called : Z) (net : nat -> Reply) (resumed : Z) (s : State)
  : option (State * LookupResult) :=
  match lookupByBarcode b o called s with
  | (s', Returns r) => Some (s', r)
  | (s', Awaits p) => settle p net resumed s'
  end.

(** The events of the service, and the states it can reach. *)
Inductive step : State -> State -> Prop :=
| step_call b o now s :
    step s (lookupByBarcode b o now s).1
| step_settle p net now s s' r :
    settle p net now s = Some (s', r) ->
    step s s'
| step_clear s :
    step s (clearCache s).

Inductive reachable : State -> Prop :=
| reach_init : reachable init
| reach_step s s' : reachable s -> step s s' -> reachable s'.

(** Requests in flight for a barcode. *)
Definition inflight_for (b : jsstring) (s : State) : list Request :=
  List.filter (fun r => bool_decide (r_barcode r = b)) (inflight s).

(** [getCacheStats] *)
Record CacheStats : Type := mkStats {
  stats_size : nat;
  maxAge : Z;
  activeRequests : nat
}.

Definition getCacheStats (s : State) : CacheStats :=
  {| stats_size := size (cache s); maxAge := cacheMaxAge;
     activeRequests := size (requestQueue s) |}.

(** *** Sample runs *)

Definition spread_barcode : jsstring := lit "3017620425035".

(** A database that answers every request for the spread after 120 ms. *)
Definition spread_found : nat -> Reply :=
  fun _ => Fulfils 120 (Some hazelnut_spread).

(** A database that does not answer the first request and answers the
    second after 120 ms. *)
Definition late_then_found : nat -> Reply :=
  fun attempt =>
    match attempt with
    | O => Hangs
    | S _ => Fulfils 120 (Some hazelnut_spread)
    end.

Definition without_cache : LookupOptions :=
  {| enableCache := false; maxRetries := 2; timeoutMs := 5000;
     requireHighQuality := false |}.

(** Every request in flight is the one the queue holds for its barcode. *)
Definition queue_consistent (s : State) : Prop :=
  forall r, In r (inflight s) -> requestQueue s !! r_barcode r = Some (pid r).

(** Promise identifiers are handed out in increasing order. *)
Definition pids_fresh (s : State) : Prop :=
  forall r, In r (inflight s) -> (pid r < next_pid s)%nat.

(** At most one request in flight per barcode. *)
Definition one_per_barcode (s : State) : Prop :=
  forall b, (List.length (inflight_for b s) <= 1)%nat.

(** Every promise the queue holds belongs to a request in flight. *)
Definition queue_live (s : State) : Prop :=
  forall b p, requestQueue s !! b = Some p ->
              exists r, In r (inflight s) /\ pid r = p /\ r_barcode r = b.

(** No two requests in flight share a promise. *)
Definition pids_distinct (s : State) : Prop :=
  List.NoDup (map pid (inflight s)).

End Service.

(* ===================================================================== *)
(** ** lib/resource-manager.ts: [ResourceManager] *)
(* ===================================================================== *)

Module Resources.
Import Js.

Inductive ResourceType : Type := mediaStream | scanner | timeout.

Definition type_eqb (a b : ResourceType) : bool :=
  match a, b with
  | mediaStream, mediaStream | scanner, scanner | timeout, timeout => true
  | _, _ => false
  end.

(** How a call completes. *)
Inductive Completion : Type := Normal | Throws.

(** The platform objects handed to the manager, with what their release
    call does when it is invoked. *)
Record MediaStream : Type := mkStream {
  stream_id : string;
  stop_tracks : Completion        (* [getTracks().forEach(track => track.stop())] *)
}.

Record Scanner : Type := mkScanner {
  has_reset : bool;               (* [scanner && typeof scanner.reset === 'function'] *)
  reset : Completion              (* [scanner.reset()] *)
}.

Record Timer : Type := mkTimer {
  clear : Completion              (* [clearTimeout(timeoutId)] *)
}.

Inductive Resource : Type :=
| a_stream (s : MediaStream)
| a_scanner (s : Scanner)
| a_timer (t : Timer).

(** What a run leaves behind: released platform objects and the lines
    written by [logError]. *)
Inductive Effect : Type :=
| StoppedTracks (stream : string)
| ResetScanner
| ClearedTimeout
| LoggedError (context : string).

Record ManagedResource : Type := mkManaged {
  id : string;
  type : ResourceType;
  resource : Resource;
  cleanup : unit -> Completion * list Effect
}.

Record State : Type := mkState {
  resources : Map ManagedResource;
  isCleanupScheduled : bool;
  effects : list Effect
}.

Definition empty : State :=
  {| resources := []; isCleanupScheduled := false; effects := [] |}.

(** A state and exception monad for the methods of the manager. *)
Inductive Result (A : Type) : Type :=
| Returned (a : A)
| Thrown.
Arguments Returned {A} a.
Arguments Thrown {A}.

Definition M (A : Type) : Type := State -> Result A * State.

Definition ret {A} (a : A) : M A := fun s => (Returned a, s).

Definition bind {A B} (m : M A) (k : A -> M B) : M B :=
  fun s =>
    match m s with
    | (Returned a, s') => k a s'
    | (Thrown, s') => (Thrown, s')
    end.

(** [try { body } catch (error) { handler }] *)
Definition try_catch {A} (body handler : M A) : M A :=
  fun s =>
    match body s with
    | (Returned a, s') => (Returned a, s')
    | (Thrown, s') => handler s'
    end.

#[local] Notation "'let*' x ':=' m 'in' k" := (bind m (fun x => k))
  (at level 10, x name, m at level 100, k at level 200).
#[local] Notation "'run' m 'then' k" := (bind m (fun _ => k))
  (at level 10, m at level 100, k at level 200).

Definition emit (es : list Effect) : M unit :=
  fun s => (Returned tt,
            {| resources := resources s;
               isCleanupScheduled := isCleanupScheduled s;
               effects := effects s ++ es |}).

Definition logError (context : string) : M unit := emit [LoggedError context].

Definition set_resources (f : Map ManagedResource -> Map ManagedResource) : M unit :=
  fun s => (Returned tt,
            {| resources := f (resources s);
               isCleanupScheduled := isCleanupScheduled s;
               effects := effects s |}).

(** Calling a stored closure. *)
Definition invoke (r : ManagedResource) : M unit :=
  fun s =>
    let '(c, es) := cleanup r tt in
    match c with
    | Normal => emit es s
    | Throws => (Thrown, snd (emit es s))
    end.

(** The closures built by the three [register...] methods: the release
    call sits in a [try] block whose [catch] only logs. *)
Definition guarded (release : Completion) (done : Effect) (context : string)
  : unit -> Completion * list Effect :=
  fun _ =>
    match release with
    | Normal => (Normal, [done])
    | Throws => (Normal, [LoggedError context])
    end.

Definition stream_closure (stream : MediaStream) (resourceId : string) :=
  guarded (stop_tracks stream) (StoppedTracks (stream_id stream))
          ("Cleanup MediaStream " ++ resourceId).

Definition scanner_closure (sc : Scanner) (resourceId : string)
  : unit -> Completion * list Effect :=
  fun _ =>
    if has_reset sc
    then guarded (reset sc) ResetScanner ("Cleanup Scanner " ++ resourceId) tt
    else (Normal, []).

Definition timer_closure (t : Timer) (resourceId : string) :=
  guarded (clear t) ClearedTimeout ("Cleanup Timeout " ++ resourceId).

(** [id || `stream_${Date.now()}_${...}`]: [generated] is the value of
    the template string. *)
Definition choose_id (id : option string) (generated : string) : string :=
  match id with
  | Some (String c s) => String c s
  | _ => generated
  end.

Definition scheduleCleanupOnUnload : M unit :=
  fun s => (Returned tt,
            {| resources := resources s; isCleanupScheduled := true;
               effects := effects s |}).

Definition registerMediaStream (stream : MediaStream) (id : option string)
           (generated : string) : M string :=
  let resourceId := choose_id id generated in
  run set_resources (mset resourceId
        (mkManaged resourceId mediaStream (a_stream stream)
                   (stream_closure stream resourceId))) then
  run scheduleCleanupOnUnload then
  ret resourceId.

Definition registerScanner (sc : Scanner) (id : option string)
           (generated : string) : M string :=
  let resourceId := choose_id id generated in
  run set_resources (mset resourceId
        (mkManaged resourceId scanner (a_scanner sc)
                   (scanner_closure sc resourceId))) then
  run scheduleCleanupOnUnload then
  ret resourceId.

Definition registerTimeout (t : Timer) (id : option string)
           (generated : string) : M string :=
  let resourceId := choose_id id generated in
  run set_resources (mset resourceId
        (mkManaged resourceId timeout (a_timer t)
                   (timer_closure t resourceId))) then
  ret resourceId.

(** [ResourceManager.cleanup], under the name of its exported alias
    [cleanupResource] ([cleanup] is the closure stored in a resource). *)
Definition cleanupResource (resourceId : string) : M bool :=
  fun s =>
    match mget resourceId (resources s) with
    | None => ret false s
    | Some resource =>
        try_catch
          (run invoke resource then
           run set_resources (mdelete resourceId) then
           ret true)
          (run logError ("Failed to cleanup resource " ++ resourceId) then
           ret false)
          s
    end.

(** [for (const [id, resource] of this.resources)]: the entries present
    when the loop starts are visited in insertion order; an entry that
    was deleted before its turn is skipped. *)
Fixpoint for_each (ids : list string) (body : string -> ManagedResource -> M unit)
  : M unit :=
  match ids with
  | [] => ret tt
  | i :: rest =>
      fun s =>
        match mget i (resources s) with
        | None => for_each rest body s
        | Some r => (run body i r then for_each rest body) s
        end
  end.

Fixpoint count_cleaned (ids : list string) (t : ResourceType) (n : nat) : M nat :=
  match ids with
  | [] => ret n
  | i :: rest =>
      fun s =>
        match mget i (resources s) with
        | None => count_cleaned rest t n s
        | Some r =>
            if type_eqb (type r) t
            then (let* ok := cleanupResource i in
                  count_cleaned rest t (if ok then S n else n)) s
            else count_cleaned rest t n s
        end
  end.

Definition cleanupByType (t : ResourceType) : M nat :=
  fun s => count_cleaned (mkeys (resources s)) t 0 s.

Definition cleanupAll : M nat :=
  fun s =>
    let totalResources := msize (resources s) in
    (run for_each (mkeys (resources s))
                  (fun id _ => run cleanupResource id then ret tt) then
     ret totalResources) s.

(** [getResourceCount(type?)] *)
Definition getResourceCount (t : option ResourceType) (s : State) : nat :=
  match t with
  | None => msize (resources s)
  | Some t =>
      List.length (List.filter (fun resource => type_eqb (type resource) t)
                               (map snd (resources s)))
  end.

(** [getActiveResources] *)
Definition getActiveResources (s : State) : list string := mkeys (resources s).

(** The operations a client of the manager can perform. *)
Inductive Op : Type :=
| OpRegisterMediaStream (stream : MediaStream) (id : option string) (generated : string)
| OpRegisterScanner (sc : Scanner) (id : option string) (generated : string)
| OpRegisterTimeout (t : Timer) (id : option string) (generated : string)
| OpCleanup (resourceId : string)
| OpCleanupByType (t : ResourceType)
| OpCleanupAll.

Definition exec (o : Op) (s : State) : State :=
  match o with
  | OpRegisterMediaStream stream id g => snd (registerMediaStream stream id g s)
  | OpRegisterScanner sc id g => snd (registerScanner sc id g s)
  | OpRegisterTimeout t id g => snd (registerTimeout t id g s)
  | OpCleanup i => snd (cleanupResource i s)
  | OpCleanupByType t => snd (cleanupByType t s)
  | OpCleanupAll => snd (cleanupAll s)
  end.

(** The state of the manager after a history of operations. *)
Definition after (history : list Op) : State :=
  fold_left (fun s o => exec o s) history empty.

(** Every stored closure returns normally. *)
Definition guarded_state (s : State) : Prop :=
  forall k r, In (k, r) (resources s) -> fst (cleanup r tt) = Normal.

(** The entries of type [t], the other ones, and what running the
    closures of some entries once, in order, leaves in the log. *)
Definition of_type (t : ResourceType) (m : Map ManagedResource) : Map ManagedResource :=
  List.filter (fun kv => type_eqb (type (snd kv)) t) m.

Definition not_of_type (t : ResourceType) (m : Map ManagedResource) : Map ManagedResource :=
  List.filter (fun kv => negb (type_eqb (type (snd kv)) t)) m.

Definition released (m : Map ManagedResource) : list Effect :=
  flat_map (fun kv => snd (cleanup (snd kv) tt)) m.

(** One entry per id. *)
Definition unique_ids (s : State) : Prop := List.NoDup (mkeys (resources s)).

(** An entry as one of the three [register...] methods stores it: under
    its own id, with the closure built for its resource. *)
Definition registered (kv : string * ManagedResource) : Prop :=
  (exists stream,
      snd kv = mkManaged (fst kv) mediaStream (a_stream stream)
                         (stream_closure stream (fst kv)))
  \/ (exists sc,
        snd kv = mkManaged (fst kv) scanner (a_scanner sc)
                           (scanner_closure sc (fst kv)))
  \/ (exists t,
        snd kv = mkManaged (fst kv) timeout (a_timer t) (timer_closure t (fst kv))).

(** A registry as the methods of the manager leave it. *)
Definition sound (s : State) : Prop :=
  unique_ids s /\ Forall registered (resources s).

(** The operations that call [scheduleCleanupOnUnload]. *)
Definition schedules (o : Op) : bool :=
  match o with
  | OpRegisterMediaStream _ _ _ | OpRegisterScanner _ _ _ => true
  | _ => false
  end.

(** *** Sample resources *)

(** A stream whose tracks cannot be stopped. *)
Definition stuck_stream : MediaStream :=
  {| stream_id := "stream-1"; stop_tracks := Throws |}.

Definition sample_history : list Op :=
  [OpRegisterMediaStream stuck_stream (Some "primary_camera"%string) "";
   OpRegisterScanner (mkScanner true Normal) (Some "primary_barcode_scanner"%string) "";
   OpRegisterTimeout (mkTimer Normal) None "timeout_1700000000000_k3j9x2m1q"].

End Resources.

(* ===================================================================== *)
(** ** services/camera-service.ts: [CameraService] *)
(* ===================================================================== *)

Module Camera.
Import Js Resources.

Record CameraError : Type := mkCameraError {
  name : string;
  message : string;
  fallbackAvailable : bool;
  userAction : option string
}.

(** [createCameraError(error)], a [switch] on [error.name]. *)
Definition createCameraError (error_name : string) : CameraError :=
  if String.eqb error_name "NotAllowedError" then
    {| name := "NotAllowedError";
       message := "Camera permission denied. Please enable camera access in your browser settings.";
       fallbackAvailable := true;
       userAction := Some "Enable camera permission and refresh the page"%string |}
  else if String.eqb error_name "NotFoundError" then
    {| name := "NotFoundError";
       message := "No camera found on this device.";
       fallbackAvailable := true;
       userAction := Some "You can upload a photo instead"%string |}
  else if String.eqb error_name "NotReadableError" then
    {| name := "NotReadableError";
       message := "Camera is being used by another application.";
       fallbackAvailable := false;
       userAction := Some "Close other camera applications and try again"%string |}
  else if String.eqb error_name "OverconstrainedError" then
    {| name := "OverconstrainedError";
       message := "Camera does not support required features.";
       fallbackAvailable := true;
       userAction := Some "Using basic camera mode"%string |}
  else if String.eqb error_name "AbortError" then
    {| name := "AbortError";
       message := "Camera access was interrupted.";
       fallbackAvailable := true;
       userAction := Some "Please try again"%string |}
  else
    {| name := "UnknownError";
       message := "An unexpected camera error occurred.";
       fallbackAvailable := true;
       userAction := Some "You can upload a photo instead"%string |}.

(** The two constraint sets: [getOptimalConstraints()] and
    [getMinimalConstraints()]. *)
Inductive Tier : Type := Optimal | Minimal.

(** What [navigator.mediaDevices.getUserMedia] does for a request: the
    promise is fulfilled with a stream or rejected with an error of the
    given [name]. *)
Inductive Gum : Type :=
| Granted (stream : MediaStream)
| Refused (error_name : string).

(** A value thrown by [startCamera]: a platform error as it came, or a
    [CameraError] built by [createCameraError]. *)
Inductive Exception : Type :=
| RawError
| Classified (e : CameraError).

Inductive Started : Type :=
| Stream (s : MediaStream)
| Throw (e : Exception).

(** The service ([activeStreamId]), the resource manager it uses, and
    the requests made to [getUserMedia].  The manager is the singleton
    [resourceManager], which the barcode hook uses too. *)
Record World : Type := mkWorld {
  activeStreamId : option string;
  manager : Resources.State;
  requested : list Tier
}.

Definition primary_camera : string := "primary_camera".
Definition fallback_camera : string := "fallback_camera".

(** [stopCamera]; [None] when the call throws. *)
Definition stopCamera (w : World) : option World :=
  match activeStreamId w with
  | Some (String c rest) =>
      match cleanupResource (String c rest) (manager w) with
      | (Returned _, m) =>
          Some {| activeStreamId := None; manager := m; requested := requested w |}
      | (Thrown, _) => None
      end
  | _ => Some w
  end.

Definition request (t : Tier) (w : World) : World :=
  {| activeStreamId := activeStreamId w; manager := manager w;
     requested := requested w ++ [t] |}.

(** [this.activeStreamId = resourceManager.registerMediaStream(stream, id)];
    [None] when the registration throws. *)
Definition register_active (stream : MediaStream) (id : string) (w : World)
  : option World :=
  match registerMediaStream stream (Some id) EmptyString (manager w) with
  | (Returned resourceId, m) =>
      Some {| activeStreamId := Some resourceId; manager := m;
              requested := requested w |}
  | (Thrown, _) => None
  end.

(** [startCamera] is an [async] function: it runs up to
    [await this.stopCamera()], the body of [stopCamera] included, and is
    suspended there, then at [await getUserMedia(...)] with the optimal
    constraints and, in the [catch] block, at the one with the minimal
    constraints.  Other calls on the service can run while it is
    suspended.  The pieces between the suspension points follow. *)
Inductive Suspended : Type := AtStopCamera | AtOptimal | AtMinimal.

(** From [await this.stopCamera()] to the first [await getUserMedia]. *)
Definition startCamera_resume (w : World) : World := request Optimal w.

(** The request with the optimal constraints settles: the stream is
    registered and returned, or the [catch] block makes the request with
    the minimal constraints and the call is suspended again ([None]). *)
Definition startCamera_optimal (g : Gum) (w : World) : option Started * World :=
  match g with
  | Granted stream =>
      match register_active stream primary_camera w with
      | Some w' => (Some (Stream stream), w')
      | None => (None, request Minimal w)
      end
  | Refused _ => (None, request Minimal w)
  end.

(** The request with the minimal constraints settles. *)
Definition startCamera_minimal (g : Gum) (w : World) : Started * World :=
  match g with
  | Granted stream =>
      match register_active stream fallback_camera w with
      | Some w' => (Stream stream, w')
      | None => (Throw (Classified (createCameraError EmptyString)), w)
      end
  | Refused fallbackError =>
      (Throw (Classified (createCameraError fallbackError)), w)
  end.

(** A call of [startCamera] during which nothing else runs on the
    service: its pieces one after the other, [gum] telling how each
    request settles. *)
Definition startCamera (gum : Tier -> Gum) (w : World) : Started * World :=
  match stopCamera w with
  | None => (Throw RawError, w)
  | Some w =>
      match startCamera_optimal (gum Optimal) (startCamera_resume w) with
      | (Some result, w') => (result, w')
      | (None, w') => startCamera_minimal (gum Minimal) w'
      end
  end.

(** A history in which no call is interrupted: a call of [startCamera]
    that runs from its beginning to its end, a call of [stopCamera], the
    page being hidden (the manager releases every media stream) or
    unloaded (the manager releases everything).  The histories with
    suspended calls, and with the barcode hook, are those of [System]
    below. *)
Inductive Action : Type :=
| Start (gum : Tier -> Gum)
| Stop
| PageHidden
| PageUnload.

Definition with_manager (m : Resources.State) (w : World) : World :=
  {| activeStreamId := activeStreamId w; manager := m; requested := requested w |}.

Definition act (a : Action) (w : World) : World :=
  match a with
  | Start gum => snd (startCamera gum w)
  | Stop => match stopCamera w with Some w' => w' | None => w end
  | PageHidden => with_manager (snd (cleanupByType mediaStream (manager w))) w
  | PageUnload => with_manager (snd (cleanupAll (manager w))) w
  end.

Definition fresh : World :=
  {| activeStreamId := None; manager := Resources.empty; requested := [] |}.

Definition world_after (actions : list Action) : World :=
  fold_left (fun w a => act a w) actions fresh.

(** The service with the calls of [startCamera] that have not returned:
    the number of each call and where it is suspended; how many calls
    have been made; what the calls that returned gave their callers; the
    streams that were registered, with their ids, in order. *)
Record System : Type := mkSystem {
  world : World;
  calls : list (nat * Suspended);
  made : nat;
  outcomes : list (nat * Started);
  obtained : list (MediaStream * string)
}.

Definition boot : System :=
  {| world := fresh; calls := []; made := 0; outcomes := []; obtained := [] |}.

Definition suspended_at (c : nat) (sys : System) : option Suspended :=
  option_map snd (List.find (fun x => Nat.eqb (fst x) c) (calls sys)).

Definition outcome (c : nat) (sys : System) : option Started :=
  option_map snd (List.find (fun x => Nat.eqb (fst x) c) (outcomes sys)).

Definition with_world (w : World) (sys : System) : System :=
  {| world := w; calls := calls sys; made := made sys;
     outcomes := outcomes sys; obtained := obtained sys |}.

(** The call [c] is suspended at [p], with the service in [w]. *)
Definition suspend (c : nat) (p : Suspended) (w : World) (sys : System) : System :=
  {| world := w;
     calls := map (fun x => if Nat.eqb (fst x) c then (c, p) else x) (calls sys);
     made := made sys; outcomes := outcomes sys; obtained := obtained sys |}.

(** The call [c] returns or throws [r], with the service in [w]; a
    stream it returns was registered under [id]. *)
Definition finish (c : nat) (r : Started) (id : string) (w : World) (sys : System)
  : System :=
  {| world := w;
     calls := List.filter (fun x => negb (Nat.eqb (fst x) c)) (calls sys);
     made := made sys;
     outcomes := outcomes sys ++ [(c, r)];
     obtained := obtained sys
                 ++ match r with Stream stream => [(stream, id)] | Throw _ => [] end |}.

(** The id under which [useBarcodeDetection] registers its reader. *)
Definition primary_barcode_scanner : string := "primary_barcode_scanner".

(** What can happen on the service and on the manager it shares: a
    caller invokes [startCamera()]; the call [c] resumes after
    [await this.stopCamera()]; the [getUserMedia] promise that the call
    [c] awaits settles; a caller invokes [stopCamera()]; the page is
    hidden (the manager releases every media stream) or unloaded (the
    manager releases everything); the barcode hook registers its reader
    ([initializeReader]) or, when it is unmounted, releases it. *)
Inductive Occurrence : Type :=
| Starts
| Resumes (c : nat)
| Settles (c : nat) (g : Gum)
| Stops
| Hides
| Unloads
| ScannerRegistered (sc : Scanner)
| ScannerReleased.


Definition occur (e : Occurrence) (sys : System) : System :=
  match e with
  | Starts =>
      let c := made sys in
      match stopCamera (world sys) with
      | Some w =>
          {| world := w; calls := calls sys ++ [(c, AtStopCamera)]; made := S c;
             outcomes := outcomes sys; obtained := obtained sys |}
      | None =>
          {| world := world sys; calls := calls sys; made := S c;
             outcomes := outcomes sys ++ [(c, Throw RawError)];
             obtained := obtained sys |}
      end
  | Resumes c =>
      match suspended_at c sys with
      | Some AtStopCamera => suspend c AtOptimal (startCamera_resume (world sys)) sys
      | _ => sys
      end
  | Settles c g =>
      match suspended_at c sys with
      | Some AtOptimal =>
          match startCamera_optimal g (world sys) with
          | (Some r, w) => finish c r primary_camera w sys
          | (None, w) => suspend c AtMinimal w sys
          end
      | Some AtMinimal =>
          let '(r, w) := startCamera_minimal g (world sys) in
          finish c r fallback_camera w sys
      | _ => sys
      end
  | Stops =>
      match stopCamera (world sys) with
      | Some w => with_world w sys
      | None => sys
      end
  | Hides =>
      with_world (with_manager (snd (cleanupByType mediaStream (manager (world sys))))
                               (world sys)) sys
  | Unloads =>
      with_world (with_manager (snd (cleanupAll (manager (world sys)))) (world sys)) sys
  | ScannerRegistered sc =>
      with_world
        (with_manager (snd (registerScanner sc (Some primary_barcode_scanner) EmptyString
                                            (manager (world sys))))
                      (world sys)) sys
  | ScannerReleased =>
      with_world
        (with_manager (snd (cleanupResource primary_barcode_scanner (manager (world sys))))
                      (world sys)) sys
  end.

Definition occur_all (events : list Occurrence) (sys : System) : System :=
  fold_left (fun sys e => occur e sys) events sys.

Definition system_after (events : list Occurrence) : System := occur_all events boot.

(** No call of [startCamera] begins while another one has not
    returned. *)
Fixpoint apart_from (sys : System) (events : list Occurrence) : bool :=
  match events with
  | [] => true
  | e :: rest =>
      match e, calls sys with
      | Starts, _ :: _ => false
      | _, _ => apart_from (occur e sys) rest
      end
  end.

Definition starts_apart (events : list Occurrence) : bool := apart_from boot events.

(** The occurrences of a call of [startCamera], numbered [c], during
    which nothing else happens. *)
Definition uninterrupted (c : nat) (gum : Tier -> Gum) : list Occurrence :=
  [Starts; Resumes c; Settles c (gum Optimal)]
    ++ match gum Optimal with
       | Granted _ => []
       | Refused _ => [Settles c (gum Minimal)]
       end.


(** The registry holds nothing, or exactly the stream the service
    believes active. *)
Definition one_stream (w : World) : Prop :=
  activeStreamId w <> Some EmptyString
  /\ (resources (manager w) = []
      \/ exists k r, resources (manager w) = [(k, r)] /\ activeStreamId w = Some k).

(** The stream a start obtains from the device, with the id it registers
    it under; none when both requests are rejected. *)
Definition acquired (gum : Tier -> Gum) : list (MediaStream * string) :=
  match gum Optimal with
  | Granted stream => [(stream, primary_camera)]
  | Refused _ =>
      match gum Minimal with
      | Granted stream => [(stream, fallback_camera)]
      | Refused _ => []
      end
  end.

Definition acquisitions (actions : list Action) : list (MediaStream * string) :=
  flat_map (fun a => match a with Start gum => acquired gum | _ => [] end) actions.

(** What releasing a stream registered under an id leaves in the log of
    the manager. *)
Definition release_of (x : MediaStream * string) : list Effect :=
  snd (stream_closure (fst x) (snd x) tt).

(** The streams the registry holds. *)
Definition held (w : World) : list (MediaStream * string) :=
  flat_map (fun kv => match resource (snd kv) with
                      | a_stream stream => [(stream, fst kv)]
                      | _ => []
                      end)
           (resources (manager w)).

(** The registry holds nothing, or the stream of the last successful
    start under the active id, with the closure built for it. *)
Definition tracked (w : World) : Prop :=
  activeStreamId w <> Some EmptyString
  /\ (resources (manager w) = []
      \/ exists k stream,
           resources (manager w)
           = [(k, mkManaged k mediaStream (a_stream stream) (stream_closure stream k))]
           /\ activeStreamId w = Some k).










(** What every interleaving keeps: stored closures return normally; the
    active id is not the empty string; the number of a call is below
    the number of calls made; a call that is suspended has not returned;
    no call has thrown a platform error. *)
Definition steady (sys : System) : Prop :=
  guarded_state (manager (world sys))
  /\ activeStreamId (world sys) <> Some EmptyString
  /\ (forall c, (made sys <= c)%nat ->
                suspended_at c sys = None /\ outcome c sys = None)
  /\ (forall c p, suspended_at c sys = Some p -> outcome c sys = None)
  /\ Forall (fun o => snd o <> Throw RawError) (outcomes sys).

(** *** Sample devices *)





(** The user denies the permission. *)
Definition denies : Tier -> Gum := fun _ => Refused "NotAllowedError".

End Camera.

(* ===================================================================== *)
(** ** hooks/useBarcodeDetection.ts *)
(* ===================================================================== *)

Module Scan.
Import Js.

Record BarcodeResult : Type := mkBarcodeResult {
  text : jsstring;
  format : string;
  b_timestamp : Z;
  b_confidence : Z
}.

Record BarcodeDetectionState : Type := mkDetection {
  isScanning : bool;
  isInitialized : bool;
  result : option BarcodeResult;
  error : option string;
  scanCount : Z
}.

Definition initial : BarcodeDetectionState :=
  {| isScanning := false; isInitialized := false; result := None;
     error := None; scanCount := 0 |}.

(** The hook between two callbacks: the React state, the refs, the
    pending timer set by [setTimeout(continuousScan, ...)], and what it
    has done so far (calls of [decodeOnceFromVideoDevice], of [onError]
    and of [onDetected]). *)
Record Hook : Type := mkHook {
  state : BarcodeDetectionState;
  continuousScanRef : bool;
  scheduled : option Z;
  decodes : nat;
  signalled : list string;
  detected : list BarcodeResult
}.

Definition mounted : Hook :=
  {| state := initial; continuousScanRef := false; scheduled := None;
     decodes := 0; signalled := []; detected := [] |}.

(** What one call of [reader.decodeOnceFromVideoDevice] does. *)
Inductive Decode : Type :=
| Decoded (text : jsstring) (format : string)
| NotFoundException
| OtherError (message : string).

Definition with_state (f : BarcodeDetectionState -> BarcodeDetectionState)
           (h : Hook) : Hook :=
  {| state := f (state h); continuousScanRef := continuousScanRef h;
     scheduled := scheduled h; decodes := decodes h;
     signalled := signalled h; detected := detected h |}.

Definition onError (message : string) (h : Hook) : Hook :=
  {| state := state h; continuousScanRef := continuousScanRef h;
     scheduled := scheduled h; decodes := decodes h;
     signalled := signalled h ++ [message]; detected := detected h |}.

Definition onDetected (r : BarcodeResult) (h : Hook) : Hook :=
  {| state := state h; continuousScanRef := continuousScanRef h;
     scheduled := scheduled h; decodes := decodes h;
     signalled := signalled h; detected := detected h ++ [r] |}.

Definition count_decode (h : Hook) : Hook :=
  {| state := state h; continuousScanRef := continuousScanRef h;
     scheduled := scheduled h; decodes := S (decodes h);
     signalled := signalled h; detected := detected h |}.

(** [detectBarcodeOnce], once the reader exists.  [seen] is the
    [state.scanCount] of the render in which the callback was created;
    [now] is [new Date()]. *)
Definition detectBarcodeOnce (seen : Z) (now : Z) (d : Decode) (h : Hook)
  : option BarcodeResult * Hook :=
  let h := with_state (fun s => mkDetection true (isInitialized s) (result s)
                                            None (scanCount s)) h in
  let h := count_decode h in
  match d with
  | Decoded text format =>
      let barcodeResult := mkBarcodeResult text format now 95 in
      let h := with_state (fun s => mkDetection false (isInitialized s)
                                                (Some barcodeResult) (error s)
                                                (seen + 1)) h in
      (Some barcodeResult, onDetected barcodeResult h)
  | NotFoundException =>
      (None, with_state (fun s => mkDetection false (isInitialized s) (result s)
                                              (error s) (scanCount s)) h)
  | OtherError message =>
      let errorMessage :=
        match message with EmptyString => "Barcode detection failed"%string | m => m end in
      let h := with_state (fun s => mkDetection false (isInitialized s) (result s)
                                                (Some errorMessage) (scanCount s)) h in
      (None, onError errorMessage h)
  end.

(** [stopContinuousScanning] (with [stopDetection]). *)
Definition stopContinuousScanning (h : Hook) : Hook :=
  with_state (fun s => mkDetection false (isInitialized s) (result s) (error s)
                                   (scanCount s))
    {| state := state h; continuousScanRef := false; scheduled := None;
       decodes := decodes h; signalled := signalled h; detected := detected h |}.

Definition max_attempts_message : string :=
  "Max scan attempts reached. Try repositioning the barcode.".

(** One run of the closure [continuousScan].  [detectBarcodeOnce] catches
    every exception of the decoder, so the [catch] block of the closure
    is not reached. *)
Definition continuousScan (maxScanAttempts seen interval now : Z) (d : Decode)
           (h : Hook) : Hook :=
  if negb (continuousScanRef h) then h
  else if (0 <? maxScanAttempts) && (maxScanAttempts <=? seen)
  then onError max_attempts_message (stopContinuousScanning h)
  else
    let '(result, h) := detectBarcodeOnce seen now d h in
    match result with
    | Some _ => stopContinuousScanning h
    | None =>
        if continuousScanRef h
        then {| state := state h; continuousScanRef := continuousScanRef h;
                scheduled := Some interval; decodes := decodes h;
                signalled := signalled h; detected := detected h |}
        else h
    end.

(** [startContinuousScanning], called in a render whose [state.scanCount]
    is [seen]; [video n] is what the [n]-th decode of the session does. *)
Definition startContinuousScanning (enableContinuousScanning : bool)
           (maxScanAttempts seen interval now : Z) (video : nat -> Decode)
           (h : Hook) : Hook :=
  if negb enableContinuousScanning then h
  else
    let h := {| state := state h; continuousScanRef := true;
                scheduled := scheduled h; decodes := decodes h;
                signalled := signalled h; detected := detected h |} in
    continuousScan maxScanAttempts seen interval now (video (decodes h)) h.

(** The pending timer fires and runs the same closure again. *)
Definition timer_fires (maxScanAttempts seen interval now : Z)
           (video : nat -> Decode) (h : Hook) : Hook :=
  match scheduled h with
  | None => h
  | Some _ =>
      continuousScan maxScanAttempts seen interval now (video (decodes h))
        {| state := state h; continuousScanRef := continuousScanRef h;
           scheduled := None; decodes := decodes h;
           signalled := signalled h; detected := detected h |}
  end.

(** A scanning session left alone: the start, then [n] timer events. *)
Fixpoint session (maxScanAttempts seen interval now : Z)
         (video : nat -> Decode) (n : nat) (h : Hook) : Hook :=
  match n with
  | O => startContinuousScanning true maxScanAttempts seen interval now video h
  | S n' =>
      timer_fires maxScanAttempts seen interval now video
        (session maxScanAttempts seen interval now video n' h)
  end.

Definition is_decoded (d : Decode) : bool :=
  match d with Decoded _ _ => true | _ => false end.

(** A video in which no barcode is ever found. *)
Definition nothing_to_scan : nat -> Decode := fun _ => NotFoundException.

End Scan.

(* ===================================================================== *)
(** ** hooks/useCapture.ts *)
(* ===================================================================== *)

Module Capture.
Import Js Lookup.

Inductive CaptureMode : Type := barcode_mode | nutrition_label | ai_analysis | manual.

Record CaptureState : Type := mkCapture {
  mode : CaptureMode;
  isActive : bool;
  isProcessing : bool;
  autoDetectionComplete : bool;
  showModeSelection : bool;
  lookupResult : option LookupResult;
  error : option string
}.

Definition initial : CaptureState :=
  {| mode := barcode_mode; isActive := false; isProcessing := false;
     autoDetectionComplete := false; showModeSelection := false;
     lookupResult := None; error := None |}.

(** The hook between two callbacks: the React state; the timers set by
    [startAutoDetection] that have neither fired nor been cleared, in the
    order they were set, each with its handle and the [state] its closure
    captured; [autoDetectionTimeoutRef.current], the handle of the timer
    set last (a handle is truthy); the next handle [setTimeout] returns;
    whether the continuous scan is running; the calls of
    [onBarcodeDetected] and [onError]. *)
Record Hook : Type := mkHook {
  state : CaptureState;
  timers : list (positive * CaptureState);
  autoDetectionTimeoutRef : option positive;
  next_timer : positive;
  scanning : bool;
  reported : list LookupResult;
  errors : list string
}.

Definition mounted : Hook :=
  {| state := initial; timers := []; autoDetectionTimeoutRef := None;
     next_timer := 1%positive; scanning := false; reported := []; errors := [] |}.

Definition updateState (f : CaptureState -> CaptureState) (h : Hook) : Hook :=
  {| state := f (state h); timers := timers h;
     autoDetectionTimeoutRef := autoDetectionTimeoutRef h;
     next_timer := next_timer h;
     scanning := scanning h; reported := reported h; errors := errors h |}.

(** [barcodeDetection.startContinuousScanning] and
    [barcodeDetection.stopContinuousScanning], as far as this hook
    sees. *)
Definition set_scanning (b : bool) (h : Hook) : Hook :=
  {| state := state h; timers := timers h;
     autoDetectionTimeoutRef := autoDetectionTimeoutRef h;
     next_timer := next_timer h;
     scanning := b; reported := reported h; errors := errors h |}.

(** The state captured by the timer [t], if it is pending. *)
Definition pending (t : positive) (h : Hook) : option CaptureState :=
  option_map snd (List.find (fun x => Pos.eqb (fst x) t) (timers h)).

(** [clearTimeout(t)]; also what the platform does with a timer that
    fires. *)
Definition clearTimeout (t : positive) (h : Hook) : Hook :=
  {| state := state h;
     timers := List.filter (fun x => negb (Pos.eqb (fst x) t)) (timers h);
     autoDetectionTimeoutRef := autoDetectionTimeoutRef h;
     next_timer := next_timer h;
     scanning := scanning h; reported := reported h; errors := errors h |}.

(** [autoDetectionTimeoutRef.current = setTimeout(callback, ...)], the
    callback closing over [seen].  The timer the ref held before is not
    cleared. *)
Definition setTimeout (seen : CaptureState) (h : Hook) : Hook :=
  {| state := state h;
     timers := timers h ++ [(next_timer h, seen)];
     autoDetectionTimeoutRef := Some (next_timer h);
     next_timer := Pos.succ (next_timer h);
     scanning := scanning h; reported := reported h; errors := errors h |}.

(** [startAutoDetection] in a render whose [state] is [seen]; [video]
    tells whether [videoRef.current] is set. *)
Definition startAutoDetection (video : bool) (seen : CaptureState) (h : Hook) : Hook :=
  if negb video then h
  else
    let h := updateState (fun s => mkCapture barcode_mode (isActive s) (isProcessing s)
                                             false false (lookupResult s) None) h in
    let h := set_scanning true h in
    setTimeout seen h.

(** The callback given to [setTimeout] by the timer [t] runs. *)
Definition timeout_fires (t : positive) (h : Hook) : Hook :=
  match pending t h with
  | None => h
  | Some seen =>
      let h := clearTimeout t h in
      if negb (autoDetectionComplete seen)
         && match lookupResult seen with None => true | Some _ => false end
      then
        updateState (fun s => mkCapture (mode s) (isActive s) (isProcessing s)
                                        true true (lookupResult s) (error s))
          (set_scanning false h)
      else h
  end.

(** [handleBarcodeDetected] up to [await lookupByBarcode(...)].  The
    detector has stopped its loop before calling [onDetected]. *)
Definition handleBarcodeDetected_begin (h : Hook) : Hook :=
  updateState (fun s => mkCapture (mode s) (isActive s) true
                                  (autoDetectionComplete s) (showModeSelection s)
                                  (lookupResult s) None)
    (set_scanning false h).

(** [handleBarcodeDetected] after the lookup has returned [result]. *)
Definition handleBarcodeDetected_resume (result : LookupResult) (h : Hook) : Hook :=
  let h := updateState (fun s => mkCapture (mode s) (isActive s) false true
                                           (negb (success result))
                                           (Some result) (error s)) h in
  if success result
  then {| state := state h; timers := timers h;
          autoDetectionTimeoutRef := autoDetectionTimeoutRef h;
          next_timer := next_timer h;
          scanning := scanning h; reported := reported h ++ [result];
          errors := errors h |}
  else updateState (fun s => mkCapture (mode s) (isActive s) (isProcessing s)
                                       (autoDetectionComplete s) true
                                       (lookupResult s) (error s)) h.

(** [onError?.(message)] *)
Definition report_error (message : string) (h : Hook) : Hook :=
  {| state := state h; timers := timers h;
     autoDetectionTimeoutRef := autoDetectionTimeoutRef h;
     next_timer := next_timer h;
     scanning := scanning h; reported := reported h;
     errors := errors h ++ [message] |}.

(** [handleBarcodeDetected] when the lookup throws. *)
Definition handleBarcodeDetected_catch (h : Hook) : Hook :=
  let h := updateState (fun s => mkCapture (mode s) (isActive s) false
                                           (autoDetectionComplete s) true
                                           (lookupResult s)
                                           (Some "Failed to look up product"%string)) h in
  report_error "Failed to look up product" h.

(** Calls made to the collaborators of the hook: [camera.stopCamera()],
    [camera.startCamera()] and [onModeChange]. *)
Inductive Call : Type :=
| CameraStopped
| CameraStarted
| ModeChange (newMode : CaptureMode).

(** The [onError] handler given to [useCamera]. *)
Definition camera_onError (cameraError : Camera.CameraError) (h : Hook) : Hook :=
  let h := updateState (fun s => mkCapture (mode s) false (isProcessing s)
                                           (autoDetectionComplete s)
                                           (Camera.fallbackAvailable cameraError)
                                           (lookupResult s)
                                           (Some (Camera.message cameraError))) h in
  report_error (Camera.message cameraError) h.

(** [startCapture] up to [await camera.startCamera()]. *)
Definition startCapture (h : Hook) : Hook * list Call :=
  (updateState (fun s => mkCapture (mode s) true (isProcessing s) false false None None) h,
   [CameraStarted]).

(** [stopCapture] *)
Definition stopCapture (h : Hook) : Hook * list Call :=
  let h :=
    match autoDetectionTimeoutRef h with
    | Some t =>
        let h := clearTimeout t h in
        {| state := state h; timers := timers h; autoDetectionTimeoutRef := None;
           next_timer := next_timer h;
           scanning := scanning h; reported := reported h; errors := errors h |}
    | None => h
    end in
  let h := set_scanning false h in
  (updateState (fun s => mkCapture (mode s) false false false false
                                   (lookupResult s) (error s)) h,
   [CameraStopped]).

(** [switchMode]; [video] tells whether [videoRef.current] is set. *)
Definition switchMode (newMode : CaptureMode) (video : bool) (h : Hook)
  : Hook * list Call :=
  let h := set_scanning false h in
  let h := updateState (fun s => mkCapture newMode (isActive s) (isProcessing s) true
                                           (match newMode with
                                            | barcode_mode => false
                                            | _ => true
                                            end)
                                           (lookupResult s) None) h in
  let h :=
    match newMode with
    | barcode_mode => if video then set_scanning true h else h
    | _ => h
    end in
  (h, [ModeChange newMode]).

(** [clearResult] *)
Definition clearResult (h : Hook) : Hook :=
  updateState (fun s => mkCapture (mode s) (isActive s) false false false None None) h.

(** [retryCapture] up to its [await], in a render whose [state] is
    [seen]; [cameraActive] is [camera.isActive]. *)
Definition retryCapture (cameraActive video : bool) (seen : CaptureState) (h : Hook)
  : Hook * list Call :=
  let h := clearResult h in
  if cameraActive && video
  then (startAutoDetection video seen h, [])
  else startCapture h.

(** What can happen after [startAutoDetection]. *)
Inductive Happening : Type :=
| TimeoutElapsed (t : positive)
| BarcodeDetected
| LookupReturned (result : LookupResult)
| LookupThrew.

Definition happen (e : Happening) (h : Hook) : Hook :=
  match e with
  | TimeoutElapsed t => timeout_fires t h
  | BarcodeDetected => handleBarcodeDetected_begin h
  | LookupReturned result => handleBarcodeDetected_resume result h
  | LookupThrew => handleBarcodeDetected_catch h
  end.

(** Auto-detection started, with the video element set, from the state
    [s] of the current render on a hook that has set no timer before
    (its timer gets the handle 1), followed by the happenings in
    order. *)
Definition autoDetection (s : CaptureState) (es : list Happening) : Hook :=
  fold_left (fun h e => happen e h) es
    (startAutoDetection true s
       {| state := s; timers := []; autoDetectionTimeoutRef := None;
          next_timer := 1%positive; scanning := false;
          reported := []; errors := [] |}).

(** The state once [startCapture] has run. *)
Definition capturing : CaptureState :=
  {| mode := barcode_mode; isActive := true; isProcessing := false;
     autoDetectionComplete := false; showModeSelection := false;
     lookupResult := None; error := None |}.

End Capture.

(* ===================================================================== *)
(** ** lib/meal-storage.ts *)
(* ===================================================================== *)

Module Meals.
Import Js FoodDb.

Inductive MealType : Type := breakfast | lunch | dinner | snack.

Definition mealType_eqb (a b : MealType) : bool :=
  match a, b with
  | breakfast, breakfast | lunch, lunch | dinner, dinner | snack, snack => true
  | _, _ => false
  end.

Record MealEntry : Type := mkEntry {
  entry_id : string;
  foodName : jsstring;
  entry_brand : option jsstring;
  entry_barcode : option jsstring;
  servings : Q;
  entry_nutrition : Nutrition;
  addedAt : Z;
  entry_source : Source
}.

Record Meal : Type := mkMeal {
  meal_id : string;
  meal_type : MealType;
  date : string;
  entries : list MealEntry;
  totalNutrition : Nutrition
}.

(** The item ['maestro_meals'] of [localStorage]: [None] when it is
    absent or does not parse; [writable] tells whether [setItem]
    succeeds. *)
Record Storage : Type := mkStorage {
  stored : option (list Meal);
  writable : bool
}.

(** The clock and the generated identifiers of one call:
    [getTodayDate()], [Date.now()], and the values of the two template
    strings that build a meal id and an entry id. *)
Record Env : Type := mkEnv {
  today : string;
  now : Z;
  new_meal_id : string;
  new_entry_id : string
}.

Definition getAllMeals (st : Storage) : list Meal :=
  match stored st with
  | Some meals => meals
  | None => []
  end.

Definition saveMeals (meals : list Meal) (st : Storage) : Storage :=
  if writable st then {| stored := Some meals; writable := writable st |} else st.

Definition zero : Nutrition := mkNutrition 0 0 0 0 0.

Definition add_entry (total : Nutrition) (entry : MealEntry) : Nutrition :=
  {| calories := calories total + calories (entry_nutrition entry);
     carbs := carbs total + carbs (entry_nutrition entry);
     fat := fat total + fat (entry_nutrition entry);
     protein := protein total + protein (entry_nutrition entry);
     fiber := fiber total + fiber (entry_nutrition entry) |}%Q.

(** [entries.reduce(..., { calories: 0, ... })] *)
Definition calculateMealNutrition (entries : list MealEntry) : Nutrition :=
  fold_left add_entry entries zero.

(** [getOrCreateMeal]: the meal it returns is a fresh object, parsed
    from storage or created. *)
Definition getOrCreateMeal (mealType : MealType) (env : Env) (st : Storage) : Meal :=
  match List.find (fun m => mealType_eqb (meal_type m) mealType
                            && String.eqb (date m) (today env))
                  (getAllMeals st) with
  | Some meal => meal
  | None =>
      {| meal_id := new_meal_id env; meal_type := mealType; date := today env;
         entries := []; totalNutrition := zero |}
  end.

(** [meals[mealIndex] = meal] at the first index whose meal has this id,
    [meals.push(meal)] when there is none. *)
Fixpoint put_meal (meal : Meal) (meals : list Meal) : list Meal :=
  match meals with
  | [] => [meal]
  | m :: rest =>
      if String.eqb (meal_id m) (meal_id meal) then meal :: rest
      else m :: put_meal meal rest
  end.

Record AddResult : Type := mkAddResult {
  add_success : bool;
  add_meal : option Meal;
  add_error : option string
}.

Definition addFoodToMeal (product : ProductData) (mealType : MealType)
           (servings : Q) (totalNutrition : Nutrition) (env : Env)
           (st : Storage) : AddResult * Storage :=
  let meals := getAllMeals st in
  let meal := getOrCreateMeal mealType env st in
  let entry :=
    {| entry_id := new_entry_id env; foodName := name product;
       entry_brand := brand product; entry_barcode := Some (barcode product);
       servings := servings; entry_nutrition := totalNutrition;
       addedAt := now env; entry_source := source product |} in
  let entries := entries meal ++ [entry] in
  let meal :=
    {| meal_id := meal_id meal; meal_type := meal_type meal; date := date meal;
       entries := entries; totalNutrition := calculateMealNutrition entries |} in
  let meals := put_meal meal meals in
  ({| add_success := true; add_meal := Some meal; add_error := None |},
   saveMeals meals st).

(** The array [removeFoodFromMeal] passes to [saveMeals]: the first meal
    with this id is updated in place; [None] when there is none. *)
Fixpoint remove_entry (mealId entryId : string) (meals : list Meal)
  : option (list Meal) :=
  match meals with
  | [] => None
  | m :: rest =>
      if String.eqb (meal_id m) mealId then
        let entries :=
          List.filter (fun e => negb (String.eqb (entry_id e) entryId)) (entries m) in
        Some ({| meal_id := meal_id m; meal_type := meal_type m; date := date m;
                 entries := entries;
                 totalNutrition := calculateMealNutrition entries |} :: rest)
      else option_map (cons m) (remove_entry mealId entryId rest)
  end.

Definition removeFoodFromMeal (mealId entryId : string) (st : Storage)
  : bool * Storage :=
  match remove_entry mealId entryId (getAllMeals st) with
  | None => (false, st)
  | Some meals => (true, saveMeals meals st)
  end.

(** [getTodaysMeals] *)
Definition getTodaysMeals (env : Env) (st : Storage) : list Meal :=
  List.filter (fun m => String.eqb (date m) (today env)) (getAllMeals st).

Definition add_meal_totals (total : Nutrition) (meal : Meal) : Nutrition :=
  {| calories := calories total + calories (totalNutrition meal);
     carbs := carbs total + carbs (totalNutrition meal);
     fat := fat total + fat (totalNutrition meal);
     protein := protein total + protein (totalNutrition meal);
     fiber := fiber total + fiber (totalNutrition meal) |}%Q.

(** [getTodaysTotalNutrition] *)
Definition getTodaysTotalNutrition (env : Env) (st : Storage) : Nutrition :=
  fold_left add_meal_totals (getTodaysMeals env st) zero.

(** [meals.find(m => m.id === mealId)] *)
Definition find_meal (mealId : string) (meals : list Meal) : option Meal :=
  List.find (fun m => String.eqb (meal_id m) mealId) meals.

(** The sum of a list of numbers, added from left to right as [reduce]
    does. *)
Definition sum (l : list Q) : Q := fold_left Qplus l 0%Q.

(** A meal whose five totals are the sums of its entries' values. *)
Definition totals_are_sums (m : Meal) : Prop :=
  calories (totalNutrition m) = sum (map (fun e => calories (entry_nutrition e)) (entries m))
  /\ carbs (totalNutrition m) = sum (map (fun e => carbs (entry_nutrition e)) (entries m))
  /\ fat (totalNutrition m) = sum (map (fun e => fat (entry_nutrition e)) (entries m))
  /\ protein (totalNutrition m) = sum (map (fun e => protein (entry_nutrition e)) (entries m))
  /\ fiber (totalNutrition m) = sum (map (fun e => fiber (entry_nutrition e)) (entries m)).

(** Every stored meal has totals that are the sums of its entries. *)
Definition consistent (st : Storage) : Prop :=
  Forall totals_are_sums (getAllMeals st).

(** *** Sample data *)

Definition empty_storage : Storage := {| stored := None; writable := true |}.

Definition morning : Env :=
  {| today := "2025-01-15"; now := 1736928000000;
     new_meal_id := "breakfast_2025-01-15_1736928000000";
     new_entry_id := "entry_1736928000000_k3j9x2m1q" |}.

(** Two and a half servings of [100, 20, 5, 8, 3]. *)
Definition two_and_a_half_servings : Nutrition :=
  mkNutrition 250 50 (25 # 2) 20 (15 # 2).

Definition porridge : ProductData :=
  {| name := Js.lit "Oatmeal"; brand := Some (Js.lit "Quaker");
     barcode := Js.lit "030000013205"; source := barcode_src;
     nutrition := mkNutrition 100 20 5 8 3; imageUrl := None; verified := true |}.

End Meals.

(* ===================================================================== *)
(** ** app/capture/components/MealSelectionModal.tsx *)
(* ===================================================================== *)

Module MealSelection.
Import Js.

(** [Math.max(a, b)] *)
Definition Math_max (a b : Q) : Q := if Qle_bool a b then b else a.

(** [adjustServings(delta)] when the state [servings] has the given
    value: the new value of the state. *)
Definition adjustServings (delta servings : Q) : Q :=
  let newServings := Math_max (1 # 2) (servings + delta)%Q in
  (inject_Z (Math_round (newServings * 2)) / 2)%Q.

(** The values the serving control can show: [k / 2] for [k >= 1]. *)
Definition half_steps (servings : Q) : Prop :=
  exists k : Z, 1 <= k /\ (servings == inject_Z k / 2)%Q.

End MealSelection.

(* ===================================================================== *)
(** * Properties *)
(* ===================================================================== *)

(** ** Barcode validation *)

Section Validation.
Import Js FoodDb Lookup Service.

Ltac n_cases :=
  repeat match goal with
    | |- context [N.leb ?a ?b] => destruct (N.leb_spec a b); try lia
    | |- context [N.eqb ?a ?b] => destruct (N.eqb_spec a b); try lia
    end.

Lemma digit_is_kept (c : N) :
  is_digit c = true -> negb (is_space c || is_dash c) = true.
Proof.
  unfold is_digit, is_space, is_dash.
  intros H. apply andb_prop in H as [Hlo Hhi].
  apply N.leb_le in Hlo, Hhi.
  n_cases; reflexivity.
Qed.

Lemma clean_digits (b : jsstring) :
  forallb is_digit b = true -> cleanBarcode b = b.
Proof.
  unfold cleanBarcode.
  induction b as [|c b IH]; simpl; [reflexivity|].
  intros H. apply andb_prop in H as [Hc Hb].
  rewrite (digit_is_kept c Hc). f_equal. auto.
Qed.

Lemma valid_length_spec (n : nat) :
  valid_length n = true <-> (n = 8 \/ n = 12 \/ n = 13)%nat.
Proof.
  unfold valid_length.
  rewrite !orb_true_iff, !Nat.eqb_eq. tauto.
Qed.

Lemma digits_only_spec (s : jsstring) :
  digits_only s = true <-> s <> [] /\ forallb is_digit s = true.
Proof.
  destruct s as [|c s]; simpl.
  - split; [discriminate | intros [H _]; congruence].
  - split; [intros H; split; [discriminate | exact H] | intros [_ H]; exact H].
Qed.

Lemma validateBarcode_spec (b : jsstring) :
  validateBarcode b = true <->
  valid_length (List.length (cleanBarcode b)) = true
  /\ forallb is_digit (cleanBarcode b) = true.
Proof.
  unfold validateBarcode.
  destruct (valid_length _) eqn:Hlen; simpl.
  - destruct (digits_only _) eqn:Hd; simpl.
    + apply digits_only_spec in Hd as [_ Hd]. tauto.
    + split; [discriminate|]. intros [_ Hall].
      assert (digits_only (cleanBarcode b) = true) as Hd'.
      { apply digits_only_spec. split; [|exact Hall].
        intros Hnil. rewrite Hnil in Hlen. discriminate. }
      congruence.
  - split; [discriminate | intros [H _]; discriminate].
Qed.

(** C7, as amended.  [validateBarcode] first removes white space and
    dashes; the barcode is accepted exactly when what is left has 8, 12
    or 13 characters, all of them digits.  A rejected barcode makes
    [lookupByBarcode] return the fixed invalid-format result with the
    service untouched: no request is created and no network invocation
    is logged.  A string of 8, 12 or 13 digits is accepted whatever its
    digits are (no checksum is computed). *)
Theorem C7_validation_after_cleaning (b : jsstring) :
  (validateBarcode b = true <->
     (List.length (cleanBarcode b) = 8 \/ List.length (cleanBarcode b) = 12
      \/ List.length (cleanBarcode b) = 13)%nat
     /\ Forall (fun c => is_digit c = true) (cleanBarcode b))
  /\ (forall o now s,
        validateBarcode b = false ->
        lookupByBarcode b o now s = (s, Returns invalid_format))
  /\ (Forall (fun c => is_digit c = true) b ->
      (List.length b = 8 \/ List.length b = 12 \/ List.length b = 13)%nat ->
      validateBarcode b = true).
Proof.
  split; [|split].
  - rewrite validateBarcode_spec, valid_length_spec, List.forallb_forall, List.Forall_forall.
    reflexivity.
  - intros o now s H. unfold lookupByBarcode. rewrite H. reflexivity.
  - intros Hd Hlen.
    assert (forallb is_digit b = true) as Hall.
    { apply List.forallb_forall. apply List.Forall_forall. exact Hd. }
    apply validateBarcode_spec. rewrite (clean_digits b Hall).
    split; [apply valid_length_spec; exact Hlen | exact Hall].
Qed.

(** The 5-digit string of scenario C: rejected, nothing sent. *)
Lemma C7_validation_witness :
  validateBarcode (lit "12345") = false
  /\ lookupByBarcode (lit "12345") default_options 0 init
     = (init, Returns invalid_format)
  /\ validateBarcode (lit "123456789012") = true.
Proof.
  split; [reflexivity|split].
  - apply (proj1 (proj2 (C7_validation_after_cleaning (lit "12345")))).
    reflexivity.
  - apply (proj2 (proj2 (C7_validation_after_cleaning (lit "123456789012")))).
    + repeat constructor.
    + right; left; reflexivity.
Defined.

(** C7 as stated fails: ["1234-5678"] has 9 characters, one of them not
    a digit, and is accepted; the lookup goes to the network. *)
Lemma C7_counterexample :
  List.length (lit "1234-5678") = 9%nat
  /\ forallb is_digit (lit "1234-5678") = false
  /\ validateBarcode (lit "1234-5678") = true
  /\ lookupByBarcode (lit "1234-5678") default_options 0 init
     = ({| cache := ∅;
           requestQueue := {[ lit "1234-5678" := 0%nat ]};
           inflight := [mkRequest 0 (lit "1234-5678") 2 5000 false true];
           network := [lit "1234-5678"];
           next_pid := 1 |},
        Awaits 0).
Proof.
  repeat split; reflexivity.
Qed.

End Validation.

(** ** Quality score and confidence *)

Section Quality.
Import Js FoodDb Lookup.

Lemma completeFields_le_5 (n : Nutrition) : (completeFields n <= 5)%nat.
Proof.
  unfold completeFields, nutritionFields. cbn [List.filter].
  destruct (gt (calories n) 0), (gt (carbs n) 0), (gt (fat n) 0),
    (gt (protein n) 0), (gt (fiber n) 0); simpl; lia.
Qed.

Lemma name_ok_spec (p : ProductData) :
  name_ok p = true <-> (3 < List.length (name p))%nat.
Proof.
  unfold name_ok. destruct (name p) as [|c s]; simpl.
  - split; [discriminate | lia].
  - rewrite Nat.ltb_lt. simpl. reflexivity.
Qed.

Lemma quality_by_weights (p : ProductData) :
  score (assessProductQuality p) = weighted_total p
  /\ level (assessProductQuality p) =
     (if 80 <=? weighted_total p then high
      else if 60 <=? weighted_total p then medium else low)
  /\ (forall c, confidence (enhanceProductData p c barcode_src)
      = Math_round (inject_Z (weighted_total p) * (95 # 100))%Q)
  /\ (forall c, confidence (enhanceProductData p c search_src)
      = Math_round (inject_Z (weighted_total p) * (80 # 100))%Q).
Proof.
  unfold enhanceProductData, confidence, assessProductQuality, score, level,
    raw_quality, score_verified, score_image, score_nutrition, score_brand,
    score_name, nutritionScore, weighted_total, nutritionFields.
  cbn [List.length].
  pose proof (completeFields_le_5 (nutrition p)) as Hk. revert Hk.
  generalize (completeFields (nutrition p)) (name_ok p) (truthy (brand p))
             (truthy (imageUrl p)) (verified p).
  intros [|[|[|[|[|[|k]]]]]] [] [] [] [] Hk; try lia; vm_compute; repeat split.
Qed.

Lemma score_is_weighted_total (p : ProductData) :
  score (assessProductQuality p) = weighted_total p.
Proof. apply quality_by_weights. Qed.

Lemma level_by_thresholds (p : ProductData) :
  level (assessProductQuality p) =
  if 80 <=? weighted_total p then high
  else if 60 <=? weighted_total p then medium else low.
Proof. apply quality_by_weights. Qed.

Lemma confidence_by_source (p : ProductData) (c : bool) :
  confidence (enhanceProductData p c barcode_src)
  = Math_round (inject_Z (weighted_total p) * (95 # 100))%Q
  /\ confidence (enhanceProductData p c search_src)
     = Math_round (inject_Z (weighted_total p) * (80 # 100))%Q.
Proof. split; apply quality_by_weights. Qed.

(** C5, as amended.  The score is the sum of 20 points for a name of more
    than three characters, 15 for a non-empty brand, 8 for each of the
    five nutrition fields that is greater than zero (40 times their
    fraction), 10 for a non-empty image URL and 15 for the verified flag;
    the level is high from 80, medium from 60, low below; the confidence
    is the score scaled by 0.8 (search) or 0.95 (barcode), rounded (for
    the scores 10, 30, 50, 70 and 90 the barcode value is an exact half,
    where the double arithmetic of the source decides the rounding:
    nothing is stated there).  A product with all of these scores 100,
    level high, and its confidence as a barcode result is 95. *)
Theorem C5_quality_weights (p : ProductData) :
  (name_ok p = true <-> (3 < List.length (name p))%nat)
  /\ (nutritionScore (nutrition p)
      == 40 * (inject_Z (Z.of_nat (completeFields (nutrition p))) / 5))%Q
  /\ (completeFields (nutrition p) <= 5)%nat
  /\ score (assessProductQuality p)
     = points (name_ok p) 20 + points (truthy (brand p)) 15
       + 8 * Z.of_nat (completeFields (nutrition p))
       + points (truthy (imageUrl p)) 10 + points (verified p) 15
  /\ level (assessProductQuality p)
     = (if 80 <=? score (assessProductQuality p) then high
        else if 60 <=? score (assessProductQuality p) then medium else low)
  /\ (forall c,
        (score (assessProductQuality p) mod 20 <> 10 ->
         confidence (enhanceProductData p c barcode_src)
         = Math_round (inject_Z (score (assessProductQuality p)) * (95 # 100))%Q)
        /\ confidence (enhanceProductData p c search_src)
           = Math_round (inject_Z (score (assessProductQuality p)) * (80 # 100))%Q)
  /\ ((3 < List.length (name p))%nat ->
      truthy (brand p) = true ->
      completeFields (nutrition p) = 5%nat ->
      truthy (imageUrl p) = true ->
      verified p = true ->
      score (assessProductQuality p) = 100
      /\ level (assessProductQuality p) = high
      /\ forall c, confidence (enhanceProductData p c barcode_src) = 95).
Proof.
  rewrite score_is_weighted_total.
  refine (conj _ (conj _ (conj _ (conj _ (conj _ (conj _ _)))))).
  - apply name_ok_spec.
  - unfold nutritionScore, nutritionFields. cbn [List.length].
    change (inject_Z (Z.of_nat 5)) with 5%Q. field.
  - apply completeFields_le_5.
  - reflexivity.
  - apply level_by_thresholds.
  - intros c. split; [intros _|]; apply confidence_by_source.
  - intros Hname Hbrand Hfields Himage Hverified.
    apply name_ok_spec in Hname.
    rewrite level_by_thresholds.
    assert (weighted_total p = 100) as Htotal.
    { unfold weighted_total.
      rewrite Hname, Hbrand, Hfields, Himage, Hverified. reflexivity. }
    refine (conj Htotal (conj _ _)).
    + rewrite Htotal. reflexivity.
    + intros c. rewrite (proj1 (confidence_by_source p c)), Htotal. reflexivity.
Qed.

Lemma C5_quality_witness :
  score (assessProductQuality hazelnut_spread) = 100
  /\ level (assessProductQuality hazelnut_spread) = high
  /\ forall c, confidence (enhanceProductData hazelnut_spread c barcode_src) = 95.
Proof.
  apply (proj2 (proj2 (proj2 (proj2 (proj2 (proj2
           (C5_quality_weights hazelnut_spread))))))).
  - simpl. lia.
  - reflexivity.
  - reflexivity.
  - reflexivity.
  - reflexivity.
Defined.

(** C5 as stated fails: this product has a name, a brand, five non-zero
    nutrition fields, an image and the verified flag; its name earns no
    points, so it scores 80 and its confidence is 76. *)
Lemma C5_counterexample :
  name tea <> []
  /\ truthy (brand tea) = true
  /\ Forall (fun v => ~ (v == 0)%Q) (nutritionFields (nutrition tea))
  /\ truthy (imageUrl tea) = true
  /\ verified tea = true
  /\ score (assessProductQuality tea) = 80
  /\ confidence (enhanceProductData tea false barcode_src) = 76.
Proof.
  repeat apply conj; try reflexivity; try discriminate.
  repeat constructor; intros H; discriminate H.
Qed.

(** The fixture [QUALITY_TEST_CASES.high_quality] of lib/test-data.ts
    (barcode 049000028911): three of its nutrition fields are zero. *)
Example coca_cola_fixture :
  let p := {| name := lit "Coca-Cola Classic";
              brand := Some (lit "The Coca-Cola Company");
              barcode := lit "049000028911"; source := barcode_src;
              nutrition := mkNutrition 42 (106 # 10) 0 0 0;
              imageUrl := Some (lit "https://example.com/coke.jpg");
              verified := true |} in
  score (assessProductQuality p) = 76 /\ level (assessProductQuality p) = medium.
Proof. split; reflexivity. Qed.

End Quality.

(** ** The retry loop of [performLookup] *)

Section Retry.
Import Js FoodDb Lookup.

Variables (maxRetries : nat) (timeoutMs : Z) (requireHighQuality : bool).
Variable net : nat -> Reply.

Let loop := attempts maxRetries timeoutMs requireHighQuality net.

Lemma race_duration (r : Reply) : snd (race timeoutMs r) <= timeoutMs.
Proof.
  destruct r as [after v|after msg|]; simpl.
  - destruct (Z.ltb_spec after timeoutMs); simpl; lia.
  - destruct (Z.ltb_spec after timeoutMs); simpl; lia.
  - lia.
Qed.

Lemma loop_resolved remaining attempt lastError v :
  fst (race timeoutMs (net attempt)) = Resolved v ->
  snd (loop (S remaining) attempt lastError)
  = [Attempt attempt (snd (race timeoutMs (net attempt)))]
  /\ (v = None -> fst (loop (S remaining) attempt lastError) = not_found).
Proof.
  unfold loop. simpl.
  destruct (race timeoutMs (net attempt)) as [settled elapsed]. simpl.
  intros ->. destruct v as [p|].
  - split; [|discriminate].
    destruct (requireHighQuality && _); reflexivity.
  - split; reflexivity.
Qed.

Lemma loop_rejected remaining attempt lastError message :
  fst (race timeoutMs (net attempt)) = Rejected message ->
  loop (S remaining) attempt lastError
  = (fst (loop remaining (S attempt) (Some message)),
     Attempt attempt (snd (race timeoutMs (net attempt)))
     :: (if (attempt <? maxRetries)%nat then [Backoff (pow2 attempt * 1000)] else [])
     ++ snd (loop remaining (S attempt) (Some message))).
Proof.
  unfold loop. simpl.
  destruct (race timeoutMs (net attempt)) as [settled elapsed]. simpl.
  intros ->.
  destruct (attempts maxRetries timeoutMs requireHighQuality net remaining
                     (S attempt) (Some message)) as [result events].
  reflexivity.
Qed.

Lemma race_cases (r : Reply) :
  (exists v, fst (race timeoutMs r) = Resolved v)
  \/ (exists message, fst (race timeoutMs r) = Rejected message).
Proof.
  destruct (fst (race timeoutMs r)) as [v|message]; eauto.
Qed.

Lemma invocations_cons_attempt a d events :
  invocations (Attempt a d :: events) = S (invocations events).
Proof. reflexivity. Qed.

Lemma invocations_wait (c : bool) d events :
  invocations ((if c then [Backoff d] else []) ++ events) = invocations events.
Proof. destruct c; reflexivity. Qed.

Lemma durations_wait (c : bool) d events :
  durations ((if c then [Backoff d] else []) ++ events) = durations events.
Proof. destruct c; reflexivity. Qed.

(** What a run of the loop from [attempt] does, when [remaining]
    iterations are left before [attempt <= maxRetries] fails. *)
Lemma loop_spec remaining :
  forall attempt lastError,
    (attempt + remaining = S maxRetries)%nat ->
    let result := fst (loop remaining attempt lastError) in
    let events := snd (loop remaining attempt lastError) in
    (invocations events <= remaining)%nat
    /\ Forall (fun d => d <= timeoutMs) (durations events)
    /\ backoffs events
       = map (fun k => pow2 k * 1000) (seq attempt (invocations events - 1))
    /\ (forall j, (attempt <= j)%nat -> (S j < attempt + invocations events)%nat ->
                  rejected timeoutMs net j)
    /\ (forall k, (attempt <= k)%nat -> (k < attempt + remaining)%nat ->
                  (forall j, (attempt <= j)%nat -> (j < k)%nat -> rejected timeoutMs net j) ->
                  fst (race timeoutMs (net k)) = Resolved None ->
                  result = not_found /\ invocations events = S (k - attempt))
    /\ ((forall j, (attempt <= j)%nat -> (j < attempt + remaining)%nat ->
                   rejected timeoutMs net j) ->
        invocations events = remaining
        /\ ((remaining = 0%nat /\ result = all_retries_failed lastError)
            \/ exists message,
                 fst (race timeoutMs (net maxRetries)) = Rejected message
                 /\ result = all_retries_failed (Some message))).
Proof.
  induction remaining as [|remaining IH]; intros attempt lastError Hsum.
  - cbn zeta. change (loop 0 attempt lastError) with (all_retries_failed lastError, @nil Event).
    simpl fst. simpl snd. change (invocations []) with 0%nat.
    refine (conj _ (conj _ (conj _ (conj _ (conj _ _))))).
    + lia.
    + constructor.
    + reflexivity.
    + intros j Hj Hlt. lia.
    + intros k Hk Hlt. lia.
    + intros _. split; [reflexivity | left; split; reflexivity].
  - cbn zeta.
    destruct (race_cases (net attempt)) as [[v Hv]|[message Hm]].
    + destruct (loop_resolved remaining attempt lastError v Hv) as [Hev Hres].
      rewrite Hev. simpl.
      refine (conj _ (conj _ (conj _ (conj _ (conj _ _))))).
      * unfold invocations. simpl. lia.
      * constructor; [apply race_duration | constructor].
      * reflexivity.
      * unfold invocations. simpl. intros j Hj Hlt. lia.
      * intros k Hk Hlt Hprev Hnone.
        destruct (Nat.eq_dec k attempt) as [->|Hne].
        -- assert (v = None) as Hvn by congruence.
           split; [apply Hres; exact Hvn|].
           unfold invocations. simpl. f_equal. lia.
        -- destruct (Hprev attempt) as [message Hm]; [lia|lia|]. congruence.
      * intros Hall. destruct (Hall attempt) as [message Hm]; [lia|lia|]. congruence.
    + rewrite (loop_rejected remaining attempt lastError message Hm). simpl fst. simpl snd.
      specialize (IH (S attempt) (Some message) ltac:(lia)). cbn zeta in IH.
      destruct IH as (Hinv & Hdur & Hback & Hrej & Hnf & Hex).
      rewrite invocations_cons_attempt, invocations_wait.
      refine (conj _ (conj _ (conj _ (conj _ (conj _ _))))).
      * lia.
      * change (durations (Attempt attempt (snd (race timeoutMs (net attempt))) :: ?l))
          with (snd (race timeoutMs (net attempt)) :: durations l).
        simpl durations. rewrite durations_wait.
        constructor; [apply race_duration | exact Hdur].
      * simpl backoffs.
        destruct remaining as [|remaining'].
        -- change (loop 0 (S attempt) (Some message))
             with (all_retries_failed (Some message), @nil Event).
           simpl. assert (attempt = maxRetries) as -> by lia.
           rewrite Nat.ltb_irrefl. reflexivity.
        -- assert ((attempt <? maxRetries)%nat = true) as -> by (apply Nat.ltb_lt; lia).
           simpl. rewrite Hback.
           destruct (invocations (snd (loop (S remaining') (S attempt) (Some message)))) as [|n] eqn:Hn.
           ++ exfalso.
              destruct (race_cases (net (S attempt))) as [[v Hv]|[message' Hm']].
              ** destruct (loop_resolved remaining' (S attempt) (Some message) v Hv) as [Hev _].
                 rewrite Hev in Hn. discriminate.
              ** rewrite (loop_rejected remaining' (S attempt) (Some message) message' Hm') in Hn.
                 discriminate.
           ++ simpl. rewrite Nat.sub_0_r. reflexivity.
      * intros j Hj Hlt.
        destruct (Nat.eq_dec j attempt) as [->|Hne]; [exists message; exact Hm|].
        apply Hrej; lia.
      * intros k Hk Hlt Hprev Hnone.
        destruct (Nat.eq_dec k attempt) as [->|Hne]; [congruence|].
        destruct (Hnf k) as [Hres Hcount]; [lia|lia| |exact Hnone|].
        -- intros j Hj Hjk. apply Hprev; lia.
        -- split; [exact Hres|]. rewrite Hcount. lia.
      * intros Hall.
        destruct Hex as [Hcount Hresult].
        -- intros j Hj Hlt. apply Hall; lia.
        -- split; [lia|]. right.
           destruct Hresult as [[-> Hresult]|Hresult]; [|exact Hresult].
           assert (attempt = maxRetries) as <- by lia.
           exists message. split; [exact Hm | exact Hresult].
Qed.

(** A reply that has not come when the timer fires loses the race: the
    attempt is rejected by the timeout, after [timeoutMs]. *)
Lemma race_unanswered (r : Reply) :
  unanswered timeoutMs r ->
  race timeoutMs r = (Rejected "Request timeout", timeoutMs).
Proof.
  destruct r as [after v|after message|]; simpl; intros H; [| |reflexivity];
    destruct (Z.ltb_spec after timeoutMs); [lia | reflexivity | lia | reflexivity].
Qed.

Lemma loop_unanswered remaining :
  forall attempt lastError,
    (forall j, (attempt <= j)%nat -> (j < attempt + remaining)%nat ->
               unanswered timeoutMs (net j)) ->
    durations (snd (loop remaining attempt lastError)) = repeat timeoutMs remaining
    /\ (remaining <> 0%nat ->
        fst (loop remaining attempt lastError)
        = all_retries_failed (Some "Request timeout"%string)).
Proof.
  induction remaining as [|remaining IH]; intros attempt lastError Hslow.
  - split; [reflexivity | congruence].
  - pose proof (race_unanswered (net attempt) (Hslow attempt ltac:(lia) ltac:(lia)))
      as Hrace.
    rewrite (loop_rejected remaining attempt lastError "Request timeout")
      by (rewrite Hrace; reflexivity).
    rewrite Hrace. cbn [fst snd].
    destruct (IH (S attempt) (Some "Request timeout"%string)) as [Hd Hr].
    { intros j Hj Hlt. apply Hslow; lia. }
    split.
    + change (durations (Attempt attempt timeoutMs :: ?l)) with (timeoutMs :: durations l).
      rewrite durations_wait, Hd. reflexivity.
    + intros _. destruct remaining as [|remaining']; [reflexivity|].
      apply Hr. discriminate.
Qed.

(** Seen through [lookupBarcode], an attempt is rejected only by the
    timeout: a transport or parse error is answered with [null]. *)
Lemma lookupBarcode_rejects_only_on_timeout b (network : nat -> Network) j message :
  fst (race timeoutMs (through_lookupBarcode b network j)) = Rejected message ->
  message = "Request timeout"%string
  /\ (network j = NoAnswer
      \/ exists after r, network j = Answers after r /\ timeoutMs <= after).
Proof.
  unfold through_lookupBarcode.
  destruct (network j) as [after r|]; simpl.
  - destruct (Z.ltb_spec after timeoutMs) as [Hlt|Hge]; simpl; [discriminate|].
    intros Hmsg. injection Hmsg as <-. split; [reflexivity|]. right. eauto.
  - intros Hmsg. injection Hmsg as <-. split; [reflexivity|]. left. reflexivity.
Qed.

End Retry.

Section RetryPolicy.
Import Js FoodDb Lookup.

Lemma network_failure_null (b : jsstring) (r : FetchOutcome) :
  network_failure r -> lookupBarcode b r = None.
Proof. intros [->|[->| ->]]; reflexivity. Qed.

(** C6 on the code.  [performLookup] makes at most [maxRetries + 1]
    network invocations; each is raced against the timeout and takes at
    most [timeoutMs]; the waits between invocations are 2^0, 2^1, 2^2,
    ... seconds; an invocation is followed by another one only if the
    raced promise was rejected; the first invocation that answers [null]
    ends the run with the not-found result; when all [maxRetries + 1]
    invocations are rejected the result is the failure carrying the last
    error message and the network suggestions.  The race: a reply that
    has not come when the timer fires is discarded, the attempt is
    rejected with "Request timeout" after exactly [timeoutMs]; a reply
    that comes earlier decides.  When no attempt is answered in time the
    run makes all its invocations, each [timeoutMs] long, and fails with
    "Request timeout".  Seen through [lookupBarcode], the timeout is the
    only rejection there is: a network failure that comes before the
    timeout is answered [null] and ends the run as "not found"; it is
    not retried. *)
Theorem C6_retry_policy (maxRetries : nat) (timeoutMs : Z)
        (requireHighQuality : bool) (net : nat -> Reply) :
  let result := fst (performLookup maxRetries timeoutMs requireHighQuality net) in
  let events := snd (performLookup maxRetries timeoutMs requireHighQuality net) in
  (invocations events <= maxRetries + 1)%nat
  /\ Forall (fun d => d <= timeoutMs) (durations events)
  /\ backoffs events
     = map (fun k => 2 ^ Z.of_nat k * 1000) (seq 0 (invocations events - 1))
  /\ (forall j, (S j < invocations events)%nat -> rejected timeoutMs net j)
  /\ (forall k, (k <= maxRetries)%nat ->
                (forall j, (j < k)%nat -> rejected timeoutMs net j) ->
                fst (race timeoutMs (net k)) = Resolved None ->
                result = not_found /\ invocations events = S k)
  /\ ((forall j, (j <= maxRetries)%nat -> rejected timeoutMs net j) ->
      invocations events = S maxRetries
      /\ exists message,
           fst (race timeoutMs (net maxRetries)) = Rejected message
           /\ result = all_retries_failed (Some message))
  /\ (forall r, unanswered timeoutMs r ->
                race timeoutMs r = (Rejected "Request timeout", timeoutMs))
  /\ (forall after v, after < timeoutMs ->
                      race timeoutMs (Fulfils after v) = (Resolved v, after))
  /\ (forall after message, after < timeoutMs ->
                            race timeoutMs (Rejects after message)
                            = (Rejected message, after))
  /\ ((forall j, (j <= maxRetries)%nat -> unanswered timeoutMs (net j)) ->
      result = all_retries_failed (Some "Request timeout"%string)
      /\ invocations events = S maxRetries
      /\ durations events = repeat timeoutMs (S maxRetries))
  /\ (forall (b : jsstring) (network : nat -> Network),
        let seen := through_lookupBarcode b network in
        let run := performLookup maxRetries timeoutMs requireHighQuality seen in
        (forall j, rejected timeoutMs seen j ->
                   fst (race timeoutMs (seen j)) = Rejected "Request timeout"
                   /\ (network j = NoAnswer
                       \/ exists after r, network j = Answers after r
                                          /\ timeoutMs <= after))
        /\ (forall k after r,
              (k <= maxRetries)%nat ->
              (forall j, (j < k)%nat -> rejected timeoutMs seen j) ->
              network k = Answers after r -> after < timeoutMs ->
              network_failure r ->
              fst run = not_found /\ invocations (snd run) = S k)).
Proof.
  cbn zeta. unfold performLookup.
  destruct (loop_spec maxRetries timeoutMs requireHighQuality net
                      (S maxRetries) 0%nat None eq_refl)
    as (Hinv & Hdur & Hback & Hrej & Hnf & Hex).
  refine (conj _ (conj Hdur (conj Hback (conj _ (conj _ (conj _
            (conj (race_unanswered timeoutMs) (conj _ (conj _ (conj _ _)))))))))).
  - lia.
  - intros j Hlt. apply Hrej; lia.
  - intros k Hk Hprev Hnone.
    destruct (Hnf k) as [Hres Hcount]; [lia|lia| |exact Hnone|].
    + intros j _ Hjk. apply Hprev. exact Hjk.
    + split; [exact Hres|]. rewrite Hcount. f_equal. lia.
  - intros Hall.
    destruct Hex as [Hcount Hresult].
    + intros j _ Hlt. apply Hall. lia.
    + split; [exact Hcount|].
      destruct Hresult as [[Hzero _]|Hresult]; [discriminate | exact Hresult].
  - intros after v Hlt. simpl. apply Z.ltb_lt in Hlt. rewrite Hlt. reflexivity.
  - intros after message Hlt. simpl. apply Z.ltb_lt in Hlt. rewrite Hlt. reflexivity.
  - intros Hslow.
    destruct (loop_unanswered maxRetries timeoutMs requireHighQuality net
                (S maxRetries) 0%nat None) as [Hd Hr].
    { intros j _ Hlt. apply Hslow. lia. }
    split; [apply Hr; discriminate|]. split; [|exact Hd].
    apply Hex. intros j _ Hlt. exists "Request timeout"%string.
    rewrite (race_unanswered timeoutMs (net j)); [reflexivity|]. apply Hslow. lia.
  - intros b network. split.
    + intros j [message Hm].
      destruct (lookupBarcode_rejects_only_on_timeout timeoutMs b network j message Hm)
        as [-> Hwhy].
      split; [exact Hm | exact Hwhy].
    + intros k after r Hk Hprev Hnet Hfast Hfail.
      destruct (loop_spec maxRetries timeoutMs requireHighQuality
                          (through_lookupBarcode b network)
                          (S maxRetries) 0%nat None eq_refl)
        as (_ & _ & _ & _ & Hnf' & _).
      destruct (Hnf' k) as [Hres Hcount]; [lia|lia| | |].
      * intros j _ Hjk. apply Hprev. exact Hjk.
      * unfold through_lookupBarcode. rewrite Hnet. simpl.
        apply Z.ltb_lt in Hfast. rewrite Hfast.
        rewrite (network_failure_null b r Hfail). reflexivity.
      * split; [exact Hres|]. rewrite Hcount. f_equal. lia.
Qed.

(** A database that never answers, with the default options: three
    invocations, waits of one and two seconds, the timeout failure; a
    database that answers [null] at once: one invocation, not found; and
    a device that is offline: one invocation, not found. *)
Lemma C6_retry_witness :
  (invocations (snd (performLookup 2 5000 false (fun _ => Hangs))) = 3%nat
   /\ backoffs (snd (performLookup 2 5000 false (fun _ => Hangs))) = [1000; 2000]
   /\ fst (performLookup 2 5000 false (fun _ => Hangs))
      = all_retries_failed (Some "Request timeout"%string))
  /\ (fst (performLookup 2 5000 false (fun _ => Fulfils 120 None)) = not_found
      /\ invocations (snd (performLookup 2 5000 false (fun _ => Fulfils 120 None)))
         = 1%nat)
  /\ (fst (performLookup 2 5000 false
                         (through_lookupBarcode (lit "049000028911")
                                                (fun _ => Answers 12 FetchThrows)))
      = not_found
      /\ invocations (snd (performLookup 2 5000 false
                             (through_lookupBarcode (lit "049000028911")
                                                    (fun _ => Answers 12 FetchThrows))))
         = 1%nat).
Proof.
  split; [|split].
  - destruct (C6_retry_policy 2 5000 false (fun _ => Hangs))
      as (_ & _ & _ & _ & _ & _ & _ & _ & _ & Hslow & _).
    split; [reflexivity | split; [reflexivity|]].
    apply Hslow. intros j _. exact I.
  - destruct (C6_retry_policy 2 5000 false (fun _ => Fulfils 120 None))
      as (_ & _ & _ & _ & Hnull & _).
    apply (Hnull 0%nat); [lia | intros j Hj; lia | reflexivity].
  - destruct (C6_retry_policy 2 5000 false (fun _ => Hangs))
      as (_ & _ & _ & _ & _ & _ & _ & _ & _ & _ & Hseen).
    destruct (Hseen (lit "049000028911") (fun _ => Answers 12 FetchThrows))
      as [_ Hfailure].
    apply (Hfailure 0%nat 12 FetchThrows);
      [lia | intros j Hj; lia | reflexivity | lia | left; reflexivity].
Defined.

End RetryPolicy.

(** ** Request de-duplication *)

Section Deduplication.
Import Js FoodDb Lookup Service.

Lemma getCachedProduct_keeps_requests b now s :
  requestQueue (getCachedProduct b now s).2 = requestQueue s
  /\ inflight (getCachedProduct b now s).2 = inflight s
  /\ network (getCachedProduct b now s).2 = network s
  /\ next_pid (getCachedProduct b now s).2 = next_pid s.
Proof.
  unfold getCachedProduct.
  destruct (cache s !! b) as [e|]; [|auto].
  destruct (cacheMaxAge <? now - timestamp e); auto.
Qed.

Lemma cacheProduct_keeps_requests b p now s :
  requestQueue (cacheProduct b p now s) = requestQueue s
  /\ inflight (cacheProduct b p now s) = inflight s
  /\ network (cacheProduct b p now s) = network s
  /\ next_pid (cacheProduct b p now s) = next_pid s.
Proof.
  unfold cacheProduct. simpl.
  destruct (1000 <? size _)%nat; auto.
Qed.

(** The four ways the synchronous part of [lookupByBarcode] can end. *)
Lemma lookupByBarcode_cases b o now s :
  let s' := (lookupByBarcode b o now s).1 in
  let a := (lookupByBarcode b o now s).2 in
  (requestQueue s' = requestQueue s /\ inflight s' = inflight s
   /\ network s' = network s /\ next_pid s' = next_pid s
   /\ ((exists r, a = Returns r)
       \/ (exists p, a = Awaits p /\ requestQueue s !! b = Some p)))
  \/ (validateBarcode b = true
      /\ requestQueue s !! b = None
      /\ a = Awaits (next_pid s)
      /\ requestQueue s' = <[b := next_pid s]> (requestQueue s)
      /\ inflight s'
         = inflight s ++ [mkRequest (next_pid s) b (maxRetries o) (timeoutMs o)
                                    (requireHighQuality o) (enableCache o)]
      /\ network s' = network s ++ [b]
      /\ next_pid s' = S (next_pid s)).
Proof.
  cbn zeta. unfold lookupByBarcode.
  destruct (validateBarcode b) eqn:Hvalid; simpl.
  2: { left. repeat split; eauto. }
  set (c := if enableCache o then getCachedProduct b now s else (None, s)).
  assert (requestQueue c.2 = requestQueue s /\ inflight c.2 = inflight s
          /\ network c.2 = network s /\ next_pid c.2 = next_pid s) as (Hq & Hi & Hn & Hp).
  { subst c. destruct (enableCache o); [apply getCachedProduct_keeps_requests | auto]. }
  destruct c as [[cached|] s0]; simpl in *.
  - left. repeat split; eauto.
  - destruct (requestQueue s0 !! b) as [existing|] eqn:Hexisting; simpl.
    + left. rewrite <- Hq. repeat split; eauto.
    + right. rewrite <- Hq, <- Hi, <- Hn, <- Hp. repeat split; auto.
Qed.

Lemma inflight_for_nil b s :
  queue_consistent s -> requestQueue s !! b = None -> inflight_for b s = [].
Proof.
  intros Hc Hnone. unfold inflight_for.
  destruct (List.filter _ (inflight s)) as [|r l] eqn:Hf; [reflexivity|].
  assert (In r (List.filter (fun r => bool_decide (r_barcode r = b)) (inflight s))) as Hin
      by (rewrite Hf; left; reflexivity).
  apply List.filter_In in Hin as [Hin Hb].
  apply bool_decide_eq_true in Hb. subst b.
  rewrite (Hc r Hin) in Hnone. discriminate.
Qed.

Lemma at_most_one_unique (P : Request -> bool) (l : list Request) x y :
  (List.length (List.filter P l) <= 1)%nat ->
  In x l -> In y l -> P x = true -> P y = true -> x = y.
Proof.
  induction l as [|z l IH]; simpl; [tauto|].
  intros Hlen [->|Hx] [->|Hy] Px Py; auto.
  - rewrite Px in Hlen. simpl in Hlen.
    assert (In y (List.filter P l)) as Hin by (apply List.filter_In; auto).
    destruct (List.filter P l); [destruct Hin | simpl in Hlen; lia].
  - rewrite Py in Hlen. simpl in Hlen.
    assert (In x (List.filter P l)) as Hin by (apply List.filter_In; auto).
    destruct (List.filter P l); [destruct Hin | simpl in Hlen; lia].
  - apply IH; auto. destruct (P z); simpl in Hlen; lia.
Qed.

Lemma filter_filter_length (P Q : Request -> bool) (l : list Request) :
  (List.length (List.filter P (List.filter Q l)) <= List.length (List.filter P l))%nat.
Proof.
  induction l as [|z l IH]; simpl; [lia|].
  destruct (Q z), (P z) eqn:HP; simpl; rewrite ?HP; simpl; lia.
Qed.

Lemma call_preserves b o now s :
  queue_consistent s /\ one_per_barcode s ->
  queue_consistent (lookupByBarcode b o now s).1
  /\ one_per_barcode (lookupByBarcode b o now s).1.
Proof.
  intros [Hc Ho].
  destruct (lookupByBarcode_cases b o now s)
    as [(Hq & Hi & _ & _ & _)|(_ & Hnone & _ & Hq & Hi & _ & _)].
  - split.
    + intros r. rewrite Hq, Hi. apply Hc.
    + intros b'. unfold inflight_for. rewrite Hi. apply Ho.
  - split.
    + intros r. rewrite Hq, Hi. intros Hin. apply in_app_or in Hin as [Hin|[<-|[]]].
      * rewrite lookup_insert_ne; [apply Hc; exact Hin|].
        intros ->. rewrite (Hc r Hin) in Hnone. discriminate.
      * simpl. apply lookup_insert_eq.
    + intros b'. unfold inflight_for. rewrite Hi, List.filter_app, length_app. simpl.
      destruct (bool_decide (b = b')) eqn:Hb; simpl.
      * apply bool_decide_eq_true in Hb. subst b'.
        fold (inflight_for b s). rewrite (inflight_for_nil b s Hc Hnone). simpl. lia.
      * specialize (Ho b'). unfold inflight_for in Ho. lia.
Qed.

Lemma find_request_In p s r :
  find_request p s = Some r -> In r (inflight s) /\ pid r = p.
Proof.
  unfold find_request. intros H. apply List.find_some in H as [Hin Hp].
  apply Nat.eqb_eq in Hp. auto.
Qed.

Lemma settle_preserves p net now s s' res :
  queue_consistent s /\ one_per_barcode s ->
  settle p net now s = Some (s', res) ->
  queue_consistent s' /\ one_per_barcode s'.
Proof.
  intros [Hc Ho]. unfold settle.
  destruct (find_request p s) as [r|] eqn:Hfind; [|discriminate].
  destruct (performLookup _ _ _ net) as [result events].
  apply find_request_In in Hfind as [Hr Hpid].
  set (s0 := {| cache := cache s; requestQueue := requestQueue s;
                inflight := List.filter (fun r' => negb (Nat.eqb (pid r') p)) (inflight s);
                network := network s ++ repeat (r_barcode r) (invocations events - 1);
                next_pid := next_pid s |}).
  set (s1 := match product result with
             | Some e => if success result && r_enableCache r
                         then cacheProduct (r_barcode r) e now s0 else s0
             | None => s0
             end).
  assert (requestQueue s1 = requestQueue s /\ inflight s1 = inflight s0) as [Hq Hi].
  { subst s1. destruct (product result) as [e|]; [|auto].
    destruct (success result && r_enableCache r); [|auto].
    destruct (cacheProduct_keeps_requests (r_barcode r) e now s0) as (-> & -> & _).
    auto. }
  intros H. injection H as <- <-. split.
  - intros r'. simpl. rewrite Hq, Hi. simpl. intros Hin.
    apply List.filter_In in Hin as [Hin Hne].
    apply negb_true_iff, Nat.eqb_neq in Hne.
    rewrite lookup_delete_ne; [apply Hc; exact Hin|].
    intros Heq. apply Hne. rewrite <- Hpid. f_equal.
    apply (at_most_one_unique (fun x => bool_decide (r_barcode x = r_barcode r))
                              (inflight s)); auto.
    + apply (Ho (r_barcode r)).
    + apply bool_decide_eq_true. congruence.
    + apply bool_decide_eq_true. reflexivity.
  - intros b'. unfold inflight_for. simpl. rewrite Hi. simpl.
    etransitivity; [apply filter_filter_length | apply Ho].
Qed.

Lemma reachable_invariant s :
  reachable s -> queue_consistent s /\ one_per_barcode s.
Proof.
  induction 1 as [|s s' _ IH Hstep].
  - split; [intros r [] | intros b; simpl; lia].
  - destruct Hstep as [b o now s|p net now s s' r Hsettle|s].
    + apply call_preserves. exact IH.
    + eapply settle_preserves; eauto.
    + exact IH.
Qed.

(** Two calls in a row for one barcode log at most one network invocation,
    whatever the state and the options. *)
Lemma two_calls_one_invocation b o1 o2 t1 t2 s :
  let first := lookupByBarcode b o1 t1 s in
  let second := lookupByBarcode b o2 t2 first.1 in
  network second.1 = network s \/ network second.1 = network s ++ [b].
Proof.
  cbn zeta.
  destruct (lookupByBarcode_cases b o1 t1 s)
    as [(_ & _ & Hn1 & _)|(_ & _ & _ & Hq1 & _ & Hn1 & _)];
    destruct (lookupByBarcode_cases b o2 t2 (lookupByBarcode b o1 t1 s).1)
      as [(_ & _ & Hn2 & _)|(_ & Hnone & _ & _ & _ & Hn2 & _)];
    rewrite Hn2, Hn1; auto.
  rewrite Hq1, lookup_insert_eq in Hnone. discriminate.
Qed.

Lemma reachable_pids_fresh s : reachable s -> pids_fresh s.
Proof.
  induction 1 as [|s s' _ IH Hstep]; [intros r []|].
  destruct Hstep as [b o now s|p net now s s' res Hsettle|s]; [| |exact IH].
  - destruct (lookupByBarcode_cases b o now s)
      as [(_ & Hi & _ & Hp & _)|(_ & _ & _ & _ & Hi & _ & Hp)];
      intros r; rewrite Hi, Hp.
    + apply IH.
    + intros Hin. apply in_app_or in Hin as [Hin|[<-|[]]].
      * specialize (IH r Hin). lia.
      * simpl. lia.
  - unfold settle in Hsettle.
    destruct (find_request p s) as [r|]; [|discriminate].
    destruct (performLookup _ _ _ net) as [result events].
    injection Hsettle as <- _. intros r'. simpl.
    destruct (product result) as [e|];
      [destruct (success result && r_enableCache r);
       [destruct (cacheProduct_keeps_requests (r_barcode r) e now
          {| cache := cache s; requestQueue := requestQueue s;
             inflight := List.filter (fun r' => negb (Nat.eqb (pid r') p)) (inflight s);
             network := network s ++ repeat (r_barcode r) (invocations events - 1);
             next_pid := next_pid s |}) as (_ & -> & _ & ->)|]|];
      simpl; intros Hin; apply List.filter_In in Hin as [Hin _]; apply IH; exact Hin.
Qed.

Lemma lookupByBarcode_miss b o now s :
  validateBarcode b = true ->
  cache s !! b = None ->
  lookupByBarcode b o now s
  = match requestQueue s !! b with
    | Some existingRequest => (s, Awaits existingRequest)
    | None =>
        ({| cache := cache s;
            requestQueue := <[b := next_pid s]> (requestQueue s);
            inflight :=
              inflight s ++ [mkRequest (next_pid s) b (maxRetries o) (timeoutMs o)
                                       (requireHighQuality o) (enableCache o)];
            network := network s ++ [b];
            next_pid := S (next_pid s) |},
         Awaits (next_pid s))
    end.
Proof.
  intros Hvalid Hcache. unfold lookupByBarcode, getCachedProduct.
  rewrite Hvalid, Hcache. simpl.
  destruct (enableCache o); reflexivity.
Qed.

Lemma find_last (f : Request -> bool) (l : list Request) (x : Request) :
  (forall y, In y l -> f y = false) -> f x = true ->
  List.find f (l ++ [x]) = Some x.
Proof.
  intros Hl Hx. induction l as [|y l IH]; simpl.
  - rewrite Hx. reflexivity.
  - rewrite (Hl y (or_introl eq_refl)). apply IH.
    intros z Hz. apply Hl. right. exact Hz.
Qed.

Lemma performLookup_invokes m t hq net :
  (1 <= invocations (snd (performLookup m t hq net)))%nat.
Proof.
  unfold performLookup.
  destruct (race_cases t (net 0%nat)) as [[v Hv]|[message Hm]].
  - destruct (loop_resolved m t hq net m 0%nat None v Hv) as [-> _].
    unfold invocations. simpl. lia.
  - rewrite (loop_rejected m t hq net m 0%nat None message Hm).
    simpl snd. rewrite invocations_cons_attempt. lia.
Qed.

Lemma performLookup_at_most m t hq net :
  (invocations (snd (performLookup m t hq net)) <= m + 1)%nat.
Proof.
  unfold performLookup.
  destruct (loop_spec m t hq net (S m) 0%nat None eq_refl) as (Hinv & _).
  lia.
Qed.

Lemma performLookup_answered m t hq net v :
  fst (race t (net 0%nat)) = Resolved v ->
  invocations (snd (performLookup m t hq net)) = 1%nat.
Proof.
  intros Hv. unfold performLookup.
  destruct (loop_resolved m t hq net m 0%nat None v Hv) as [-> _].
  reflexivity.
Qed.

End Deduplication.

Section DeduplicationClaim.
Import Js FoodDb Lookup Service.

(** C3, as amended.  For a valid barcode [b] that is neither cached nor
    in flight, two calls of [lookupByBarcode] made before the request
    settles create one request: both await the same promise, and the
    second call causes no network invocation.  The network invocations
    made for [b] are those of the single [performLookup] run of that
    request, one for each of its attempts: at least one, at most
    [maxRetries + 1], and exactly one when the first attempt is answered
    before the timeout; when the promise settles the queue no longer
    holds [b].  Whatever the state and the options, two calls in a row
    for one barcode never issue more than one network invocation between
    them.  In every state the service can reach there is at most one
    request in flight per barcode. *)
Theorem C3_deduplication :
  (forall s b o1 o2 t1 t2,
      reachable s ->
      validateBarcode b = true ->
      cache s !! b = None ->
      requestQueue s !! b = None ->
      let first := lookupByBarcode b o1 t1 s in
      let second := lookupByBarcode b o2 t2 first.1 in
      first.2 = Awaits (next_pid s)
      /\ second.2 = Awaits (next_pid s)
      /\ network second.1 = network s ++ [b]
      /\ List.length (inflight_for b second.1) = 1%nat
      /\ forall net now,
           let run := performLookup (maxRetries o1) (timeoutMs o1)
                                    (requireHighQuality o1) net in
           (1 <= invocations (snd run) <= maxRetries o1 + 1)%nat
           /\ (forall v, fst (race (timeoutMs o1) (net 0%nat)) = Resolved v ->
                         invocations (snd run) = 1%nat)
           /\ exists s',
                settle (next_pid s) net now second.1 = Some (s', fst run)
                /\ network s' = network s ++ repeat b (invocations (snd run))
                /\ requestQueue s' !! b = None)
  /\ (forall s b o1 o2 t1 t2,
        let first := lookupByBarcode b o1 t1 s in
        let second := lookupByBarcode b o2 t2 first.1 in
        network second.1 = network s \/ network second.1 = network s ++ [b])
  /\ (forall s, reachable s ->
      forall b, (List.length (inflight_for b s) <= 1)%nat).
Proof.
  split; [|split; [intros s b o1 o2 t1 t2; apply two_calls_one_invocation|]].
  - intros s b o1 o2 t1 t2 Hreach Hvalid Hcache Hqueue. cbn zeta.
    rewrite (lookupByBarcode_miss b o1 t1 s Hvalid Hcache), Hqueue. simpl.
    set (req := mkRequest (next_pid s) b (maxRetries o1) (timeoutMs o1)
                          (requireHighQuality o1) (enableCache o1)).
    set (s1 := {| cache := cache s;
                  requestQueue := <[b := next_pid s]> (requestQueue s);
                  inflight := inflight s ++ [req];
                  network := network s ++ [b];
                  next_pid := S (next_pid s) |}).
    rewrite (lookupByBarcode_miss b o2 t2 s1 Hvalid Hcache).
    change (requestQueue s1) with (<[b := next_pid s]> (requestQueue s)).
    rewrite lookup_insert_eq. simpl.
    destruct (reachable_invariant s Hreach) as [Hc Ho].
    refine (conj eq_refl (conj eq_refl (conj eq_refl (conj _ _)))).
    + unfold inflight_for. simpl. rewrite List.filter_app, length_app.
      fold (inflight_for b s). rewrite (inflight_for_nil b s Hc Hqueue).
      simpl. rewrite bool_decide_eq_true_2; reflexivity.
    + intros net now. unfold settle, find_request.
      change (inflight s1) with (inflight s ++ [req]).
      rewrite (find_last (fun r => Nat.eqb (pid r) (next_pid s)) (inflight s) req).
      2: { intros y Hy. apply Nat.eqb_neq.
           pose proof (reachable_pids_fresh s Hreach y Hy). lia. }
      2: { simpl. apply Nat.eqb_refl. }
      change (r_maxRetries req) with (maxRetries o1).
      change (r_timeoutMs req) with (timeoutMs o1).
      change (r_requireHighQuality req) with (requireHighQuality o1).
      pose proof (performLookup_invokes (maxRetries o1) (timeoutMs o1)
                                        (requireHighQuality o1) net) as Hone.
      pose proof (performLookup_at_most (maxRetries o1) (timeoutMs o1)
                                        (requireHighQuality o1) net) as Hmost.
      pose proof (performLookup_answered (maxRetries o1) (timeoutMs o1)
                                         (requireHighQuality o1) net) as Hfirst.
      destruct (performLookup (maxRetries o1) (timeoutMs o1)
                              (requireHighQuality o1) net) as [result events].
      simpl in Hone, Hmost, Hfirst. simpl fst. simpl snd.
      split; [lia|]. split; [exact Hfirst|].
      eexists. split; [reflexivity|]. simpl. split.
      * assert (network s ++ repeat b (invocations events)
                = (network s ++ [b]) ++ repeat b (invocations events - 1)) as ->.
        { destruct (invocations events) as [|n]; [lia|].
          simpl. rewrite Nat.sub_0_r, <- app_assoc. reflexivity. }
        destruct (product result) as [e|]; [|reflexivity].
        destruct (success result && enableCache o1); [|reflexivity].
        apply cacheProduct_keeps_requests.
      * apply lookup_delete_eq.
  - intros s Hreach. apply (reachable_invariant s Hreach).
Qed.

(** Two default lookups of the same barcode on a fresh service. *)
Lemma C3_deduplication_witness :
  let first := lookupByBarcode (lit "049000028911") default_options 0 init in
  let second := lookupByBarcode (lit "049000028911") default_options 7 first.1 in
  first.2 = Awaits 0 /\ second.2 = Awaits 0
  /\ network second.1 = [lit "049000028911"]
  /\ List.length (inflight_for (lit "049000028911") second.1) = 1%nat.
Proof.
  destruct (proj1 C3_deduplication init (lit "049000028911")
                  default_options default_options 0 7
                  reach_init eq_refl eq_refl eq_refl)
    as (H1 & H2 & H3 & H4 & _).
  exact (conj H1 (conj H2 (conj H3 H4))).
Defined.

(** C3 as stated fails: two default lookups of the spread are made
    before either resolves and share one promise; the database does not
    answer the first request within the five seconds of the timeout and
    answers the second, made after the wait of one second.  Both callers
    receive the product, and two network invocations have been made. *)
Lemma C3_counterexample :
  let first := lookupByBarcode spread_barcode default_options 0 init in
  let second := lookupByBarcode spread_barcode default_options 7 first.1 in
  first.2 = Awaits 0 /\ second.2 = Awaits 0
  /\ network second.1 = [spread_barcode]
  /\ exists s',
       settle 0 late_then_found 6200 second.1
       = Some (s', found (enhanceProductData hazelnut_spread false barcode_src))
       /\ inflight s' = []
       /\ network s' = [spread_barcode; spread_barcode].
Proof.
  cbn zeta. split; [reflexivity|]. split; [reflexivity|]. split; [reflexivity|].
  eexists. split; [vm_compute; reflexivity|]. split; reflexivity.
Qed.

End DeduplicationClaim.

(** ** The product cache *)

Section Cache.
Import Js FoodDb Lookup Service.

Lemma attempts_success m t hq net remaining :
  forall attempt lastError,
    success (fst (attempts m t hq net remaining attempt lastError)) = true ->
    exists e, fst (attempts m t hq net remaining attempt lastError) = found e.
Proof.
  induction remaining as [|remaining IH]; intros attempt lastError; simpl.
  - discriminate.
  - destruct (race t (net attempt)) as [[[p|]|message] elapsed]; simpl.
    + destruct (hq && _); simpl; [discriminate | eauto].
    + discriminate.
    + specialize (IH (S attempt) (Some message)).
      destruct (attempts m t hq net remaining (S attempt) (Some message))
        as [result events].
      exact IH.
Qed.

Lemma cacheProduct_lookup b p now s :
  cache (cacheProduct b p now s) !! b = Some (mkEntry p now).
Proof.
  unfold cacheProduct. simpl.
  destruct (1000 <? size _)%nat; simpl.
  - apply map_lookup_filter_Some_2; [apply lookup_insert_eq|].
    simpl. unfold cacheMaxAge. lia.
  - apply lookup_insert_eq.
Qed.

Lemma lookupByBarcode_hit b o now s e :
  validateBarcode b = true ->
  enableCache o = true ->
  cache s !! b = Some e ->
  now - timestamp e <= cacheMaxAge ->
  lookupByBarcode b o now s = (s, Returns (found (set_cached true (entry_product e)))).
Proof.
  intros Hvalid Hcache He Hage. unfold lookupByBarcode, getCachedProduct.
  rewrite Hvalid, Hcache, He. simpl.
  assert ((cacheMaxAge <? now - timestamp e) = false) as -> by (apply Z.ltb_ge; lia).
  reflexivity.
Qed.

Lemma getCachedProduct_expired b now s e :
  cache s !! b = Some e ->
  cacheMaxAge < now - timestamp e ->
  getCachedProduct b now s = (None, with_cache (delete b (cache s)) s).
Proof.
  intros He Hage. unfold getCachedProduct. rewrite He.
  assert ((cacheMaxAge <? now - timestamp e) = true) as -> by (apply Z.ltb_lt; lia).
  reflexivity.
Qed.

Lemma lookupByBarcode_expired b o now s e :
  validateBarcode b = true ->
  enableCache o = true ->
  cache s !! b = Some e ->
  cacheMaxAge < now - timestamp e ->
  lookupByBarcode b o now s
  = match requestQueue s !! b with
    | Some existingRequest =>
        (with_cache (delete b (cache s)) s, Awaits existingRequest)
    | None =>
        ({| cache := delete b (cache s);
            requestQueue := <[b := next_pid s]> (requestQueue s);
            inflight :=
              inflight s ++ [mkRequest (next_pid s) b (maxRetries o) (timeoutMs o)
                                       (requireHighQuality o) (enableCache o)];
            network := network s ++ [b];
            next_pid := S (next_pid s) |},
         Awaits (next_pid s))
    end.
Proof.
  intros Hvalid Hcache He Hold. unfold lookupByBarcode.
  rewrite Hvalid, Hcache. simpl.
  rewrite (getCachedProduct_expired b now s e He Hold). simpl.
  destruct (requestQueue s !! b); reflexivity.
Qed.

(** C4, as amended.  When a lookup of [b] made with caching enabled, with
    no other request for [b] in flight, has returned a product, the
    cache holds that product for [b] (stored when the lookup resumed,
    unless the lookup was itself a cache hit), and a lookup with caching
    enabled made while the entry is at most [cacheMaxAge] old returns the
    same product with [cached = true] and leaves the service as it is: no
    request, no network invocation.  An entry older than [cacheMaxAge] is
    never returned: [getCachedProduct] answers [null] and deletes it, and
    the lookup goes on to the network. *)
Theorem C4_cache_hit_within_max_age :
  (forall s b o1 o2 called net resumed s1 r1,
      reachable s ->
      enableCache o1 = true ->
      enableCache o2 = true ->
      requestQueue s !! b = None ->
      lookup_to_completion b o1 called net resumed s = Some (s1, r1) ->
      success r1 = true ->
      exists p e,
        product r1 = Some p
        /\ cache s1 !! b = Some e
        /\ set_cached true (entry_product e) = set_cached true p
        /\ (cache s !! b = Some e \/ timestamp e = resumed)
        /\ forall t2,
             t2 - timestamp e <= cacheMaxAge ->
             lookupByBarcode b o2 t2 s1 = (s1, Returns (found (set_cached true p))))
  /\ (forall s b e now,
        cache s !! b = Some e ->
        cacheMaxAge < now - timestamp e ->
        getCachedProduct b now s = (None, with_cache (delete b (cache s)) s)
        /\ forall o,
             validateBarcode b = true ->
             enableCache o = true ->
             cache (lookupByBarcode b o now s).1 !! b = None
             /\ exists p, (lookupByBarcode b o now s).2 = Awaits p).
Proof.
  split.
  - intros s b o1 o2 called net resumed s1 r1 Hreach Ho1 Ho2 Hqueue Hrun Hok.
    unfold lookup_to_completion in Hrun.
    destruct (validateBarcode b) eqn:Hvalid.
    2: { unfold lookupByBarcode in Hrun. rewrite Hvalid in Hrun. simpl in Hrun.
         injection Hrun as <- <-. discriminate. }
    destruct (cache s !! b) as [e0|] eqn:He0.
    + destruct (Z.le_gt_cases (called - timestamp e0) cacheMaxAge) as [Hfresh|Hold].
      * rewrite (lookupByBarcode_hit b o1 called s e0 Hvalid Ho1 He0 Hfresh) in Hrun.
        injection Hrun as <- <-.
        exists (set_cached true (entry_product e0)), e0.
        refine (conj eq_refl (conj He0 (conj eq_refl (conj (or_introl eq_refl) _)))).
        intros t2 Ht2. apply lookupByBarcode_hit; assumption.
      * revert Hrun.
        rewrite (lookupByBarcode_expired b o1 called s e0 Hvalid Ho1 He0 Hold), Hqueue.
        set (req := mkRequest (next_pid s) b (maxRetries o1) (timeoutMs o1)
                              (requireHighQuality o1) (enableCache o1)).
        unfold settle, find_request. simpl inflight.
        rewrite (find_last (fun r => Nat.eqb (pid r) (next_pid s)) (inflight s) req).
        2: { intros y Hy. apply Nat.eqb_neq.
             pose proof (reachable_pids_fresh s Hreach y Hy). lia. }
        2: { simpl. apply Nat.eqb_refl. }
        simpl r_maxRetries. simpl r_timeoutMs. simpl r_requireHighQuality.
        simpl r_enableCache. rewrite Ho1.
        unfold performLookup.
        pose proof (attempts_success (maxRetries o1) (timeoutMs o1)
                      (requireHighQuality o1) net (S (maxRetries o1)) 0%nat None) as Hfound.
        destruct (attempts (maxRetries o1) (timeoutMs o1) (requireHighQuality o1)
                           net (S (maxRetries o1)) 0%nat None) as [result events].
        intros Hrun. injection Hrun as <- <-.
        destruct (Hfound Hok) as [p Hp]. simpl in Hp. subst result.
        cbn [product success found andb fst snd].
        exists p, (mkEntry p resumed).
        split; [reflexivity|]. split; [apply cacheProduct_lookup|].
        split; [reflexivity|]. split; [right; reflexivity|].
        intros t2 Ht2.
        apply (lookupByBarcode_hit b o2 t2 _ (mkEntry p resumed)); auto.
        apply cacheProduct_lookup.
    + revert Hrun. rewrite (lookupByBarcode_miss b o1 called s Hvalid He0), Hqueue.
      set (req := mkRequest (next_pid s) b (maxRetries o1) (timeoutMs o1)
                            (requireHighQuality o1) (enableCache o1)).
      unfold settle, find_request. simpl inflight.
      rewrite (find_last (fun r => Nat.eqb (pid r) (next_pid s)) (inflight s) req).
      2: { intros y Hy. apply Nat.eqb_neq.
           pose proof (reachable_pids_fresh s Hreach y Hy). lia. }
      2: { simpl. apply Nat.eqb_refl. }
      simpl r_maxRetries. simpl r_timeoutMs. simpl r_requireHighQuality.
      simpl r_enableCache. rewrite Ho1.
      unfold performLookup.
      pose proof (attempts_success (maxRetries o1) (timeoutMs o1)
                    (requireHighQuality o1) net (S (maxRetries o1)) 0%nat None) as Hfound.
      destruct (attempts (maxRetries o1) (timeoutMs o1) (requireHighQuality o1)
                         net (S (maxRetries o1)) 0%nat None) as [result events].
      intros Hrun. injection Hrun as <- <-.
      destruct (Hfound Hok) as [p Hp]. simpl in Hp. subst result.
        cbn [product success found andb fst snd].
      exists p, (mkEntry p resumed).
      split; [reflexivity|]. split; [apply cacheProduct_lookup|].
      split; [reflexivity|]. split; [right; reflexivity|].
      intros t2 Ht2.
      apply (lookupByBarcode_hit b o2 t2 _ (mkEntry p resumed)); auto.
      apply cacheProduct_lookup.
  - intros s b e now He Hold.
    split; [apply (getCachedProduct_expired b now s e); assumption|].
    intros o Hvalid Ho.
    rewrite (lookupByBarcode_expired b o now s e Hvalid Ho He Hold).
    destruct (requestQueue s !! b); simpl; (split; [apply lookup_delete_eq | eauto]).
Qed.

(** A default lookup of the spread on a fresh service, answered after
    150 ms, and a second one exactly 24 hours after the first resumed. *)
Lemma C4_cache_witness :
  exists s1 r1 p,
    lookup_to_completion spread_barcode default_options 0 spread_found 150 init
    = Some (s1, r1)
    /\ product r1 = Some p
    /\ lookupByBarcode spread_barcode default_options (150 + cacheMaxAge) s1
       = (s1, Returns (found (set_cached true p))).
Proof.
  destruct (lookup_to_completion spread_barcode default_options 0 spread_found 150 init)
    as [[s1 r1]|] eqn:Hrun; [|vm_compute in Hrun; discriminate].
  assert (success r1 = true) as Hok.
  { pose proof (f_equal (fun x : option (State * LookupResult) =>
                           match x with Some (_, r) => success r | None => false end)
                        Hrun) as Hs.
    simpl in Hs. rewrite <- Hs. vm_compute. reflexivity. }
  destruct (proj1 C4_cache_hit_within_max_age init spread_barcode
                  default_options default_options 0 spread_found 150 s1 r1
                  reach_init eq_refl eq_refl eq_refl Hrun Hok)
    as (p & e & Hp & He & _ & [Hinit|Hstored] & Hhit).
  - vm_compute in Hinit. discriminate.
  - exists s1, r1, p. split; [reflexivity|]. split; [exact Hp|].
    apply Hhit. rewrite Hstored. lia.
Defined.

(** C4 as stated fails: a successful lookup made with caching disabled
    stores nothing, so the lookup with caching enabled that follows it at
    once is not served from the cache; it creates a request and goes to
    the network a second time. *)
Lemma C4_counterexample :
  exists s1 r1,
    lookup_to_completion spread_barcode without_cache 0 spread_found 150 init
    = Some (s1, r1)
    /\ success r1 = true
    /\ enableCache default_options = true
    /\ cache s1 !! spread_barcode = None
    /\ (lookupByBarcode spread_barcode default_options 150 s1).2 = Awaits 1
    /\ network (lookupByBarcode spread_barcode default_options 150 s1).1
       = [spread_barcode; spread_barcode].
Proof.
  eexists _, _. split; [reflexivity|].
  repeat split; vm_compute; reflexivity.
Qed.

End Cache.

(** ** The resource manager *)

Section ResourceManager.
Import Js Resources.

Lemma cleanupResource_eq (resourceId : string) (s : State) :
  cleanupResource resourceId s
  = match mget resourceId (resources s) with
    | None => (Returned false, s)
    | Some r =>
        match cleanup r tt with
        | (Normal, es) =>
            (Returned true,
             {| resources := mdelete resourceId (resources s);
                isCleanupScheduled := isCleanupScheduled s;
                effects := effects s ++ es |})
        | (Throws, es) =>
            (Returned false,
             {| resources := resources s;
                isCleanupScheduled := isCleanupScheduled s;
                effects := (effects s ++ es)
                             ++ [LoggedError ("Failed to cleanup resource " ++ resourceId)] |})
        end
    end.
Proof.
  unfold cleanupResource, try_catch, bind, invoke, set_resources, logError, emit, ret.
  destruct (mget resourceId (resources s)) as [r|]; [|reflexivity].
  destruct (cleanup r tt) as [[|] es]; reflexivity.
Qed.

Lemma cleanupResource_returns (resourceId : string) (s : State) :
  exists b s', cleanupResource resourceId s = (Returned b, s').
Proof.
  rewrite cleanupResource_eq.
  destruct (mget resourceId (resources s)) as [r|]; [|eauto].
  destruct (cleanup r tt) as [[|] es]; eauto.
Qed.

Lemma mget_In {V} (k : string) (m : Map V) (v : V) :
  mget k m = Some v -> In (k, v) m.
Proof.
  induction m as [|[k' v'] m IH]; simpl; [discriminate|].
  destruct (String.eqb_spec k k') as [->|Hne].
  - intros H. injection H as ->. left. reflexivity.
  - intros H. right. apply IH. exact H.
Qed.

Lemma mget_mdelete {V} (k : string) (m : Map V) : mget k (mdelete k m) = None.
Proof.
  induction m as [|[k' v'] m IH]; simpl; [reflexivity|].
  destruct (String.eqb k k') eqn:Hk; [exact IH|].
  simpl. rewrite Hk. exact IH.
Qed.

Lemma In_mdelete {V} (k : string) (m : Map V) (x : string * V) :
  In x (mdelete k m) -> In x m.
Proof.
  induction m as [|[k' v'] m IH]; simpl; [tauto|].
  destruct (String.eqb k k'); simpl; tauto.
Qed.

Lemma In_mset {V} (k : string) (v : V) (m : Map V) (x : string * V) :
  In x (mset k v m) -> x = (k, v) \/ In x m.
Proof.
  induction m as [|[k' v'] m IH]; simpl; [intros [<-|[]]; auto|].
  destruct (String.eqb k k'); simpl; intros [<-|H]; auto.
  destruct (IH H); auto.
Qed.

Lemma mkeys_mdelete {V} (k : string) (m : Map V) :
  mkeys (mdelete k m) = List.filter (fun k' => negb (String.eqb k k')) (mkeys m).
Proof.
  induction m as [|[k' v'] m IH]; simpl; [reflexivity|].
  destruct (String.eqb k k'); simpl; [exact IH | f_equal; exact IH].
Qed.

Lemma mdelete_absent {V} (k : string) (m : Map V) :
  mget k m = None -> mdelete k m = m.
Proof.
  induction m as [|[k' v'] m IH]; simpl; [reflexivity|].
  destruct (String.eqb k k'); [discriminate|].
  intros H. f_equal. apply IH. exact H.
Qed.

(** Deleting the keys [ids] one after the other. *)
Lemma delete_all_keys {V} (ids : list string) :
  forall m : Map V,
    (forall k, In k (mkeys m) -> In k ids) ->
    fold_left (fun m i => mdelete i m) ids m = [].
Proof.
  induction ids as [|i ids IH]; intros m Hsub; simpl.
  - destruct m as [|[k v] m]; [reflexivity|].
    destruct (Hsub k (or_introl eq_refl)).
  - apply IH. intros k Hk. rewrite mkeys_mdelete in Hk.
    apply List.filter_In in Hk as [Hk Hne].
    destruct (Hsub k Hk) as [<-|Hin]; [|exact Hin].
    rewrite String.eqb_refl in Hne. discriminate.
Qed.

Lemma guarded_cleanupResource (resourceId : string) (s : State) :
  guarded_state s ->
  cleanupResource resourceId s
  = (Returned (match mget resourceId (resources s) with Some _ => true | None => false end),
     {| resources := mdelete resourceId (resources s);
        isCleanupScheduled := isCleanupScheduled s;
        effects := effects s
                   ++ match mget resourceId (resources s) with
                      | Some r => snd (cleanup r tt)
                      | None => []
                      end |}).
Proof.
  intros Hg. rewrite cleanupResource_eq.
  destruct (mget resourceId (resources s)) as [r|] eqn:Hget.
  - pose proof (Hg resourceId r (mget_In _ _ _ Hget)) as Hnormal.
    destruct (cleanup r tt) as [[|] es]; [reflexivity | discriminate].
  - rewrite (mdelete_absent _ _ Hget), app_nil_r. destruct s; reflexivity.
Qed.

Lemma guarded_after_delete (resourceId : string) (s : State) es :
  guarded_state s ->
  guarded_state {| resources := mdelete resourceId (resources s);
                   isCleanupScheduled := isCleanupScheduled s;
                   effects := es |}.
Proof.
  intros Hg k r Hin. apply (Hg k r). apply (In_mdelete resourceId). exact Hin.
Qed.

Lemma for_each_cleanup (ids : list string) :
  forall s,
    guarded_state s ->
    exists s',
      for_each ids (fun i _ => bind (cleanupResource i) (fun _ => ret tt)) s
      = (Returned tt, s')
      /\ guarded_state s'
      /\ resources s' = fold_left (fun m i => mdelete i m) ids (resources s)
      /\ isCleanupScheduled s' = isCleanupScheduled s.
Proof.
  induction ids as [|i ids IH]; intros s Hg; simpl.
  - exists s. auto.
  - destruct (mget i (resources s)) as [r|] eqn:Hget.
    + unfold bind at 1. unfold bind at 1.
      rewrite (guarded_cleanupResource i s Hg). unfold ret at 1.
      destruct (IH _ (guarded_after_delete i s
                        (effects s ++ match mget i (resources s) with
                                      | Some r0 => snd (cleanup r0 tt)
                                      | None => []
                                      end) Hg)) as (s' & Hrun & Hg' & Hres & Hsched).
      exists s'. auto.
    + destruct (IH s Hg) as (s' & Hrun & Hg' & Hres & Hsched).
      exists s'. rewrite (mdelete_absent _ _ Hget). auto.
Qed.

Lemma cleanupAll_guarded (s : State) :
  guarded_state s ->
  exists s',
    cleanupAll s = (Returned (msize (resources s)), s')
    /\ resources s' = []
    /\ guarded_state s'
    /\ isCleanupScheduled s' = isCleanupScheduled s.
Proof.
  intros Hg. unfold cleanupAll.
  destruct (for_each_cleanup (mkeys (resources s)) s Hg)
    as (s' & Hrun & Hg' & Hres & Hsched).
  exists s'. unfold bind at 1. rewrite Hrun. unfold ret.
  split; [reflexivity|]. split; [|auto].
  rewrite Hres. apply delete_all_keys. auto.
Qed.

Lemma count_cleaned_guarded (ids : list string) (t : ResourceType) :
  forall n s,
    guarded_state s ->
    exists m s',
      count_cleaned ids t n s = (Returned m, s') /\ guarded_state s'.
Proof.
  induction ids as [|i ids IH]; intros n s Hg; simpl.
  - exists n, s. auto.
  - destruct (mget i (resources s)) as [r|]; [|apply IH; exact Hg].
    destruct (type_eqb (type r) t); [|apply IH; exact Hg].
    unfold bind. rewrite (guarded_cleanupResource i s Hg).
    apply IH. apply guarded_after_delete. exact Hg.
Qed.

Lemma guarded_register (s : State) k r :
  guarded_state s ->
  fst (cleanup r tt) = Normal ->
  forall sched es,
    guarded_state {| resources := mset k r (resources s);
                     isCleanupScheduled := sched; effects := es |}.
Proof.
  intros Hg Hr sched es k' r' Hin. simpl in Hin.
  apply In_mset in Hin as [Heq|Hin]; [|apply (Hg k' r' Hin)].
  injection Heq as _ ->. exact Hr.
Qed.

Lemma guarded_closure release done context :
  fst (guarded release done context tt) = Normal.
Proof. destruct release; reflexivity. Qed.

Lemma exec_guarded (o : Op) (s : State) :
  guarded_state s -> guarded_state (exec o s).
Proof.
  intros Hg. destruct o as [stream i g|sc i g|t i g|i|t|]; simpl.
  - apply guarded_register; [exact Hg | apply guarded_closure].
  - apply guarded_register; [exact Hg|].
    simpl. unfold scanner_closure.
    destruct (has_reset sc); [apply guarded_closure | reflexivity].
  - apply guarded_register; [exact Hg | apply guarded_closure].
  - rewrite (guarded_cleanupResource i s Hg). simpl.
    apply guarded_after_delete. exact Hg.
  - unfold cleanupByType.
    destruct (count_cleaned_guarded (mkeys (resources s)) t 0 s Hg)
      as (m & s' & -> & Hg'). exact Hg'.
  - destruct (cleanupAll_guarded s Hg) as (s' & -> & _ & Hg' & _). exact Hg'.
Qed.

Lemma after_guarded (history : list Op) : guarded_state (after history).
Proof.
  unfold after.
  assert (forall s, guarded_state s ->
                    guarded_state (fold_left (fun s o => exec o s) history s)) as H.
  { induction history as [|o history IH]; intros s Hg; simpl; [exact Hg|].
    apply IH. apply exec_guarded. exact Hg. }
  apply H. intros k r [].
Qed.

Lemma mget_mset {V} (k : string) (v : V) (m : Map V) :
  mget k (mset k v m) = Some v.
Proof.
  induction m as [|[k' v'] m IH]; simpl.
  - rewrite String.eqb_refl. reflexivity.
  - destruct (String.eqb k k') eqn:Hk; simpl.
    + rewrite String.eqb_refl. reflexivity.
    + rewrite Hk. exact IH.
Qed.

(** The [catch] block of [cleanup] itself is reached only by a closure
    that throws; none of the three [register...] methods stores one.  For
    such a closure the entry would stay and the answer would be [false]. *)
Remark cleanupResource_of_throwing_closure (resourceId : string) (s : State) r :
  mget resourceId (resources s) = Some r ->
  fst (cleanup r tt) = Throws ->
  fst (cleanupResource resourceId s) = Returned false
  /\ resources (snd (cleanupResource resourceId s)) = resources s.
Proof.
  intros Hget Hthrows. rewrite cleanupResource_eq, Hget.
  destruct (cleanup r tt) as [[|] es]; [discriminate | split; reflexivity].
Qed.

End ResourceManager.

Section ResourceManagerClaim.
Import Js Resources.

(** C8.  [cleanup] (release) never throws.  On an id that is not
    registered it returns [false] and changes nothing.  After any history
    of operations, releasing an id returns whether it was registered,
    removes the entry, and a second release of the same id returns
    [false].  When the platform call that releases a registered stream
    throws, the failure is caught and logged, the release still returns
    [true] and the entry is removed.  [cleanupAll] returns the number of
    resources it found and empties the registry; a second [cleanupAll]
    returns 0 and changes nothing. *)
Theorem C8_release_is_safe :
  (forall s resourceId,
      exists b s', cleanupResource resourceId s = (Returned b, s'))
  /\ (forall s resourceId,
        mget resourceId (resources s) = None ->
        cleanupResource resourceId s = (Returned false, s))
  /\ (forall history resourceId,
        exists s',
          cleanupResource resourceId (after history)
          = (Returned (match mget resourceId (resources (after history)) with
                       | Some _ => true
                       | None => false
                       end), s')
          /\ mget resourceId (resources s') = None
          /\ cleanupResource resourceId s' = (Returned false, s'))
  /\ (forall history stream id generated,
        stop_tracks stream = Throws ->
        let resourceId := choose_id id generated in
        let s := snd (registerMediaStream stream id generated (after history)) in
        exists s',
          cleanupResource resourceId s = (Returned true, s')
          /\ mget resourceId (resources s') = None
          /\ effects s'
             = effects s ++ [LoggedError ("Cleanup MediaStream " ++ resourceId)])
  /\ (forall history,
        exists s1,
          cleanupAll (after history)
          = (Returned (msize (resources (after history))), s1)
          /\ resources s1 = []
          /\ cleanupAll s1 = (Returned 0%nat, s1)).
Proof.
  refine (conj (fun s i => cleanupResource_returns i s) (conj _ (conj _ (conj _ _)))).
  - intros s resourceId Hget. rewrite cleanupResource_eq, Hget. reflexivity.
  - intros history resourceId.
    rewrite (guarded_cleanupResource resourceId _ (after_guarded history)).
    eexists. split; [reflexivity|]. simpl. split; [apply mget_mdelete|].
    rewrite cleanupResource_eq. simpl. rewrite mget_mdelete. reflexivity.
  - intros history stream i generated Hthrows. cbn zeta.
    set (s0 := after history).
    rewrite cleanupResource_eq. simpl.
    rewrite mget_mset. simpl. unfold stream_closure, guarded. rewrite Hthrows.
    eexists. split; [reflexivity|]. simpl. split; [apply mget_mdelete | reflexivity].
  - intros history.
    destruct (cleanupAll_guarded (after history) (after_guarded history))
      as (s1 & Hrun & Hres & _ & _).
    exists s1. split; [exact Hrun|]. split; [exact Hres|].
    unfold cleanupAll. rewrite Hres. reflexivity.
Qed.

(** A registry holding a stream whose tracks cannot be stopped, a scanner
    and a timer: releasing the stream succeeds, releasing it again or
    releasing an unknown id answers [false], and two [cleanupAll] report 3
    and then 0. *)
Lemma C8_release_witness :
  (exists s',
      cleanupResource "primary_camera" (after sample_history) = (Returned true, s')
      /\ mget "primary_camera" (resources s') = None
      /\ cleanupResource "primary_camera" s' = (Returned false, s'))
  /\ cleanupResource "no_such_resource" (after sample_history)
     = (Returned false, after sample_history)
  /\ (exists s1,
        cleanupAll (after sample_history) = (Returned 3%nat, s1)
        /\ resources s1 = []
        /\ cleanupAll s1 = (Returned 0%nat, s1)).
Proof.
  split; [|split].
  - exact (proj1 (proj2 (proj2 C8_release_is_safe)) sample_history "primary_camera"%string).
  - exact (proj1 (proj2 C8_release_is_safe) (after sample_history)
                 "no_such_resource"%string eq_refl).
  - exact (proj2 (proj2 (proj2 (proj2 C8_release_is_safe))) sample_history).
Defined.

End ResourceManagerClaim.

(** ** The camera service *)

Section CameraService.
Import Js Resources Camera.

Lemma stopCamera_one_stream (w : World) :
  guarded_state (manager w) -> one_stream w ->
  exists w0,
    stopCamera w = Some w0
    /\ activeStreamId w0 = None
    /\ resources (manager w0) = []
    /\ guarded_state (manager w0)
    /\ requested w0 = requested w.
Proof.
  intros Hg [Hid Hone]. unfold stopCamera.
  destruct (activeStreamId w) as [[|c rest]|] eqn:Hactive.
  - congruence.
  - rewrite (guarded_cleanupResource (String c rest) (manager w) Hg).
    eexists. split; [reflexivity|]. cbn [activeStreamId manager requested resources].
    split; [reflexivity|]. split; [|split; [|reflexivity]].
    + destruct Hone as [->|(k & r & -> & Hk)]; [reflexivity|].
      injection Hk as <-. cbn [mdelete]. rewrite String.eqb_refl. reflexivity.
    + intros k r Hin. cbn [resources] in Hin. apply (Hg k r). apply (In_mdelete (String c rest)). exact Hin.
  - exists w. split; [reflexivity|]. split; [exact Hactive|].
    split; [|split; [exact Hg | reflexivity]].
    destruct Hone as [Hempty|(k & r & _ & Hk)]; [exact Hempty | discriminate].
Qed.

Lemma register_active_empty (stream : MediaStream) (i : string) (w : World) :
  i <> EmptyString ->
  resources (manager w) = [] ->
  guarded_state (manager w) ->
  exists w',
    register_active stream i w = Some w'
    /\ activeStreamId w' = Some i
    /\ resources (manager w')
       = [(i, mkManaged i mediaStream (a_stream stream) (stream_closure stream i))]
    /\ guarded_state (manager w')
    /\ requested w' = requested w.
Proof.
  intros Hi Hempty Hg. unfold register_active, registerMediaStream, bind,
    set_resources, scheduleCleanupOnUnload, ret, choose_id.
  destruct i as [|c rest]; [congruence|]. simpl. rewrite Hempty. simpl.
  eexists. split; [reflexivity|]. simpl.
  split; [reflexivity|]. split; [reflexivity|]. split; [|reflexivity].
  intros k r [Heq|[]]. injection Heq as _ <-. apply guarded_closure.
Qed.

(** What [startCamera] does from a state in which the registry holds at
    most the active stream. *)
Lemma startCamera_one_stream (gum : Tier -> Gum) (w : World) :
  guarded_state (manager w) -> one_stream w ->
  let result := fst (startCamera gum w) in
  let w' := snd (startCamera gum w) in
  guarded_state (manager w') /\ one_stream w'
  /\ match gum Optimal with
     | Granted stream =>
         result = Stream stream
         /\ requested w' = requested w ++ [Optimal]
         /\ activeStreamId w' = Some primary_camera
         /\ resources (manager w')
            = [(primary_camera,
                mkManaged primary_camera mediaStream (a_stream stream)
                          (stream_closure stream primary_camera))]
     | Refused _ =>
         requested w' = requested w ++ [Optimal; Minimal]
         /\ match gum Minimal with
            | Granted stream =>
                result = Stream stream
                /\ activeStreamId w' = Some fallback_camera
                /\ resources (manager w')
                   = [(fallback_camera,
                       mkManaged fallback_camera mediaStream (a_stream stream)
                                 (stream_closure stream fallback_camera))]
            | Refused fallbackError =>
                result = Throw (Classified (createCameraError fallbackError))
                /\ activeStreamId w' = None
                /\ resources (manager w') = []
            end
     end.
Proof.
  intros Hg Hone. cbn zeta.
  unfold startCamera, startCamera_resume, startCamera_optimal, startCamera_minimal.
  destruct (stopCamera_one_stream w Hg Hone)
    as (w0 & -> & Hactive0 & Hres0 & Hg0 & Hreq0).
  destruct (gum Optimal) as [stream|e1] eqn:Hoptimal.
  - destruct (register_active_empty stream primary_camera (request Optimal w0)
                ltac:(discriminate) Hres0 Hg0)
      as (w' & -> & Hactive & Hres & Hg' & Hreq).
    simpl. split; [exact Hg'|]. split.
    + split; [rewrite Hactive; discriminate|]. right. eauto.
    + rewrite Hreq. simpl. rewrite Hreq0. auto.
  - destruct (gum Minimal) as [stream|e2] eqn:Hminimal.
    + destruct (register_active_empty stream fallback_camera
                  (request Minimal (request Optimal w0))
                  ltac:(discriminate) Hres0 Hg0)
        as (w' & -> & Hactive & Hres & Hg' & Hreq).
      simpl. split; [exact Hg'|]. split.
      * split; [rewrite Hactive; discriminate|]. right. eauto.
      * rewrite Hreq. simpl. rewrite Hreq0, <- app_assoc. auto.
    + simpl. split; [exact Hg0|]. split.
      * unfold one_stream. simpl.
        split; [rewrite Hactive0; discriminate | left; exact Hres0].
      * rewrite Hreq0, <- app_assoc. rewrite Hactive0. auto.
Qed.

Lemma act_one_stream (a : Action) (w : World) :
  guarded_state (manager w) /\ one_stream w ->
  guarded_state (manager (act a w)) /\ one_stream (act a w).
Proof.
  intros [Hg Hone]. destruct a as [gum| | |]; simpl.
  - destruct (startCamera_one_stream gum w Hg Hone) as (Hg' & Hone' & _). auto.
  - destruct (stopCamera_one_stream w Hg Hone)
      as (w0 & -> & Hactive0 & Hres0 & Hg0 & _).
    split; [exact Hg0|]. split; [rewrite Hactive0; discriminate | left; exact Hres0].
  - unfold cleanupByType.
    destruct Hone as [Hid [Hempty|(k & r & Hres & Hk)]].
    + rewrite Hempty. simpl. split; [exact Hg|]. split; [exact Hid | left; exact Hempty].
    + rewrite Hres. simpl. rewrite Hres. simpl. rewrite String.eqb_refl.
      destruct (type_eqb (type r) mediaStream).
      * unfold bind. rewrite (guarded_cleanupResource k (manager w) Hg). simpl.
        rewrite Hres. simpl. rewrite String.eqb_refl. simpl.
        split; [|split; [exact Hid | left; reflexivity]].
        intros k' r' [].
      * simpl. split; [exact Hg|]. split; [exact Hid|]. right. eauto.
  - destruct (cleanupAll_guarded (manager w) Hg) as (s' & -> & Hres & Hg' & _).
    simpl. split; [exact Hg'|]. split; [apply Hone | left; exact Hres].
Qed.

Lemma world_after_one_stream (actions : list Action) :
  guarded_state (manager (world_after actions)) /\ one_stream (world_after actions).
Proof.
  unfold world_after.
  assert (forall w, guarded_state (manager w) /\ one_stream w ->
                    guarded_state (manager (fold_left (fun w a => act a w) actions w))
                    /\ one_stream (fold_left (fun w a => act a w) actions w)) as H.
  { induction actions as [|a actions IH]; intros w Hw; simpl; [exact Hw|].
    apply IH. apply act_one_stream. exact Hw. }
  apply H. split; [intros k r [] |]. split; [discriminate | left; reflexivity].
Qed.


(** *** Calls that overlap *)

Lemma find_app_nat {V} (c : nat) (l l' : list (nat * V)) :
  List.find (fun x => Nat.eqb (fst x) c) (l ++ l')
  = match List.find (fun x => Nat.eqb (fst x) c) l with
    | Some x => Some x
    | None => List.find (fun x => Nat.eqb (fst x) c) l'
    end.
Proof.
  induction l as [|x l IH]; [reflexivity|].
  cbn [app List.find]. destruct (Nat.eqb (fst x) c); [reflexivity | exact IH].
Qed.

Lemma suspended_at_suspend (c c' : nat) (p : Suspended) (w : World) (sys : System) :
  suspended_at c' (suspend c p w sys)
  = if Nat.eqb c' c
    then match suspended_at c sys with Some _ => Some p | None => None end
    else suspended_at c' sys.
Proof.
  unfold suspended_at, suspend. cbn [calls].
  induction (calls sys) as [|[c0 p0] l IH]; [destruct (Nat.eqb c' c); reflexivity|].
  cbn [map List.find fst].
  destruct (Nat.eqb_spec c0 c) as [->|Hne].
  - cbn [fst]. destruct (Nat.eqb_spec c' c) as [->|Hne'].
    + rewrite Nat.eqb_refl. reflexivity.
    + destruct (Nat.eqb_spec c c') as [->|_]; [congruence|]. exact IH.
  - cbn [fst]. destruct (Nat.eqb_spec c' c) as [->|Hne'].
    + destruct (Nat.eqb_spec c0 c) as [->|_]; [congruence|]. exact IH.
    + destruct (Nat.eqb_spec c0 c'); [reflexivity | exact IH].
Qed.

Lemma suspended_at_finish (c c' : nat) (r : Started) (i : string) (w : World)
      (sys : System) :
  suspended_at c' (finish c r i w sys)
  = if Nat.eqb c' c then None else suspended_at c' sys.
Proof.
  unfold suspended_at, finish. cbn [calls].
  induction (calls sys) as [|[c0 p0] l IH]; [destruct (Nat.eqb c' c); reflexivity|].
  cbn [List.filter List.find fst].
  destruct (Nat.eqb_spec c0 c) as [->|Hne]; cbn [negb].
  - etransitivity; [exact IH|]. destruct (Nat.eqb_spec c' c) as [->|Hne'].
    + reflexivity.
    + destruct (Nat.eqb_spec c c') as [->|_]; [congruence | reflexivity].
  - cbn [List.find fst].
    destruct (Nat.eqb_spec c' c) as [->|Hne'].
    + destruct (Nat.eqb_spec c0 c) as [->|_]; [congruence | exact IH].
    + destruct (Nat.eqb_spec c0 c'); [reflexivity | exact IH].
Qed.

Lemma outcome_finish (c c' : nat) (r : Started) (i : string) (w : World)
      (sys : System) :
  outcome c' (finish c r i w sys)
  = match outcome c' sys with
    | Some r' => Some r'
    | None => if Nat.eqb c' c then Some r else None
    end.
Proof.
  unfold outcome, finish. cbn [outcomes]. rewrite find_app_nat.
  destruct (List.find _ (outcomes sys)) as [x|]; [reflexivity|].
  cbn [List.find fst]. rewrite (Nat.eqb_sym c c').
  destruct (Nat.eqb c' c); reflexivity.
Qed.

Lemma stopCamera_guarded (w : World) :
  guarded_state (manager w) -> activeStreamId w <> Some EmptyString ->
  exists w0,
    stopCamera w = Some w0
    /\ activeStreamId w0 = None
    /\ requested w0 = requested w
    /\ guarded_state (manager w0)
    /\ (forall k, activeStreamId w = Some k -> mget k (resources (manager w0)) = None)
    /\ (activeStreamId w = None -> w0 = w).
Proof.
  intros Hg Hid. unfold stopCamera.
  destruct (activeStreamId w) as [[|a rest]|] eqn:Hactive.
  - congruence.
  - rewrite (guarded_cleanupResource (String a rest) (manager w) Hg).
    eexists. split; [reflexivity|]. cbn [activeStreamId manager requested resources].
    split; [reflexivity|]. split; [reflexivity|]. split; [|split].
    + apply guarded_after_delete. exact Hg.
    + intros k Hk. injection Hk as <-. apply mget_mdelete.
    + discriminate.
  - exists w. repeat split; auto. discriminate.
Qed.

Lemma register_active_guarded (stream : MediaStream) (i : string) (w : World) :
  i <> EmptyString ->
  guarded_state (manager w) ->
  exists w',
    register_active stream i w = Some w'
    /\ activeStreamId w' = Some i
    /\ resources (manager w')
       = mset i (mkManaged i mediaStream (a_stream stream) (stream_closure stream i))
              (resources (manager w))
    /\ effects (manager w') = effects (manager w)
    /\ guarded_state (manager w')
    /\ requested w' = requested w.
Proof.
  intros Hi Hg. unfold register_active, registerMediaStream, bind,
    set_resources, scheduleCleanupOnUnload, ret, choose_id.
  destruct i as [|a rest]; [congruence|]. cbn [fst snd resources effects].
  eexists. split; [reflexivity|]. cbn [activeStreamId manager resources effects requested].
  split; [reflexivity|]. split; [reflexivity|]. split; [reflexivity|].
  split; [|reflexivity].
  apply guarded_register; [exact Hg | apply guarded_closure].
Qed.


Lemma suspended_at_starts (c c' : nat) (p : Suspended) (w : World) (sys : System) n os ob :
  suspended_at c' {| world := w; calls := calls sys ++ [(c, p)]; made := n;
                     outcomes := os; obtained := ob |}
  = match suspended_at c' sys with
    | Some q => Some q
    | None => if Nat.eqb c' c then Some p else None
    end.
Proof.
  unfold suspended_at. cbn [calls]. rewrite find_app_nat.
  destruct (List.find _ (calls sys)) as [x|]; [reflexivity|].
  cbn [List.find fst]. rewrite (Nat.eqb_sym c c').
  destruct (Nat.eqb c' c); reflexivity.
Qed.

Lemma steady_below (sys : System) (c : nat) (p : Suspended) :
  steady sys -> suspended_at c sys = Some p -> (c < made sys)%nat.
Proof.
  intros (_ & _ & Hfresh & _) Hc.
  destruct (Nat.lt_ge_cases c (made sys)) as [Hlt|Hge]; [exact Hlt|].
  destruct (Hfresh c Hge) as [Hnone _]. congruence.
Qed.

Lemma steady_suspend (sys : System) (c : nat) (p q : Suspended) (w : World) :
  steady sys ->
  suspended_at c sys = Some p ->
  guarded_state (manager w) -> activeStreamId w <> Some EmptyString ->
  steady (suspend c q w sys).
Proof.
  intros Hs Hc Hg Hid. pose proof (steady_below sys c p Hs Hc) as Hlt.
  destruct Hs as (_ & _ & Hfresh & Hopen & Hraw).
  split; [exact Hg|]. split; [exact Hid|]. split; [|split; [|exact Hraw]].
  - intros c' Hc'. rewrite suspended_at_suspend.
    destruct (Nat.eqb_spec c' c) as [->|_]; [cbn [made suspend] in Hc'; lia|].
    apply Hfresh. exact Hc'.
  - intros c' p'. rewrite suspended_at_suspend.
    destruct (Nat.eqb_spec c' c) as [->|_].
    + intros _. apply (Hopen c p Hc).
    + apply Hopen.
Qed.

Lemma steady_finish (sys : System) (c : nat) (p : Suspended) (r : Started)
      (i : string) (w : World) :
  steady sys ->
  suspended_at c sys = Some p ->
  guarded_state (manager w) -> activeStreamId w <> Some EmptyString ->
  r <> Throw RawError ->
  steady (finish c r i w sys).
Proof.
  intros Hs Hc Hg Hid Hr. pose proof (steady_below sys c p Hs Hc) as Hlt.
  destruct Hs as (_ & _ & Hfresh & Hopen & Hraw).
  split; [exact Hg|]. split; [exact Hid|]. split; [|split].
  - intros c' Hc'. cbn [made finish] in Hc'.
    rewrite suspended_at_finish, outcome_finish.
    destruct (Hfresh c' Hc') as [Hn Ho]. rewrite Hn, Ho.
    destruct (Nat.eqb_spec c' c) as [->|_]; [lia | auto].
  - intros c' p'. rewrite suspended_at_finish, outcome_finish.
    destruct (Nat.eqb_spec c' c) as [->|_]; [discriminate|].
    intros Hc'. rewrite (Hopen c' p' Hc'). reflexivity.
  - cbn [outcomes finish]. apply Forall_app. split; [exact Hraw|].
    constructor; [exact Hr | constructor].
Qed.

Lemma steady_with_world (sys : System) (w : World) :
  steady sys ->
  guarded_state (manager w) -> activeStreamId w <> Some EmptyString ->
  steady (with_world w sys).
Proof.
  intros (_ & _ & Hfresh & Hopen & Hraw) Hg Hid.
  split; [exact Hg|]. split; [exact Hid|]. split; [exact Hfresh|].
  split; [exact Hopen | exact Hraw].
Qed.

Lemma occur_steady (e : Occurrence) (sys : System) :
  steady sys -> steady (occur e sys).
Proof.
  intros Hs. pose proof Hs as (Hg & Hid & Hfresh & Hopen & Hraw).
  destruct e as [|c|c g| | | |sc|]; cbn [occur].
  - destruct (stopCamera_guarded (world sys) Hg Hid)
      as (w0 & -> & Hactive0 & _ & Hg0 & _).
    split; [exact Hg0|]. split; [cbn [world]; rewrite Hactive0; discriminate|].
    split; [|split; [|exact Hraw]].
    + intros c' Hc'. cbn [made] in Hc'. rewrite suspended_at_starts.
      destruct (Hfresh c' ltac:(lia)) as [Hn Ho]. rewrite Hn.
      destruct (Nat.eqb_spec c' (made sys)) as [->|_]; [lia|]. split; [reflexivity | exact Ho].
    + intros c' p'. rewrite suspended_at_starts.
      destruct (suspended_at c' sys) as [q|] eqn:Hq.
      * intros _. exact (Hopen c' q Hq).
      * destruct (Nat.eqb_spec c' (made sys)) as [->|_]; [|discriminate].
        intros _. apply (Hfresh (made sys)). lia.
  - destruct (suspended_at c sys) as [[| |]|] eqn:Hc; try exact Hs.
    apply (steady_suspend sys c AtStopCamera AtOptimal _ Hs Hc); assumption.
  - destruct (suspended_at c sys) as [[| |]|] eqn:Hc; try exact Hs.
    + unfold startCamera_optimal. destruct g as [stream|e1].
      * destruct (register_active_guarded stream primary_camera (world sys)
                    ltac:(discriminate) Hg)
          as (w' & -> & Hactive & _ & _ & Hg' & _).
        apply (steady_finish sys c AtOptimal _ _ _ Hs Hc);
          [exact Hg' | rewrite Hactive; discriminate | discriminate].
      * apply (steady_suspend sys c AtOptimal AtMinimal _ Hs Hc); assumption.
    + unfold startCamera_minimal. destruct g as [stream|e2].
      * destruct (register_active_guarded stream fallback_camera (world sys)
                    ltac:(discriminate) Hg)
          as (w' & -> & Hactive & _ & _ & Hg' & _).
        apply (steady_finish sys c AtMinimal _ _ _ Hs Hc);
          [exact Hg' | rewrite Hactive; discriminate | discriminate].
      * apply (steady_finish sys c AtMinimal _ _ _ Hs Hc);
          [exact Hg | exact Hid | discriminate].
  - destruct (stopCamera_guarded (world sys) Hg Hid)
      as (w0 & -> & Hactive0 & _ & Hg0 & _).
    apply steady_with_world; [exact Hs | exact Hg0 | rewrite Hactive0; discriminate].
  - apply steady_with_world; [exact Hs | | exact Hid].
    unfold cleanupByType.
    destruct (count_cleaned_guarded (mkeys (resources (manager (world sys))))
                mediaStream 0 (manager (world sys)) Hg) as (m & s' & -> & Hg').
    exact Hg'.
  - apply steady_with_world; [exact Hs | | exact Hid].
    destruct (cleanupAll_guarded (manager (world sys)) Hg) as (s' & -> & _ & Hg' & _).
    exact Hg'.
  - apply steady_with_world; [exact Hs | | exact Hid].
    unfold registerScanner, bind, set_resources, scheduleCleanupOnUnload, ret.
    cbn [fst snd with_manager manager resources].
    apply guarded_register; [exact Hg|].
    unfold scanner_closure. destruct (has_reset sc); [apply guarded_closure | reflexivity].
  - apply steady_with_world; [exact Hs | | exact Hid].
    rewrite (guarded_cleanupResource primary_barcode_scanner (manager (world sys)) Hg).
    apply guarded_after_delete. exact Hg.
Qed.

Lemma occur_all_steady (events : list Occurrence) :
  forall sys, steady sys -> steady (occur_all events sys).
Proof.
  unfold occur_all.
  induction events as [|e events IH]; intros sys Hs; [exact Hs|].
  apply IH. apply occur_steady. exact Hs.
Qed.

Lemma boot_steady : steady boot.
Proof.
  split; [intros k r []|]. split; [discriminate|].
  split; [intros c _; split; reflexivity|]. split; [discriminate | constructor].
Qed.


Lemma one_stream_empty (w : World) :
  resources (manager w) = [] -> activeStreamId w = None -> one_stream w.
Proof. intros Hres Hactive. split; [rewrite Hactive; discriminate | left; exact Hres]. Qed.








Lemma occur_page (sys : System) :
  occur Stops sys = with_world (act Stop (world sys)) sys
  /\ occur Hides sys = with_world (act PageHidden (world sys)) sys
  /\ occur Unloads sys = with_world (act PageUnload (world sys)) sys.
Proof.
  split; [|split; reflexivity].
  cbn [occur act]. destruct (stopCamera (world sys)); [reflexivity|].
  destruct sys as [[] ? ? ? ?]. reflexivity.
Qed.

Lemma no_such_call (c : nat) (calls : list (nat * Suspended)) :
  List.find (fun x => Nat.eqb (fst x) c) calls = None ->
  List.filter (fun x => negb (Nat.eqb (fst x) c)) calls = calls
  /\ forall p, map (fun x => if Nat.eqb (fst x) c then (c, p) else x) calls = calls.
Proof.
  induction calls as [|[c0 p0] l IH]; [auto|].
  cbn [List.find List.filter map fst].
  destruct (Nat.eqb c0 c); [discriminate|]. intros Hnone.
  destruct (IH Hnone) as [Hfilter Hmap]. cbn [negb].
  split; [rewrite Hfilter; reflexivity|]. intros p. rewrite Hmap. reflexivity.
Qed.

Lemma apart_without_starts (events : list Occurrence) :
  forall sys, Forall (fun e => e <> Starts) events -> apart_from sys events = true.
Proof.
  induction events as [|e events IH]; intros sys Hall; [reflexivity|].
  inversion Hall as [|? ? He Hrest]; subst. cbn [apart_from].
  destruct e; try (apply IH; exact Hrest). congruence.
Qed.

Lemma apart_from_app (first second : list Occurrence) :
  forall sys,
    apart_from sys (first ++ second)
    = apart_from sys first && apart_from (occur_all first sys) second.
Proof.
  induction first as [|e first IH]; intros sys; [reflexivity|].
  cbn [app apart_from occur_all fold_left].
  destruct e; try apply IH.
  destruct (calls sys); [apply IH | reflexivity].
Qed.

Lemma occur_all_app (first second : list Occurrence) (sys : System) :
  occur_all (first ++ second) sys = occur_all second (occur_all first sys).
Proof. unfold occur_all. apply fold_left_app. Qed.

(** The occurrences of a call of [startCamera] one after the other, with
    nothing in between, do what [startCamera] does as a whole. *)
Lemma startCamera_uninterrupted (gum : Tier -> Gum) (sys : System) :
  steady sys ->
  let c := made sys in
  let sys' := occur_all (uninterrupted c gum) sys in
  world sys' = snd (startCamera gum (world sys))
  /\ outcome c sys' = Some (fst (startCamera gum (world sys)))
  /\ calls sys' = calls sys
  /\ made sys' = S (made sys).
Proof.
  intros Hs. cbn zeta. pose proof Hs as (Hg & Hid & Hfresh & _).
  destruct (Hfresh (made sys) (Nat.le_refl _)) as [Hnew Hnone].
  assert (List.find (fun x => Nat.eqb (fst x) (made sys)) (calls sys) = None) as Hfind.
  { unfold suspended_at in Hnew. destruct (List.find _ (calls sys)); [discriminate | reflexivity]. }
  destruct (no_such_call (made sys) (calls sys) Hfind) as [Hfilter Hmap].
  assert (forall p q,
             map (fun x => if Nat.eqb (fst x) (made sys) then (made sys, p) else x)
                 (calls sys ++ [(made sys, q)])
             = calls sys ++ [(made sys, p)]) as Hreplace.
  { intros p q. rewrite map_app, Hmap. cbn [map fst]. rewrite Nat.eqb_refl. reflexivity. }
  assert (forall q,
             List.filter (fun x => negb (Nat.eqb (fst x) (made sys)))
                         (calls sys ++ [(made sys, q)])
             = calls sys) as Hremove.
  { intros q. rewrite List.filter_app, Hfilter. cbn [List.filter fst].
    rewrite Nat.eqb_refl. apply app_nil_r. }
  assert (forall p w n os ob,
             suspended_at (made sys)
               {| world := w; calls := calls sys ++ [(made sys, p)]; made := n;
                  outcomes := os; obtained := ob |} = Some p) as Hat.
  { intros p w n os ob. rewrite suspended_at_starts, Hnew, Nat.eqb_refl. reflexivity. }
  assert (forall r, option_map snd
                      (List.find (fun x => Nat.eqb (fst x) (made sys))
                                 (outcomes sys ++ [(made sys, r)])) = Some r) as Hout.
  { intros r. rewrite find_app_nat. unfold outcome in Hnone.
    destruct (List.find _ (outcomes sys)); [discriminate|].
    cbn [List.find fst]. rewrite Nat.eqb_refl. reflexivity. }
  destruct (stopCamera_guarded (world sys) Hg Hid)
    as (w0 & Hstop & Hactive0 & _ & Hg0 & _).
  pose (at_ := fun p w => {| world := w; calls := calls sys ++ [(made sys, p)];
                             made := S (made sys); outcomes := outcomes sys;
                             obtained := obtained sys |}).
  assert (occur Starts sys = at_ AtStopCamera w0) as Hbegin.
  { cbn [occur]. rewrite Hstop. reflexivity. }
  assert (forall p q w w', suspend (made sys) q w' (at_ p w) = at_ q w') as Hsuspend.
  { intros p q w w'. unfold suspend, at_. cbn [calls made outcomes obtained].
    rewrite Hreplace. reflexivity. }
  assert (forall p w, suspended_at (made sys) (at_ p w) = Some p) as Hat'.
  { intros p w. apply Hat. }
  assert (forall p r i w w',
             let done := finish (made sys) r i w' (at_ p w) in
             world done = w' /\ outcome (made sys) done = Some r
             /\ calls done = calls sys /\ made done = S (made sys)) as Hfinish.
  { intros p r i w w'. cbn zeta. unfold finish, outcome, at_.
    cbn [world calls made outcomes obtained]. rewrite Hremove, Hout. auto. }
  assert (occur (Resumes (made sys)) (at_ AtStopCamera w0)
          = at_ AtOptimal (startCamera_resume w0)) as Hresume.
  { cbn [occur]. rewrite Hat'. apply Hsuspend. }
  unfold startCamera, uninterrupted, occur_all. rewrite Hstop.
  cbn [app fold_left]. rewrite Hbegin, Hresume.
  assert (forall g, occur (Settles (made sys) g) (at_ AtOptimal (startCamera_resume w0))
                    = match startCamera_optimal g (startCamera_resume w0) with
                      | (Some r, w) =>
                          finish (made sys) r primary_camera w
                                 (at_ AtOptimal (startCamera_resume w0))
                      | (None, w) => at_ AtMinimal w
                      end) as Hoptimal.
  { intros g. cbn [occur]. rewrite Hat'. change (world (at_ AtOptimal ?w)) with w.
    destruct (startCamera_optimal g (startCamera_resume w0)) as [[r|] w];
      [reflexivity | apply Hsuspend]. }
  rewrite Hoptimal.
  destruct (gum Optimal) as [stream|e1] eqn:Hfirst.
  - cbn [fold_left]. unfold startCamera_optimal.
    destruct (register_active_guarded stream primary_camera (startCamera_resume w0)
                ltac:(discriminate) Hg0) as (w' & -> & _).
    apply Hfinish.
  - cbn [fold_left startCamera_optimal]. cbn [occur]. rewrite Hat'.
    change (world (at_ AtMinimal ?w)) with w.
    destruct (startCamera_minimal (gum Minimal) (request Minimal (startCamera_resume w0)))
      as [r w'].
    apply Hfinish.
Qed.

(** Every history of whole calls is one of the interleavings, with
    starts that do not overlap and no call left suspended. *)
Lemma world_after_reachable (actions : list Action) :
  exists events,
    starts_apart events = true
    /\ calls (system_after events) = []
    /\ world (system_after events) = world_after actions.
Proof.
  unfold world_after, starts_apart, system_after.
  assert (forall sys,
             steady sys -> calls sys = [] ->
             exists events,
               apart_from sys events = true
               /\ calls (occur_all events sys) = []
               /\ world (occur_all events sys)
                  = fold_left (fun w a => act a w) actions (world sys)) as H.
  { induction actions as [|a actions IH]; intros sys Hs Hcalls.
    - exists []. auto.
    - assert (exists one,
                 apart_from sys one = true
                 /\ calls (occur_all one sys) = []
                 /\ world (occur_all one sys) = act a (world sys)) as (one & Ha & Hc & Hw).
      { destruct a as [gum| | |].
        - exists (uninterrupted (made sys) gum).
          destruct (startCamera_uninterrupted gum sys Hs) as (Hw & _ & Hc & _).
          split; [|split; [rewrite Hc; exact Hcalls | exact Hw]].
          unfold uninterrupted. cbn [app apart_from]. rewrite Hcalls.
          apply apart_without_starts.
          destruct (gum Optimal); repeat constructor; discriminate.
        - exists [Stops]. split; [reflexivity|]. unfold occur_all. cbn [fold_left].
          rewrite (proj1 (occur_page sys)). auto.
        - exists [Hides]. split; [reflexivity|]. unfold occur_all. cbn [fold_left].
          rewrite (proj1 (proj2 (occur_page sys))). auto.
        - exists [Unloads]. split; [reflexivity|]. unfold occur_all. cbn [fold_left].
          rewrite (proj2 (proj2 (occur_page sys))). auto. }
      destruct (IH (occur_all one sys) (occur_all_steady one sys Hs) Hc)
        as (rest & Hr & Hcr & Hwr).
      exists (one ++ rest). rewrite apart_from_app, Ha, Hr, occur_all_app.
      split; [reflexivity|]. split; [exact Hcr|].
      rewrite Hwr, Hw. reflexivity. }
  apply (H boot boot_steady eq_refl).
Qed.

End CameraService.


(** ** Meal storage *)

Section MealStorage.
Import Js FoodDb Meals.

Lemma fold_add_entry (f : Nutrition -> Q) (entries : list MealEntry) :
  (forall total entry,
      f (add_entry total entry) = (f total + f (entry_nutrition entry))%Q) ->
  forall total,
    f (fold_left add_entry entries total)
    = fold_left Qplus (map (fun e => f (entry_nutrition e)) entries) (f total).
Proof.
  intros Hf. induction entries as [|e entries IH]; intros total; simpl.
  - reflexivity.
  - rewrite IH, Hf. reflexivity.
Qed.

Lemma calculateMealNutrition_sums (entries : list MealEntry) :
  let total := calculateMealNutrition entries in
  calories total = sum (map (fun e => calories (entry_nutrition e)) entries)
  /\ carbs total = sum (map (fun e => carbs (entry_nutrition e)) entries)
  /\ fat total = sum (map (fun e => fat (entry_nutrition e)) entries)
  /\ protein total = sum (map (fun e => protein (entry_nutrition e)) entries)
  /\ fiber total = sum (map (fun e => fiber (entry_nutrition e)) entries).
Proof.
  cbn zeta. unfold calculateMealNutrition, sum.
  repeat split.
  - apply (fold_add_entry calories). reflexivity.
  - apply (fold_add_entry carbs). reflexivity.
  - apply (fold_add_entry fat). reflexivity.
  - apply (fold_add_entry protein). reflexivity.
  - apply (fold_add_entry fiber). reflexivity.
Qed.

Lemma find_put_meal (meal : Meal) (meals : list Meal) :
  find_meal (meal_id meal) (put_meal meal meals) = Some meal.
Proof.
  unfold find_meal. induction meals as [|m meals IH]; simpl.
  - rewrite String.eqb_refl. reflexivity.
  - destruct (String.eqb (meal_id m) (meal_id meal)) eqn:Hm; simpl.
    + rewrite String.eqb_refl. reflexivity.
    + rewrite Hm. exact IH.
Qed.

Lemma remove_entry_spec (mealId entryId : string) (meals : list Meal) :
  match remove_entry mealId entryId meals with
  | None => find_meal mealId meals = None
  | Some meals' =>
      exists before after,
        find_meal mealId meals = Some before
        /\ find_meal mealId meals' = Some after
        /\ entries after
           = List.filter (fun e => negb (String.eqb (entry_id e) entryId))
                         (entries before)
        /\ totalNutrition after = calculateMealNutrition (entries after)
  end.
Proof.
  unfold find_meal. induction meals as [|m meals IH]; simpl; [reflexivity|].
  destruct (String.eqb (meal_id m) mealId) eqn:Hm.
  - eexists _, _. split; [reflexivity|]. simpl. rewrite Hm. auto.
  - destruct (remove_entry mealId entryId meals) as [meals'|]; simpl.
    + rewrite Hm. exact IH.
    + exact IH.
Qed.

Lemma put_meal_Forall (P : Meal -> Prop) (meal : Meal) (meals : list Meal) :
  P meal -> Forall P meals -> Forall P (put_meal meal meals).
Proof.
  intros Hmeal Hall. induction Hall as [|m meals Hm Hall IH]; simpl.
  - constructor; [exact Hmeal | constructor].
  - destruct (String.eqb (meal_id m) (meal_id meal)); constructor; auto.
Qed.

Lemma remove_entry_Forall (mealId entryId : string) (meals meals' : list Meal) :
  remove_entry mealId entryId meals = Some meals' ->
  Forall totals_are_sums meals -> Forall totals_are_sums meals'.
Proof.
  intros Hrem Hall. revert meals' Hrem.
  induction Hall as [|m meals Hm Hall IH]; simpl; intros meals'; [discriminate|].
  destruct (String.eqb (meal_id m) mealId).
  - intros H. injection H as <-. constructor; [|exact Hall].
    apply calculateMealNutrition_sums.
  - destruct (remove_entry mealId entryId meals) as [rest|]; simpl; [|discriminate].
    intros H. injection H as <-. constructor; [exact Hm | apply IH; reflexivity].
Qed.

End MealStorage.

Section MealStorageClaim.
Import Js FoodDb Meals.

(** C10.  [addFoodToMeal] returns the meal with the new entry appended
    and with totals equal, component by component, to the sums over its
    entries, and that is the meal stored under its id when the write
    succeeds.  When [removeFoodFromMeal] returns [true], the meal it
    updated has lost the entries with the given id and its totals are
    the sums over the entries that remain, and that is the meal stored
    under its id when the write succeeds.  Consequently both operations
    keep every stored meal's totals equal to the sums of its entries. *)
Theorem C10_totals_are_sums :
  (forall product mealType servings totalNutrition env st,
      let result := fst (addFoodToMeal product mealType servings totalNutrition env st) in
      let st' := snd (addFoodToMeal product mealType servings totalNutrition env st) in
      exists meal,
        add_success result = true
        /\ add_meal result = Some meal
        /\ map entry_nutrition (entries meal)
           = map entry_nutrition (entries (getOrCreateMeal mealType env st))
               ++ [totalNutrition]
        /\ totals_are_sums meal
        /\ (writable st = true ->
            find_meal (meal_id meal) (getAllMeals st') = Some meal)
        /\ (consistent st -> consistent st'))
  /\ (forall mealId entryId st,
        let st' := snd (removeFoodFromMeal mealId entryId st) in
        fst (removeFoodFromMeal mealId entryId st) = true ->
        exists before after,
          find_meal mealId (getAllMeals st) = Some before
          /\ entries after
             = List.filter (fun e => negb (String.eqb (entry_id e) entryId))
                           (entries before)
          /\ totals_are_sums after
          /\ (writable st = true -> find_meal mealId (getAllMeals st') = Some after)
          /\ (consistent st -> consistent st')).
Proof.
  split.
  - intros product mealType servings totalNutrition env st. cbn zeta.
    unfold addFoodToMeal. simpl.
    eexists. split; [reflexivity|]. split; [reflexivity|]. simpl.
    split; [rewrite map_app; reflexivity|].
    split; [apply calculateMealNutrition_sums|].
    unfold saveMeals, consistent. split.
    + intros ->. simpl.
      apply (find_put_meal
               {| meal_id := meal_id (getOrCreateMeal mealType env st);
                  meal_type := meal_type (getOrCreateMeal mealType env st);
                  date := date (getOrCreateMeal mealType env st);
                  entries := _; totalNutrition := _ |}).
    + intros Hall. destruct (writable st); [|exact Hall]. simpl.
      apply put_meal_Forall; [apply calculateMealNutrition_sums | exact Hall].
  - intros mealId entryId st. cbn zeta. unfold removeFoodFromMeal.
    pose proof (remove_entry_spec mealId entryId (getAllMeals st)) as Hspec.
    pose proof (remove_entry_Forall mealId entryId (getAllMeals st)) as Hall.
    destruct (remove_entry mealId entryId (getAllMeals st)) as [meals'|];
      simpl; [|discriminate].
    intros _. destruct Hspec as (before & after & Hbefore & Hafter & Hentries & Htotals).
    exists before, after. split; [exact Hbefore|]. split; [exact Hentries|].
    split; [unfold totals_are_sums; rewrite Htotals; apply calculateMealNutrition_sums|].
    unfold saveMeals, consistent. split.
    + intros ->. simpl. exact Hafter.
    + intros Hc. destruct (writable st); [|exact Hc]. simpl.
      apply (Hall meals' eq_refl Hc).
Qed.

(** Breakfast on an empty storage: the porridge is added, then removed. *)
Lemma C10_totals_witness :
  let added := addFoodToMeal porridge breakfast (5 # 2) two_and_a_half_servings
                             morning empty_storage in
  (exists meal,
      add_meal (fst added) = Some meal
      /\ totalNutrition meal = calculateMealNutrition (entries meal)
      /\ totals_are_sums meal)
  /\ exists before after,
       find_meal (new_meal_id morning) (getAllMeals (snd added)) = Some before
       /\ entries after = []
       /\ totals_are_sums after
       /\ find_meal (new_meal_id morning)
                    (getAllMeals (snd (removeFoodFromMeal (new_meal_id morning)
                                                          (new_entry_id morning)
                                                          (snd added))))
          = Some after.
Proof.
  cbn zeta. split.
  - destruct (proj1 C10_totals_are_sums porridge breakfast (5 # 2)
                    two_and_a_half_servings morning empty_storage)
      as (meal & _ & Hmeal & _ & Htotals & _).
    exists meal. split; [exact Hmeal|]. split; [|exact Htotals].
    vm_compute in Hmeal. injection Hmeal as <-. reflexivity.
  - destruct (proj2 C10_totals_are_sums (new_meal_id morning) (new_entry_id morning)
                    (snd (addFoodToMeal porridge breakfast (5 # 2)
                                        two_and_a_half_servings morning empty_storage))
                    eq_refl)
      as (before & after & Hbefore & Hentries & Htotals & Hstored & _).
    exists before, after. split; [exact Hbefore|].
    split; [|split; [exact Htotals | apply Hstored; reflexivity]].
    rewrite Hentries. vm_compute in Hbefore. injection Hbefore as <-. reflexivity.
Defined.

End MealStorageClaim.

(** ** Continuous scanning *)

Section ContinuousScanning.
Import Js Scan.

Lemma continuousScan_not_found (maxScanAttempts seen interval now : Z) (h : Hook) :
  continuousScanRef h = true ->
  (0 <? maxScanAttempts) && (maxScanAttempts <=? seen) = false ->
  let h' := continuousScan maxScanAttempts seen interval now NotFoundException h in
  decodes h' = S (decodes h)
  /\ continuousScanRef h' = true
  /\ scheduled h' = Some interval
  /\ signalled h' = signalled h
  /\ scanCount (state h') = scanCount (state h).
Proof.
  intros Href Hcheck. cbn zeta. unfold continuousScan.
  rewrite Href, Hcheck. simpl. rewrite Href. simpl. auto.
Qed.

(** C2 on the code.  With a video in which nothing is ever found, a
    scanning session started in a render whose [scanCount] is [seen] does
    one of two things.  If the ceiling is positive and [seen] has reached
    it, the session stops before its first decode and signals.  Otherwise
    the counter that is compared with the ceiling never changes: after
    the start and [n] timer events the session has decoded [n + 1] times,
    is still running with the next decode scheduled, and has signalled
    nothing; the ceiling is never enforced. *)
Theorem C2_ceiling_is_never_reached (maxScanAttempts seen interval now : Z) (n : nat) :
  let h := session maxScanAttempts seen interval now nothing_to_scan n mounted in
  if (0 <? maxScanAttempts) && (maxScanAttempts <=? seen)
  then decodes h = 0%nat
       /\ continuousScanRef h = false
       /\ scheduled h = None
       /\ signalled h = [max_attempts_message]
  else decodes h = S n
       /\ continuousScanRef h = true
       /\ scheduled h = Some interval
       /\ signalled h = []
       /\ scanCount (state h) = 0.
Proof.
  cbn zeta.
  destruct ((0 <? maxScanAttempts) && (maxScanAttempts <=? seen)) eqn:Hcheck.
  - induction n as [|n IH]; simpl.
    + unfold startContinuousScanning, continuousScan. simpl. rewrite Hcheck.
      simpl. auto.
    + destruct IH as (Hd & Hr & Hs & Hsig). unfold timer_fires. rewrite Hs. auto.
  - induction n as [|n IH]; simpl.
    + unfold startContinuousScanning. simpl.
      destruct (continuousScan_not_found maxScanAttempts seen interval now
                  {| state := initial; continuousScanRef := true; scheduled := None;
                     decodes := 0; signalled := []; detected := [] |}
                  eq_refl Hcheck) as (Hd & Hr & Hs & Hsig & Hc).
      unfold nothing_to_scan. auto.
    + destruct IH as (Hd & Hr & Hs & Hsig & Hc). unfold timer_fires. rewrite Hs.
      unfold nothing_to_scan.
      destruct (continuousScan_not_found maxScanAttempts seen interval now
                  {| state := state (session maxScanAttempts seen interval now
                                             (fun _ => NotFoundException) n mounted);
                     continuousScanRef :=
                       continuousScanRef (session maxScanAttempts seen interval now
                                                  (fun _ => NotFoundException) n mounted);
                     scheduled := None;
                     decodes := decodes (session maxScanAttempts seen interval now
                                                 (fun _ => NotFoundException) n mounted);
                     signalled := signalled (session maxScanAttempts seen interval now
                                                     (fun _ => NotFoundException) n mounted);
                     detected := detected (session maxScanAttempts seen interval now
                                                   (fun _ => NotFoundException) n mounted) |}
                  Hr Hcheck) as (Hd' & Hr' & Hs' & Hsig' & Hc').
      simpl in *. unfold nothing_to_scan in *.
      rewrite Hd', Hr', Hs', Hsig', Hc', Hd, Hsig, Hc. auto.
Qed.

(** The default ceiling of 10 on a freshly mounted hook: the eleventh
    decode has run and a twelfth is scheduled 600 ms later. *)
Example eleven_decodes :
  let h := session 10 0 600 0 nothing_to_scan 10 mounted in
  decodes h = 11%nat /\ scheduled h = Some 600 /\ signalled h = [].
Proof. repeat split; reflexivity. Qed.

End ContinuousScanning.

(** ** Auto-detection *)

Section AutoDetection.
Import Js Lookup Capture.

Lemma find_timer_cleared (t : positive) (ts : list (positive * CaptureState)) :
  List.find (fun x => Pos.eqb (fst x) t)
            (List.filter (fun x => negb (Pos.eqb (fst x) t)) ts) = None.
Proof.
  induction ts as [|[t' seen] ts IH]; [reflexivity|].
  cbn [List.filter fst]. destruct (Pos.eqb t' t) eqn:Heq; cbn [negb]; [exact IH|].
  cbn [List.find fst]. rewrite Heq. exact IH.
Qed.

Lemma find_timer_other (t t' : positive) (ts : list (positive * CaptureState)) :
  t <> t' ->
  List.find (fun x => Pos.eqb (fst x) t)
            (List.filter (fun x => negb (Pos.eqb (fst x) t')) ts)
  = List.find (fun x => Pos.eqb (fst x) t) ts.
Proof.
  intros Hne. induction ts as [|[t0 seen] ts IH]; [reflexivity|].
  cbn [List.filter List.find fst].
  destruct (Pos.eqb_spec t0 t') as [->|Hne'].
  - cbn [negb]. rewrite IH.
    destruct (Pos.eqb_spec t' t) as [->|_]; [congruence | reflexivity].
  - cbn [negb List.find fst]. rewrite IH. reflexivity.
Qed.

(** A timer that was cleared, or has fired, is no longer pending; the
    other timers are. *)
Lemma pending_clearTimeout (t : positive) (h : Hook) :
  pending t (clearTimeout t h) = None.
Proof. unfold pending, clearTimeout. cbn [timers]. rewrite find_timer_cleared. reflexivity. Qed.

Lemma pending_clearTimeout_other (t t' : positive) (h : Hook) :
  t <> t' -> pending t (clearTimeout t' h) = pending t h.
Proof.
  intros Hne. unfold pending, clearTimeout. cbn [timers].
  rewrite (find_timer_other t t' (timers h) Hne). reflexivity.
Qed.

(** [handleBarcodeDetected] never looks at [autoDetectionComplete]: what
    it writes depends on the lookup result alone. *)
Lemma resume_ignores_completion (result : LookupResult) (h : Hook) :
  let h' := handleBarcodeDetected_resume result h in
  showModeSelection (state h') = negb (success result)
  /\ lookupResult (state h') = Some result
  /\ autoDetectionComplete (state h') = true
  /\ reported h' = reported h ++ (if success result then [result] else []).
Proof.
  cbn zeta. unfold handleBarcodeDetected_resume.
  destruct (success result); simpl; rewrite ?app_nil_r; auto.
Qed.

(** The callback of a timer tests the state captured when
    [startAutoDetection] ran, whatever the state has become since. *)
Lemma timeout_tests_the_captured_state (t : positive) (seen : CaptureState) (h : Hook) :
  pending t h = Some seen ->
  let h' := timeout_fires t h in
  showModeSelection (state h')
  = (if negb (autoDetectionComplete seen)
        && match lookupResult seen with None => true | Some _ => false end
     then true else showModeSelection (state h))
  /\ lookupResult (state h') = lookupResult (state h)
  /\ pending t h' = None.
Proof.
  intros Hseen. cbn zeta. unfold timeout_fires. rewrite Hseen.
  assert (pending t (clearTimeout t h) = None) as Hgone by apply pending_clearTimeout.
  destruct (negb (autoDetectionComplete seen) && _); simpl; auto.
Qed.

(** C1 on the code.  Auto-detection starts from the state left by
    [startCapture]; its timer has the handle 1.  (1) When the timeout elapses first, the mode
    selection is shown; a detection that arrives afterwards is acted upon
    all the same: it stores its lookup result, reports a successful one
    and hides the mode selection again.  (2) When the detection and its
    lookup come first, the timer is not cancelled, and its callback tests
    the state it captured at the start: the mode selection is shown over
    the result.  (3) When the timeout elapses while the lookup of an
    earlier detection is pending, the mode selection is shown and then
    overridden by the result. *)
Theorem C1_race_is_not_arbitrated (result : LookupResult) :
  let timed_out := autoDetection capturing [TimeoutElapsed 1] in
  let late := autoDetection capturing
                [TimeoutElapsed 1; BarcodeDetected; LookupReturned result] in
  let early := autoDetection capturing
                 [BarcodeDetected; LookupReturned result; TimeoutElapsed 1] in
  let pending := autoDetection capturing
                   [BarcodeDetected; TimeoutElapsed 1; LookupReturned result] in
  (showModeSelection (state timed_out) = true
   /\ autoDetectionComplete (state timed_out) = true
   /\ lookupResult (state timed_out) = None)
  /\ (showModeSelection (state late) = negb (success result)
      /\ lookupResult (state late) = Some result
      /\ reported late = if success result then [result] else [])
  /\ (showModeSelection (state early) = true
      /\ lookupResult (state early) = Some result
      /\ reported early = if success result then [result] else [])
  /\ (showModeSelection (state (autoDetection capturing [BarcodeDetected; TimeoutElapsed 1]))
      = true
      /\ showModeSelection (state pending) = negb (success result)
      /\ lookupResult (state pending) = Some result).
Proof.
  cbn zeta. unfold autoDetection. simpl.
  unfold handleBarcodeDetected_resume.
  destruct (success result); simpl; repeat split; reflexivity.
Qed.

(** A successful lookup of the spread, arriving after the timeout. *)
Example late_detection_wins :
  let h := autoDetection capturing
             [TimeoutElapsed 1; BarcodeDetected;
              LookupReturned (found (enhanceProductData hazelnut_spread false
                                                        FoodDb.barcode_src))] in
  showModeSelection (state h) = false
  /\ reported h = [found (enhanceProductData hazelnut_spread false FoodDb.barcode_src)].
Proof. split; reflexivity. Qed.

End AutoDetection.

(* ===================================================================== *)
(** * Further properties of the code *)
(* ===================================================================== *)

(** ** Barcodes as displayed and as looked up *)

Section Formatting.
Import Js FoodDb Lookup Service.

Lemma cleanBarcode_app (a b : jsstring) :
  cleanBarcode (a ++ b) = cleanBarcode a ++ cleanBarcode b.
Proof. unfold cleanBarcode. apply List.filter_app. Qed.

Lemma cleanBarcode_idempotent (b : jsstring) :
  cleanBarcode (cleanBarcode b) = cleanBarcode b.
Proof.
  unfold cleanBarcode. induction b as [|c b IH]; simpl; [reflexivity|].
  destruct (negb (is_space c || is_dash c)) eqn:Hc; simpl; [|exact IH].
  rewrite Hc. f_equal. exact IH.
Qed.

Lemma cleanBarcode_dash (a b : jsstring) :
  cleanBarcode (a ++ lit "-" ++ b) = cleanBarcode (a ++ b).
Proof. rewrite !cleanBarcode_app. reflexivity. Qed.

(** The dashes apart, [formatBarcode] returns the cleaned barcode. *)
Lemma formatBarcode_without_dashes (b : jsstring) :
  cleanBarcode (formatBarcode b) = cleanBarcode b.
Proof.
  unfold formatBarcode, substring, substring_from. cbn zeta.
  set (clean := cleanBarcode b).
  assert (cleanBarcode clean = clean) as Hclean by apply cleanBarcode_idempotent.
  destruct (Nat.eqb (List.length clean) 13).
  - rewrite cleanBarcode_dash, cleanBarcode_app, cleanBarcode_dash,
      <- cleanBarcode_app.
    change (drop 7 clean) with (drop (6 + 1) clean).
    rewrite <- (skipn_skipn 6 1 clean).
    change (7 - 1)%nat with 6%nat. change (1 - 0)%nat with 1%nat.
    change (drop 0 clean) with clean.
    rewrite (firstn_skipn 6 (drop 1 clean)), (firstn_skipn 1). exact Hclean.
  - destruct (Nat.eqb (List.length clean) 12).
    + rewrite cleanBarcode_dash. change (6 - 0)%nat with 6%nat.
      change (drop 0 clean) with clean.
      rewrite (firstn_skipn 6). exact Hclean.
    + destruct (Nat.eqb (List.length clean) 8); [|exact Hclean].
      rewrite cleanBarcode_dash. change (4 - 0)%nat with 4%nat.
      change (drop 0 clean) with clean.
      rewrite (firstn_skipn 4). exact Hclean.
Qed.

Lemma validateBarcode_clean (a b : jsstring) :
  cleanBarcode a = cleanBarcode b -> validateBarcode a = validateBarcode b.
Proof. unfold validateBarcode. intros ->. reflexivity. Qed.

Lemma formatBarcode_clean (a b : jsstring) :
  cleanBarcode a = cleanBarcode b -> formatBarcode a = formatBarcode b.
Proof. unfold formatBarcode. intros ->. reflexivity. Qed.

(** X1.  [formatBarcode] only inserts dashes into the cleaned barcode:
    cleaning its result gives the cleaned input back, so the formatted
    barcode is valid exactly when the input is, and formatting is
    idempotent and does not depend on the white space and dashes of the
    input.  A valid barcode is formatted to 15, 13 or 9 characters
    (EAN-13, UPC-A, EAN-8 with their dashes) and stays valid. *)
Theorem formatBarcode_round_trip (b : jsstring) :
  cleanBarcode (formatBarcode b) = cleanBarcode b
  /\ validateBarcode (formatBarcode b) = validateBarcode b
  /\ formatBarcode (formatBarcode b) = formatBarcode b
  /\ formatBarcode (cleanBarcode b) = formatBarcode b
  /\ (validateBarcode b = true ->
      (List.length (formatBarcode b) = 15 \/ List.length (formatBarcode b) = 13
       \/ List.length (formatBarcode b) = 9)%nat
      /\ validateBarcode (formatBarcode b) = true).
Proof.
  pose proof (formatBarcode_without_dashes b) as Hclean.
  refine (conj Hclean (conj _ (conj _ (conj _ _)))).
  - apply validateBarcode_clean. exact Hclean.
  - apply formatBarcode_clean. exact Hclean.
  - apply formatBarcode_clean. apply cleanBarcode_idempotent.
  - intros Hvalid. split; [|rewrite (validateBarcode_clean _ b Hclean); exact Hvalid].
    apply validateBarcode_spec in Hvalid as [Hlen _].
    apply valid_length_spec in Hlen.
    unfold formatBarcode, substring, substring_from. cbn zeta.
    destruct Hlen as [Hlen|[Hlen|Hlen]]; rewrite Hlen; simpl Nat.eqb; cbv iota;
      rewrite !length_app, ?length_firstn, ?length_skipn, Hlen; simpl; lia.
Qed.

(** The EAN-13 barcode of the spread. *)
Lemma formatBarcode_round_trip_witness :
  formatBarcode (lit "3017620425035") = lit "3-017620-425035"
  /\ (List.length (formatBarcode (lit "3017620425035")) = 15
      \/ List.length (formatBarcode (lit "3017620425035")) = 13
      \/ List.length (formatBarcode (lit "3017620425035")) = 9)%nat
  /\ validateBarcode (formatBarcode (lit "3017620425035")) = true.
Proof.
  split; [reflexivity|].
  apply (proj2 (proj2 (proj2 (proj2 (formatBarcode_round_trip (lit "3017620425035")))))).
  reflexivity.
Defined.

(** X2.  The service validates the cleaned barcode but uses the barcode
    as it was given for the cache, for the request queue and for the
    request itself.  Two spellings of one barcode (same digits, different
    white space or dashes) are therefore two products to it: made one
    after the other on a service that knows neither, the two lookups
    create two requests and two network invocations; and an entry cached
    under one spelling does not serve a lookup under the other. *)
Theorem lookup_takes_the_barcode_as_typed (b1 b2 : jsstring) :
  validateBarcode b1 = true ->
  cleanBarcode b1 = cleanBarcode b2 ->
  b1 <> b2 ->
  validateBarcode b2 = true
  /\ (forall s o1 o2 t1 t2,
        cache s !! b1 = None -> cache s !! b2 = None ->
        requestQueue s !! b1 = None -> requestQueue s !! b2 = None ->
        let first := lookupByBarcode b1 o1 t1 s in
        let second := lookupByBarcode b2 o2 t2 first.1 in
        first.2 = Awaits (next_pid s)
        /\ second.2 = Awaits (S (next_pid s))
        /\ network second.1 = network s ++ [b1; b2])
  /\ (forall s o e now,
        enableCache o = true ->
        cache s !! b1 = Some e -> now - timestamp e <= cacheMaxAge ->
        cache s !! b2 = None -> requestQueue s !! b2 = None ->
        lookupByBarcode b1 o now s
        = (s, Returns (found (set_cached true (entry_product e))))
        /\ (lookupByBarcode b2 o now s).2 = Awaits (next_pid s)
        /\ network (lookupByBarcode b2 o now s).1 = network s ++ [b2]).
Proof.
  intros Hvalid Hclean Hne.
  assert (validateBarcode b2 = true) as Hvalid2
      by (rewrite <- (validateBarcode_clean b1 b2 Hclean); exact Hvalid).
  split; [exact Hvalid2|]. split.
  - intros s o1 o2 t1 t2 Hc1 Hc2 Hq1 Hq2. cbn zeta.
    rewrite (lookupByBarcode_miss b1 o1 t1 s Hvalid Hc1), Hq1. simpl.
    set (s1 := {| cache := cache s;
                  requestQueue := <[b1 := next_pid s]> (requestQueue s);
                  inflight := inflight s
                              ++ [mkRequest (next_pid s) b1 (maxRetries o1) (timeoutMs o1)
                                            (requireHighQuality o1) (enableCache o1)];
                  network := network s ++ [b1];
                  next_pid := S (next_pid s) |}).
    rewrite (lookupByBarcode_miss b2 o2 t2 s1 Hvalid2 Hc2).
    change (requestQueue s1) with (<[b1 := next_pid s]> (requestQueue s)).
    rewrite lookup_insert_ne by exact Hne. rewrite Hq2. simpl.
    rewrite <- app_assoc. auto.
  - intros s o e now Ho He Hfresh Hc2 Hq2.
    split; [apply lookupByBarcode_hit; assumption|].
    rewrite (lookupByBarcode_miss b2 o now s Hvalid2 Hc2), Hq2. simpl. auto.
Qed.

(** The spread, as scanned and as [formatBarcode] displays it: on a
    fresh service, and on a service that has the scanned spelling in its
    cache. *)
Lemma lookup_takes_the_barcode_as_typed_witness :
  let b1 := lit "3017620425035" in
  let b2 := formatBarcode b1 in
  let first := lookupByBarcode b1 default_options 0 init in
  let second := lookupByBarcode b2 default_options 5 first.1 in
  let e := mkEntry (enhanceProductData hazelnut_spread false barcode_src) 0 in
  let s := with_cache {[ b1 := e ]} init in
  validateBarcode b2 = true
  /\ (first.2 = Awaits 0
      /\ second.2 = Awaits 1
      /\ network second.1 = [b1; b2])
  /\ (lookupByBarcode b1 default_options 5 s
      = (s, Returns (found (set_cached true (entry_product e))))
      /\ (lookupByBarcode b2 default_options 5 s).2 = Awaits 0
      /\ network (lookupByBarcode b2 default_options 5 s).1 = [b2]).
Proof.
  cbn zeta.
  destruct (lookup_takes_the_barcode_as_typed
              (lit "3017620425035") (formatBarcode (lit "3017620425035"))
              eq_refl eq_refl ltac:(discriminate))
    as (Hvalid & Hrun & Hcached).
  split; [exact Hvalid|]. split.
  - exact (Hrun init default_options default_options 0 5
                eq_refl eq_refl eq_refl eq_refl).
  - apply (Hcached (with_cache {[ lit "3017620425035"
                                  := mkEntry (enhanceProductData hazelnut_spread false
                                                                 barcode_src) 0 ]} init)
                   default_options
                   (mkEntry (enhanceProductData hazelnut_spread false barcode_src) 0) 5).
    + reflexivity.
    + vm_compute. reflexivity.
    + vm_compute. discriminate.
    + vm_compute. reflexivity.
    + reflexivity.
Defined.

End Formatting.
(** ** Products of Open Food Facts and their quality *)

Section QualityOfProducts.
Import Js FoodDb Lookup.

Lemma issues_by_parts (p : ProductData) :
  issues (assessProductQuality p)
  = (if name_ok p then [] else ["Missing or poor product name"%string])
    ++ (if truthy (brand p) then [] else ["No brand information"%string])
    ++ (if (4 <=? completeFields (nutrition p))%nat then []
        else if (3 <=? completeFields (nutrition p))%nat
             then ["Some nutrition values missing"%string]
             else ["Incomplete nutrition data"%string])
    ++ (if truthy (imageUrl p) then [] else ["No product image"%string])
    ++ (if verified p then [] else ["Unverified product data"%string]).
Proof.
  unfold assessProductQuality, issues, raw_quality, score_verified, score_image,
    score_nutrition, score_brand, score_name, nutritionScore, nutritionFields.
  cbn [List.length].
  pose proof (completeFields_le_5 (nutrition p)) as Hk. revert Hk.
  generalize (completeFields (nutrition p)) (name_ok p) (truthy (brand p))
             (truthy (imageUrl p)) (verified p).
  intros [|[|[|[|[|[|k]]]]]] [] [] [] [] Hk; try lia; vm_compute; reflexivity.
Qed.

Lemma strengths_by_parts (p : ProductData) :
  strengths (assessProductQuality p)
  = (if name_ok p then ["Product name available"%string] else [])
    ++ (if truthy (brand p) then ["Brand information available"%string] else [])
    ++ (if (4 <=? completeFields (nutrition p))%nat
        then ["Complete nutrition data"%string]
        else if (3 <=? completeFields (nutrition p))%nat
             then ["Most nutrition data available"%string]
             else [])
    ++ (if truthy (imageUrl p) then ["Product image available"%string] else [])
    ++ (if verified p then ["Verified product data"%string] else []).
Proof.
  unfold assessProductQuality, strengths, raw_quality, score_verified, score_image,
    score_nutrition, score_brand, score_name, nutritionScore, nutritionFields.
  cbn [List.length].
  pose proof (completeFields_le_5 (nutrition p)) as Hk. revert Hk.
  generalize (completeFields (nutrition p)) (name_ok p) (truthy (brand p))
             (truthy (imageUrl p)) (verified p).
  intros [|[|[|[|[|[|k]]]]]] [] [] [] [] Hk; try lia; vm_compute; reflexivity.
Qed.

Lemma weighted_total_range (p : ProductData) : 0 <= weighted_total p <= 100.
Proof.
  unfold weighted_total, points.
  pose proof (completeFields_le_5 (nutrition p)).
  destruct (name_ok p), (truthy (brand p)), (truthy (imageUrl p)), (verified p); lia.
Qed.

(** X3.  The score lies between 0 and 100.  An assessment reports no
    issue exactly when the score is at least 92 (four of the five
    nutrition fields already count as complete), and the level is then
    high.  Issues and strengths together are five or six remarks (six
    when three nutrition fields are given, which is a strength and an
    issue at once); a product without any strength scores at most 16. *)
Theorem score_and_issues (p : ProductData) :
  0 <= score (assessProductQuality p) <= 100
  /\ (issues (assessProductQuality p) = [] <-> 92 <= score (assessProductQuality p))
  /\ (issues (assessProductQuality p) = [] -> level (assessProductQuality p) = high)
  /\ (5 <= List.length (issues (assessProductQuality p))
           + List.length (strengths (assessProductQuality p)) <= 6)%nat
  /\ (strengths (assessProductQuality p) = [] -> score (assessProductQuality p) <= 16).
Proof.
  rewrite issues_by_parts, strengths_by_parts, level_by_thresholds,
    score_is_weighted_total.
  split; [apply weighted_total_range|].
  unfold weighted_total, points.
  pose proof (completeFields_le_5 (nutrition p)) as Hk. revert Hk.
  generalize (completeFields (nutrition p)) (name_ok p) (truthy (brand p))
             (truthy (imageUrl p)) (verified p).
  intros [|[|[|[|[|[|k]]]]]] [] [] [] [] Hk; try lia; simpl;
    (split; [split; [intros H; try discriminate H; lia
                    | intros H; try reflexivity; lia]
            | split; [intros H; try discriminate H; reflexivity
                     | split; [lia | intros H; try discriminate H; lia]]]).
Qed.

(** A product without a single issue: the spread. *)
Lemma score_and_issues_witness :
  issues (assessProductQuality hazelnut_spread) = []
  /\ level (assessProductQuality hazelnut_spread) = high
  /\ 92 <= score (assessProductQuality hazelnut_spread).
Proof.
  split; [reflexivity|]. split.
  - apply (proj1 (proj2 (proj2 (score_and_issues hazelnut_spread)))). reflexivity.
  - apply (proj1 (proj2 (score_and_issues hazelnut_spread))). reflexivity.
Defined.

Lemma or_else_truthy (a b : option jsstring) :
  truthy b = true -> truthy (or_else a b) = true.
Proof. unfold or_else. destruct (truthy a) eqn:Ha; auto. Qed.

Lemma truthy_not_empty (a : option jsstring) :
  (if truthy a then a else None) <> Some [].
Proof. destruct a as [[|c s]|]; simpl; discriminate. Qed.

(** X4.  A product returned by [lookupBarcode] comes from an answer of
    status 1 whose nutrition could be extracted.  It carries the barcode
    of the request, the source [barcode] and [verified = true]; its name
    is not empty, its brand and image URL are absent rather than empty.
    Being verified it scores at least 15.  When the database gives no
    name the product is called "Unknown Product", and that name earns the
    20 points of a product name: the score is at least 35 and "Product
    name available" is among the strengths. *)
Theorem open_food_facts_product (b : jsstring) (r : FetchOutcome) (p : ProductData) :
  lookupBarcode b r = Some p ->
  (exists product n, r = Json 1 product /\ extracted product = Some n /\ nutrition p = n)
  /\ barcode p = b /\ source p = barcode_src /\ verified p = true
  /\ name p <> [] /\ brand p <> Some [] /\ imageUrl p <> Some []
  /\ 15 <= score (assessProductQuality p)
  /\ In "Verified product data"%string (strengths (assessProductQuality p))
  /\ (forall status product,
        r = Json status product ->
        truthy (product_name product) = false ->
        truthy (product_name_en product) = false ->
        name p = lit "Unknown Product"
        /\ 35 <= score (assessProductQuality p)
        /\ In "Product name available"%string (strengths (assessProductQuality p))).
Proof.
  intros H. unfold lookupBarcode in H.
  destruct r as [| | |status product]; try discriminate H.
  destruct (Z.eqb_spec status 1) as [->|Hne]; simpl in H; [|discriminate H].
  destruct (extracted product) as [n|] eqn:Hn; [|discriminate H].
  injection H as Hp.
  pose proof (f_equal name Hp) as Hname. pose proof (f_equal brand Hp) as Hbrand.
  pose proof (f_equal barcode Hp) as Hbarcode. pose proof (f_equal source Hp) as Hsource.
  pose proof (f_equal nutrition Hp) as Hnutrition.
  pose proof (f_equal imageUrl Hp) as Himage. pose proof (f_equal verified Hp) as Hverified.
  cbn [name brand barcode source nutrition imageUrl verified] in *. clear Hp.
  rewrite score_is_weighted_total, strengths_by_parts.
  unfold weighted_total, points. rewrite <- Hverified.
  pose proof (completeFields_le_5 (nutrition p)) as Hk.
  split; [eauto|]. split; [auto|]. split; [auto|]. split; [reflexivity|].
  split.
  { rewrite <- Hname.
    pose proof (or_else_truthy (or_else (product_name product) (product_name_en product))
                               (Some unknown_product) eq_refl) as Ht.
    destruct (or_else _ (Some unknown_product)) as [[|c s]|]; simpl in Ht;
      discriminate. }
  split; [rewrite <- Hbrand; apply truthy_not_empty|].
  split; [rewrite <- Himage; apply truthy_not_empty|].
  split.
  { destruct (name_ok p), (truthy (brand p)), (truthy (imageUrl p)); lia. }
  split.
  { rewrite !in_app_iff. right. right. right. right. left. reflexivity. }
  intros status' product' Heq Hn1 Hn2. injection Heq as _ <-.
  assert (name p = lit "Unknown Product") as Hunknown.
  { rewrite <- Hname. unfold or_else. rewrite Hn1, Hn2. reflexivity. }
  assert (name_ok p = true) as Hok.
  { unfold name_ok. rewrite Hunknown. reflexivity. }
  rewrite Hok. split; [exact Hunknown|]. split.
  - destruct (truthy (brand p)), (truthy (imageUrl p)); lia.
  - left. reflexivity.
Qed.

(** A record of the database that has nutrition values and nothing else. *)
Lemma open_food_facts_product_witness :
  let anonymous := {| product_name := None; product_name_en := Some [];
                      brands := None; image_front_url := None; image_url := None;
                      extracted := Some (mkNutrition 52 14 0 0 0) |} in
  exists p,
    lookupBarcode (lit "12345678") (Json 1 anonymous) = Some p
    /\ name p = lit "Unknown Product"
    /\ 35 <= score (assessProductQuality p)
    /\ In "Product name available"%string (strengths (assessProductQuality p)).
Proof.
  cbn zeta.
  destruct (lookupBarcode (lit "12345678")
              (Json 1 {| product_name := None; product_name_en := Some [];
                         brands := None; image_front_url := None; image_url := None;
                         extracted := Some (mkNutrition 52 14 0 0 0) |}))
    as [p|] eqn:Hp; [|discriminate Hp].
  exists p. split; [reflexivity|].
  apply (proj2 (proj2 (proj2 (proj2 (proj2 (proj2 (proj2 (proj2 (proj2
           (open_food_facts_product _ _ p Hp)))))))))
           1 {| product_name := None; product_name_en := Some [];
                brands := None; image_front_url := None; image_url := None;
                extracted := Some (mkNutrition 52 14 0 0 0) |}); reflexivity.
Defined.

Lemma confidence_bounds (p : ProductData) (c : bool) :
  (0 <= confidence (enhanceProductData p c barcode_src) <= 95
   /\ confidence (enhanceProductData p c barcode_src) <= score (assessProductQuality p))
  /\ (0 <= confidence (enhanceProductData p c search_src) <= 80
      /\ confidence (enhanceProductData p c search_src) <= score (assessProductQuality p))
  /\ confidence (enhanceProductData p c manual_src) = score (assessProductQuality p).
Proof.
  unfold enhanceProductData, confidence, assessProductQuality, score, level,
    raw_quality, score_verified, score_image, score_nutrition, score_brand,
    score_name, nutritionScore, nutritionFields.
  cbn [List.length].
  pose proof (completeFields_le_5 (nutrition p)) as Hk. revert Hk.
  generalize (completeFields (nutrition p)) (name_ok p) (truthy (brand p))
             (truthy (imageUrl p)) (verified p).
  intros [|[|[|[|[|[|k]]]]]] [] [] [] [] Hk; try lia; vm_compute;
    repeat split; try (intros H; discriminate H).
Qed.

(** X5.  The confidence never exceeds the score: it is at most 95 for a
    barcode result and at most 80 for a search result, and equal to the
    score for a manual entry.
    [searchByName] returns one result for each product found, in order,
    with the same name, barcode and nutrition; each has the source
    [search], is not cached, carries the assessment of
    [assessProductQuality] and a confidence of at most 80.  When the
    search is rejected the answer is the empty list. *)
Theorem confidence_never_exceeds_score (p : ProductData) (c : bool) (r : SearchReply) :
  (0 <= confidence (enhanceProductData p c barcode_src) <= 95
   /\ confidence (enhanceProductData p c barcode_src) <= score (assessProductQuality p))
  /\ (0 <= confidence (enhanceProductData p c search_src) <= 80
      /\ confidence (enhanceProductData p c search_src) <= score (assessProductQuality p))
  /\ confidence (enhanceProductData p c manual_src) = score (assessProductQuality p)
  /\ Forall (fun e => source (data e) = search_src /\ cached e = false
                      /\ quality e = assessProductQuality (data e)
                      /\ 0 <= confidence e <= 80
                      /\ confidence e <= score (quality e))
            (searchByName r)
  /\ (forall products,
        map (fun e => (name (data e), barcode (data e), nutrition (data e)))
            (searchByName (Products products))
        = map (fun p => (name p, barcode p, nutrition p)) products)
  /\ searchByName SearchRejects = [].
Proof.
  destruct (confidence_bounds p c) as (Hb & Hs & Hm).
  refine (conj Hb (conj Hs (conj Hm (conj _ (conj _ eq_refl))))).
  - destruct r as [products|]; simpl; [|constructor].
    apply List.Forall_forall. intros e He. apply List.in_map_iff in He as (q & <- & _).
    destruct (confidence_bounds q false) as (_ & Hq & _).
    split; [reflexivity|]. split; [reflexivity|]. split; [reflexivity|]. exact Hq.
  - intros products. simpl. rewrite map_map. reflexivity.
Qed.
End QualityOfProducts.

(** ** Results of [performLookup] *)

Section LookupResults.
Import Js FoodDb Lookup Service.

Lemma level_low_iff (p : ProductData) :
  level (assessProductQuality p) = low <-> score (assessProductQuality p) < 60.
Proof.
  rewrite level_by_thresholds, score_is_weighted_total.
  destruct (Z.leb_spec 80 (weighted_total p)); [split; [discriminate | lia]|].
  destruct (Z.leb_spec 60 (weighted_total p)); [split; [discriminate | lia]|].
  split; [lia | reflexivity].
Qed.

Lemma attempts_high_quality m t net remaining :
  forall attempt lastError,
    success (fst (attempts m t true net remaining attempt lastError)) = true ->
    exists p,
      fst (attempts m t true net remaining attempt lastError)
      = found (enhanceProductData p false barcode_src)
      /\ level (assessProductQuality p) <> low.
Proof.
  induction remaining as [|remaining IH]; intros attempt lastError.
  - discriminate.
  - cbn [attempts].
    destruct (race t (net attempt)) as [[[p|]|message] elapsed].
    + change (quality (enhanceProductData p false barcode_src))
        with (assessProductQuality p).
      destruct (level (assessProductQuality p)) eqn:Hlevel; cbn [andb fst].
      * intros H. discriminate H.
      * intros _. exists p. split; [reflexivity | congruence].
      * intros _. exists p. split; [reflexivity | congruence].
    + discriminate.
    + specialize (IH (S attempt) (Some message)).
      destruct (attempts m t true net remaining (S attempt) (Some message))
        as [result events].
      exact IH.
Qed.

(** X6.  With [requireHighQuality], a successful result of
    [performLookup] carries a product whose level is not low, so whose
    score is at least 60.  A product scoring less, answered by the first
    invocation, ends the run at once with the "quality too low" failure:
    one invocation, no retry.  Without the option the same answer is
    returned as found. *)
Theorem high_quality_only (maxRetries : nat) (timeoutMs : Z) (net : nat -> Reply) :
  (success (fst (performLookup maxRetries timeoutMs true net)) = true ->
   exists p,
     fst (performLookup maxRetries timeoutMs true net)
     = found (enhanceProductData p false barcode_src)
     /\ level (assessProductQuality p) <> low
     /\ 60 <= score (assessProductQuality p))
  /\ (forall p,
        fst (race timeoutMs (net 0%nat)) = Resolved (Some p) ->
        score (assessProductQuality p) < 60 ->
        performLookup maxRetries timeoutMs true net
        = (quality_too_low, [Attempt 0 (snd (race timeoutMs (net 0%nat)))])
        /\ fst (performLookup maxRetries timeoutMs false net)
           = found (enhanceProductData p false barcode_src)).
Proof.
  split.
  - intros Hok. unfold performLookup in *.
    destruct (attempts_high_quality maxRetries timeoutMs net (S maxRetries) 0%nat None Hok)
      as (p & Hfound & Hlevel).
    exists p. split; [exact Hfound|]. split; [exact Hlevel|].
    destruct (Z.lt_ge_cases (score (assessProductQuality p)) 60) as [Hlt|Hge]; [|exact Hge].
    apply level_low_iff in Hlt. contradiction.
  - intros p Hrace Hscore. apply level_low_iff in Hscore.
    unfold performLookup. cbn [attempts].
    destruct (race timeoutMs (net 0%nat)) as [settled elapsed]. simpl in Hrace.
    subst settled.
    change (quality (enhanceProductData p false barcode_src))
      with (assessProductQuality p).
    rewrite Hscore. split; reflexivity.
Qed.

(** A record with a name and calories only scores 43: it is returned to
    a caller that takes any quality and refused to one that requires a
    high one; the spread is returned to both. *)
Lemma high_quality_only_witness :
  let poor := {| name := lit "Soda"; brand := None; barcode := lit "12345678";
                 source := barcode_src; nutrition := mkNutrition 42 0 0 0 0;
                 imageUrl := None; verified := true |} in
  (performLookup 2 5000 true (fun _ => Fulfils 120 (Some poor))
   = (quality_too_low, [Attempt 0 120])
   /\ fst (performLookup 2 5000 false (fun _ => Fulfils 120 (Some poor)))
      = found (enhanceProductData poor false barcode_src))
  /\ exists p,
       fst (performLookup 2 5000 true spread_found)
       = found (enhanceProductData p false barcode_src)
       /\ level (assessProductQuality p) <> low
       /\ 60 <= score (assessProductQuality p).
Proof.
  cbn zeta. split.
  - apply (proj2 (high_quality_only 2 5000 (fun _ => Fulfils 120 (Some _)))).
    + reflexivity.
    + vm_compute. reflexivity.
  - apply (proj1 (high_quality_only 2 5000 spread_found)). reflexivity.
Defined.

Lemma message_or_unknown_not_empty (lastError : option string) :
  message_or_unknown lastError <> EmptyString.
Proof. destruct lastError as [[|c s]|]; discriminate. Qed.

Lemma attempts_actionable m t hq net remaining :
  forall attempt lastError,
    actionable (fst (attempts m t hq net remaining attempt lastError)).
Proof.
  induction remaining as [|remaining IH]; intros attempt lastError; simpl.
  - unfold actionable. simpl. split; [reflexivity|]. split; [|eauto].
    eexists. split; [reflexivity | apply message_or_unknown_not_empty].
  - destruct (race t (net attempt)) as [[[p|]|message] elapsed]; simpl.
    + destruct (hq && _); unfold actionable; simpl.
      * split; [reflexivity|]. split; [|eauto].
        eexists. split; [reflexivity | discriminate].
      * split; [eauto | reflexivity].
    + unfold actionable. simpl. split; [reflexivity|]. split; [|eauto].
      eexists. split; [reflexivity | discriminate].
    + specialize (IH (S attempt) (Some message)).
      destruct (attempts m t hq net remaining (S attempt) (Some message))
        as [result events].
      exact IH.
Qed.

(** X7.  Every result of the service can be acted upon, whether it is
    computed by [performLookup], returned at once by [lookupByBarcode]
    (invalid format, cache hit) or delivered when a request settles: a
    success has a product and no error; a failure has no product, an
    error message that is not empty, and at least two suggestions. *)
Theorem every_result_is_actionable :
  (forall maxRetries timeoutMs requireHighQuality net,
      actionable (fst (performLookup maxRetries timeoutMs requireHighQuality net)))
  /\ (forall b o now s r,
        (lookupByBarcode b o now s).2 = Returns r -> actionable r)
  /\ (forall p net now s s' r,
        settle p net now s = Some (s', r) -> actionable r).
Proof.
  split; [|split].
  - intros. apply attempts_actionable.
  - intros b o now s r. unfold lookupByBarcode.
    destruct (validateBarcode b); simpl.
    2: { intros H. injection H as <-. unfold actionable. simpl.
         split; [reflexivity|]. split; [|eauto].
         eexists. split; [reflexivity | discriminate]. }
    destruct (if enableCache o then getCachedProduct b now s else (None, s))
      as [[cached|] s0].
    + intros H. injection H as <-. unfold actionable. simpl. eauto.
    + destruct (requestQueue s0 !! b); simpl; discriminate.
  - intros p net now s s' r. unfold settle.
    destruct (find_request p s) as [req|]; [|discriminate].
    pose proof (attempts_actionable (r_maxRetries req) (r_timeoutMs req)
                  (r_requireHighQuality req) net (S (r_maxRetries req)) 0%nat None) as Ha.
    unfold performLookup.
    destruct (attempts (r_maxRetries req) (r_timeoutMs req) (r_requireHighQuality req)
                       net (S (r_maxRetries req)) 0%nat None) as [result events].
    intros H. injection H as _ <-. exact Ha.
Qed.

(** A lookup of the spread that is answered, and one that never is. *)
Lemma every_result_is_actionable_witness :
  (exists s' r,
      lookup_to_completion spread_barcode default_options 0 spread_found 150 init
      = Some (s', r) /\ actionable r)
  /\ exists s' r,
       lookup_to_completion spread_barcode default_options 0 (fun _ => Hangs) 18000 init
       = Some (s', r) /\ actionable r.
Proof.
  split.
  - destruct (lookup_to_completion spread_barcode default_options 0 spread_found 150 init)
      as [[s' r]|] eqn:Hrun; [|vm_compute in Hrun; discriminate].
    exists s', r. split; [reflexivity|].
    apply (proj2 (proj2 every_result_is_actionable) 0%nat spread_found 150
                 (lookupByBarcode spread_barcode default_options 0 init).1 s' r).
    exact Hrun.
  - destruct (lookup_to_completion spread_barcode default_options 0 (fun _ => Hangs)
                                   18000 init)
      as [[s' r]|] eqn:Hrun; [|vm_compute in Hrun; discriminate].
    exists s', r. split; [reflexivity|].
    apply (proj2 (proj2 every_result_is_actionable) 0%nat (fun _ => Hangs) 18000
                 (lookupByBarcode spread_barcode default_options 0 init).1 s' r).
    exact Hrun.
Defined.

End LookupResults.

(** ** The cache and the request queue of the service *)

Section CacheAndQueue.
Import Js FoodDb Lookup Service.

Lemma cleanupCache_lookup now s b :
  cache (cleanupCache now s) !! b
  = match cache s !! b with
    | Some e => if cacheMaxAge <? now - timestamp e then None else Some e
    | None => None
    end.
Proof.
  unfold cleanupCache. simpl.
  destruct (cache s !! b) as [e|] eqn:He.
  - destruct (Z.ltb_spec cacheMaxAge (now - timestamp e)) as [Hold|Hfresh].
    + apply map_lookup_filter_None. right. intros e' He'. simpl.
      rewrite He in He'. injection He' as <-. intros Hkeep. apply Hkeep. lia.
    + apply map_lookup_filter_Some. split; [exact He|]. simpl. lia.
  - apply map_lookup_filter_None. left. exact He.
Qed.

Lemma cacheProduct_under_1000 b p now s :
  (size (cache s) < 1000)%nat ->
  cacheProduct b p now s = with_cache (<[b := mkEntry p now]> (cache s)) s.
Proof.
  intros Hsize. unfold cacheProduct. simpl.
  assert ((1000 <? size (<[b := mkEntry p now]> (cache s)))%nat = false) as ->;
    [|reflexivity].
  apply Nat.ltb_ge.
  destruct (cache s !! b) as [e|] eqn:He.
  - rewrite map_size_insert_Some by (rewrite He; eauto). lia.
  - rewrite map_size_insert_None by exact He. lia.
Qed.

Lemma cacheProduct_other b p now s b' e :
  b' <> b ->
  cache s !! b' = Some e ->
  now - timestamp e <= cacheMaxAge ->
  cache (cacheProduct b p now s) !! b' = Some e.
Proof.
  intros Hne He Hfresh. unfold cacheProduct. simpl.
  destruct (1000 <? size _)%nat.
  - rewrite cleanupCache_lookup. simpl. rewrite lookup_insert_ne by congruence.
    rewrite He. destruct (Z.ltb_spec cacheMaxAge (now - timestamp e)); [lia | reflexivity].
  - simpl. rewrite lookup_insert_ne by congruence. exact He.
Qed.

(** X8.  [cleanupCache] removes exactly the entries that
    [getCachedProduct] treats as expired at the same instant (those
    older than 24 hours), so a sweep never changes what a lookup finds.
    [cacheProduct] stores the product under its barcode with the current
    time, never evicts another entry that has not expired, and does not
    sweep at all while the cache holds fewer than 1000 entries. *)
Theorem cleanupCache_agrees_with_expiry (now : Z) (s : State) (b : jsstring) :
  fst (getCachedProduct b now (cleanupCache now s)) = fst (getCachedProduct b now s)
  /\ (forall e, cache s !! b = Some e ->
                (cache (cleanupCache now s) !! b = Some e
                 <-> now - timestamp e <= cacheMaxAge)
                /\ (cache (cleanupCache now s) !! b = None
                    <-> cacheMaxAge < now - timestamp e))
  /\ (cache s !! b = None -> cache (cleanupCache now s) !! b = None)
  /\ (forall p, cache (cacheProduct b p now s) !! b = Some (mkEntry p now))
  /\ (forall p b' e,
        b' <> b -> cache s !! b' = Some e -> now - timestamp e <= cacheMaxAge ->
        cache (cacheProduct b p now s) !! b' = Some e)
  /\ (forall p,
        (size (cache s) < 1000)%nat ->
        cache (cacheProduct b p now s) = <[b := mkEntry p now]> (cache s)).
Proof.
  refine (conj _ (conj _ (conj _ (conj _ (conj _ _))))).
  - unfold getCachedProduct. rewrite cleanupCache_lookup.
    destruct (cache s !! b) as [e|]; [|reflexivity].
    destruct (cacheMaxAge <? now - timestamp e) eqn:Hold; [reflexivity|].
    rewrite Hold. reflexivity.
  - intros e He. rewrite cleanupCache_lookup, He.
    destruct (Z.ltb_spec cacheMaxAge (now - timestamp e)) as [Hold|Hfresh].
    + split; (split; [intros H; try discriminate H; lia | intros H; try reflexivity; lia]).
    + split; (split; [intros H; try discriminate H; lia | intros H; try reflexivity; lia]).
  - intros Hnone. rewrite cleanupCache_lookup, Hnone. reflexivity.
  - intros p. apply cacheProduct_lookup.
  - intros p b' e. apply cacheProduct_other.
  - intros p Hsize. rewrite (cacheProduct_under_1000 b p now s Hsize). reflexivity.
Qed.

(** An entry stored at time 0, swept one millisecond before and one after
    it is 24 hours old. *)
Lemma cleanupCache_agrees_with_expiry_witness :
  let e := mkEntry (enhanceProductData hazelnut_spread false barcode_src) 0 in
  let s := with_cache {[ spread_barcode := e ]} init in
  cache (cleanupCache (cacheMaxAge - 1) s) !! spread_barcode = Some e
  /\ cache (cleanupCache (cacheMaxAge + 1) s) !! spread_barcode = None
  /\ cache (cacheProduct (lit "12345678") (entry_product e) cacheMaxAge s)
     = <[lit "12345678" := mkEntry (entry_product e) cacheMaxAge]> (cache s).
Proof.
  cbn zeta.
  set (e := mkEntry (enhanceProductData hazelnut_spread false barcode_src) 0).
  set (s := with_cache {[ spread_barcode := e ]} init).
  assert (cache s !! spread_barcode = Some e) as He by (vm_compute; reflexivity).
  split; [|split].
  - apply (proj2 (proj1 (proj1 (proj2 (cleanupCache_agrees_with_expiry
                                         (cacheMaxAge - 1) s spread_barcode)) e He))).
    simpl. lia.
  - apply (proj2 (proj2 (proj1 (proj2 (cleanupCache_agrees_with_expiry
                                         (cacheMaxAge + 1) s spread_barcode)) e He))).
    simpl. lia.
  - apply (proj2 (proj2 (proj2 (proj2 (proj2 (cleanupCache_agrees_with_expiry
                                                cacheMaxAge s (lit "12345678"))))))).
    vm_compute. lia.
Defined.

(** X9.  When a request settles, the cache changes only if the lookup
    succeeded and the caller that created the request asked for caching:
    a failure, or a request made with [enableCache] off, leaves the cache
    as it is.  A success is stored under the barcode of the request with
    the time at which the caller resumed, and no other entry that has not
    expired is lost. *)
Theorem only_successes_are_cached (p : nat) (net : nat -> Reply) (now : Z)
        (s s' : State) (r : LookupResult) :
  settle p net now s = Some (s', r) ->
  exists req,
    find_request p s = Some req
    /\ (success r = false -> cache s' = cache s)
    /\ (r_enableCache req = false -> cache s' = cache s)
    /\ (forall e,
          r = found e -> r_enableCache req = true ->
          cache s' !! r_barcode req = Some (mkEntry e now)
          /\ forall b' e',
               b' <> r_barcode req -> cache s !! b' = Some e' ->
               now - timestamp e' <= cacheMaxAge ->
               cache s' !! b' = Some e').
Proof.
  unfold settle.
  destruct (find_request p s) as [req|]; [|discriminate].
  destruct (performLookup _ _ _ net) as [result events].
  intros H. injection H as <- <-. exists req. split; [reflexivity|].
  cbn [cache].
  split; [|split].
  - intros Hfail. destruct (product result) as [e|]; [|reflexivity].
    rewrite Hfail. reflexivity.
  - intros Hoff. destruct (product result) as [e|]; [|reflexivity].
    rewrite Hoff, andb_false_r. reflexivity.
  - intros e -> Hon. cbn [product success found andb]. rewrite Hon. split.
    + apply cacheProduct_lookup.
    + intros b' e' Hne He' Hfresh. apply cacheProduct_other; assumption.
Qed.

(** A lookup of the spread with caching, one without, and one that is
    never answered. *)
Lemma only_successes_are_cached_witness :
  let first := lookupByBarcode spread_barcode default_options 0 init in
  let silent := lookupByBarcode spread_barcode without_cache 0 init in
  (exists s' e,
      settle 0 spread_found 150 first.1 = Some (s', found e)
      /\ cache s' !! spread_barcode = Some (mkEntry e 150))
  /\ (exists s' r,
        settle 0 spread_found 150 silent.1 = Some (s', r) /\ cache s' = ∅)
  /\ exists s' r,
       settle 0 (fun _ => Hangs) 18000 first.1 = Some (s', r) /\ cache s' = ∅.
Proof.
  cbn zeta. split; [|split].
  - destruct (settle 0 spread_found 150
                (lookupByBarcode spread_barcode default_options 0 init).1)
      as [[s' r]|] eqn:Hrun; [|vm_compute in Hrun; discriminate].
    destruct (only_successes_are_cached _ _ _ _ _ _ Hrun) as (req & Hreq & _ & _ & Hstore).
    assert (r = found (enhanceProductData hazelnut_spread false barcode_src)) as ->.
    { pose proof (f_equal (fun x : option (State * LookupResult) =>
                             match x with Some (_, r) => Some r | None => None end)
                          Hrun) as Hr.
      vm_compute in Hr. injection Hr as <-. reflexivity. }
    vm_compute in Hreq. injection Hreq as <-.
    exists s', (enhanceProductData hazelnut_spread false barcode_src).
    split; [reflexivity|]. exact (proj1 (Hstore _ eq_refl eq_refl)).
  - destruct (settle 0 spread_found 150
                (lookupByBarcode spread_barcode without_cache 0 init).1)
      as [[s' r]|] eqn:Hrun; [|vm_compute in Hrun; discriminate].
    destruct (only_successes_are_cached _ _ _ _ _ _ Hrun) as (req & Hreq & _ & Hoff & _).
    vm_compute in Hreq. injection Hreq as <-.
    exists s', r. split; [reflexivity|]. apply (Hoff eq_refl).
  - destruct (settle 0 (fun _ => Hangs) 18000
                (lookupByBarcode spread_barcode default_options 0 init).1)
      as [[s' r]|] eqn:Hrun; [|vm_compute in Hrun; discriminate].
    destruct (only_successes_are_cached _ _ _ _ _ _ Hrun) as (req & _ & Hfail & _).
    exists s', r. split; [reflexivity|]. apply Hfail.
    pose proof (f_equal (fun x : option (State * LookupResult) =>
                           match x with Some (_, r) => success r | None => true end)
                        Hrun) as Hr.
    simpl in Hr. rewrite <- Hr. vm_compute. reflexivity.
Defined.

Lemma NoDup_map_eq {A B} (f : A -> B) (l : list A) x y :
  List.NoDup (map f l) -> In x l -> In y l -> f x = f y -> x = y.
Proof.
  induction l as [|z l IH]; simpl; [tauto|].
  intros Hnd. apply List.NoDup_cons_iff in Hnd as [Hz Hnd].
  intros [->|Hx] [->|Hy] Heq; auto.
  - exfalso. apply Hz. rewrite Heq. apply List.in_map. exact Hy.
  - exfalso. apply Hz. rewrite <- Heq. apply List.in_map. exact Hx.
Qed.

Lemma NoDup_map_filter {A B} (f : A -> B) (g : A -> bool) (l : list A) :
  List.NoDup (map f l) -> List.NoDup (map f (List.filter g l)).
Proof.
  induction l as [|z l IH]; simpl; [auto|].
  intros Hnd. apply List.NoDup_cons_iff in Hnd as [Hz Hnd].
  destruct (g z); simpl; [|auto].
  apply List.NoDup_cons; [|auto].
  intros Hin. apply Hz. apply List.in_map_iff in Hin as (x & Hx & Hin).
  apply List.filter_In in Hin as [Hin _].
  apply List.in_map_iff. eauto.
Qed.

Lemma NoDup_map_compose {A B C} (f : A -> B) (g : B -> C) (l : list A) :
  List.NoDup (map (fun x => g (f x)) l) -> List.NoDup (map f l).
Proof.
  induction l as [|z l IH]; simpl; intros Hnd; [constructor|].
  apply List.NoDup_cons_iff in Hnd as [Hz Hnd].
  apply List.NoDup_cons; [|auto].
  intros Hin. apply Hz. apply List.in_map_iff in Hin as (x & Hx & Hin).
  apply List.in_map_iff. exists x. split; [congruence | exact Hin].
Qed.

Lemma reachable_queue_live s :
  reachable s -> queue_live s /\ pids_distinct s.
Proof.
  induction 1 as [|s s' Hreach IH Hstep].
  - split; [intros b p H; unfold init in H; simpl in H;
             rewrite lookup_empty in H; discriminate
           | constructor].
  - destruct IH as [Hlive Hdistinct].
    destruct (reachable_invariant s Hreach) as [Hc Ho].
    pose proof (reachable_pids_fresh s Hreach) as Hfresh.
    destruct Hstep as [b o now s|p net now s s' r Hsettle|s].
    + unfold queue_live, pids_distinct.
      destruct (lookupByBarcode_cases b o now s)
        as [(Hq & Hi & _)|(_ & Hnone & _ & Hq & Hi & _ & _)]; rewrite Hq, Hi.
      * split; assumption.
      * split.
        -- intros b' p'. destruct (decide (b' = b)) as [->|Hne].
           ++ rewrite lookup_insert_eq. intros H. injection H as <-.
              eexists. split; [apply in_or_app; right; left; reflexivity|].
              split; reflexivity.
           ++ rewrite lookup_insert_ne by congruence. intros H.
              destruct (Hlive b' p' H) as (r & Hin & Hp & Hb).
              exists r. split; [apply in_or_app; left; exact Hin | auto].
        -- rewrite map_app. simpl.
           apply List.NoDup_app; [exact Hdistinct | repeat constructor; intros [] |].
           intros x Hx [<-|[]]. apply List.in_map_iff in Hx as (r & Hr & Hin).
           specialize (Hfresh r Hin). simpl in Hr. lia.
    + unfold settle in Hsettle.
      destruct (find_request p s) as [r0|] eqn:Hfind; [|discriminate].
      destruct (performLookup _ _ _ net) as [result events].
      apply find_request_In in Hfind as [Hr0 Hpid].
      set (s0 := {| cache := cache s; requestQueue := requestQueue s;
                    inflight := List.filter (fun r' => negb (Nat.eqb (pid r') p)) (inflight s);
                    network := network s ++ repeat (r_barcode r0) (invocations events - 1);
                    next_pid := next_pid s |}) in Hsettle.
      set (s1 := match product result with
                 | Some e => if success result && r_enableCache r0
                             then cacheProduct (r_barcode r0) e now s0 else s0
                 | None => s0
                 end) in Hsettle.
      assert (requestQueue s1 = requestQueue s /\ inflight s1 = inflight s0) as [Hq Hi].
      { subst s1. destruct (product result) as [e|]; [|auto].
        destruct (success result && r_enableCache r0); [|auto].
        destruct (cacheProduct_keeps_requests (r_barcode r0) e now s0) as (-> & -> & _).
        auto. }
      injection Hsettle as <- _. unfold queue_live, pids_distinct. simpl.
      rewrite Hq, Hi. simpl. split.
      * intros b' p'. destruct (decide (b' = r_barcode r0)) as [->|Hne].
        -- rewrite lookup_delete_eq. discriminate.
        -- rewrite lookup_delete_ne by congruence. intros H.
           destruct (Hlive b' p' H) as (r' & Hin & Hp & Hb).
           exists r'. split; [|auto]. apply List.filter_In. split; [exact Hin|].
           apply negb_true_iff, Nat.eqb_neq. intros Heq. apply Hne.
           rewrite <- Hb. f_equal.
           apply (NoDup_map_eq pid (inflight s)); auto. congruence.
      * apply NoDup_map_filter. exact Hdistinct.
    + split; assumption.
Qed.

(** X10.  In every state the service can reach, the request queue holds
    exactly the promises of the requests in flight, each under the
    barcode of its request.  [activeRequests] of [getCacheStats] is their
    number, and when nothing is in flight the queue is empty: no settled
    promise stays behind to answer a later lookup. *)
Theorem queue_holds_the_requests_in_flight (s : State) :
  reachable s ->
  (forall b p,
      requestQueue s !! b = Some p
      <-> exists r, In r (inflight s) /\ pid r = p /\ r_barcode r = b)
  /\ activeRequests (getCacheStats s) = List.length (inflight s)
  /\ (inflight s = [] -> requestQueue s = ∅).
Proof.
  intros Hreach.
  destruct (reachable_queue_live s Hreach) as [Hlive Hdistinct].
  destruct (reachable_invariant s Hreach) as [Hc _].
  assert (forall b p,
             requestQueue s !! b = Some p
             <-> exists r, In r (inflight s) /\ pid r = p /\ r_barcode r = b) as Hiff.
  { intros b p. split; [apply Hlive|].
    intros (r & Hin & <- & <-). apply Hc. exact Hin. }
  split; [exact Hiff|]. split.
  - unfold getCacheStats. simpl.
    rewrite <- length_map_to_list.
    rewrite <- (length_map (fun r => (r_barcode r, pid r)) (inflight s)).
    apply Permutation_length. apply NoDup_Permutation.
    + apply NoDup_map_to_list.
    + apply NoDup_ListNoDup.
      apply (NoDup_map_compose (fun r => (r_barcode r, pid r)) snd). exact Hdistinct.
    + intros [b p]. rewrite elem_of_map_to_list, Hiff, list_elem_of_In, List.in_map_iff.
      split.
      * intros (r & Hin & <- & <-). eauto.
      * intros (r & Heq & Hin). injection Heq as <- <-. eauto.
  - intros Hnil. apply map_empty. intros b.
    destruct (requestQueue s !! b) as [p|] eqn:Hb; [|reflexivity].
    apply Hiff in Hb as (r & Hin & _). rewrite Hnil in Hin. destruct Hin.
Qed.

(** One lookup in flight on a fresh service, and the service after it has
    settled. *)
Lemma queue_holds_the_requests_in_flight_witness :
  let s1 := (lookupByBarcode spread_barcode default_options 0 init).1 in
  activeRequests (getCacheStats s1) = 1%nat
  /\ exists s2 r,
       settle 0 spread_found 150 s1 = Some (s2, r)
       /\ activeRequests (getCacheStats s2) = 0%nat
       /\ requestQueue s2 = ∅.
Proof.
  cbn zeta.
  assert (reachable (lookupByBarcode spread_barcode default_options 0 init).1) as H1.
  { eapply reach_step; [apply reach_init | apply step_call]. }
  split.
  - rewrite (proj1 (proj2 (queue_holds_the_requests_in_flight _ H1))). reflexivity.
  - destruct (settle 0 spread_found 150
                (lookupByBarcode spread_barcode default_options 0 init).1)
      as [[s2 r]|] eqn:Hrun; [|vm_compute in Hrun; discriminate].
    assert (reachable s2) as H2.
    { eapply reach_step; [exact H1 | eapply step_settle; exact Hrun]. }
    assert (inflight s2 = []) as Hnil.
    { pose proof (f_equal (fun x : option (State * LookupResult) =>
                             match x with Some (s, _) => inflight s | None => [] end)
                          Hrun) as Hi.
      simpl in Hi. rewrite <- Hi. vm_compute. reflexivity. }
    exists s2, r. split; [reflexivity|].
    destruct (queue_holds_the_requests_in_flight s2 H2) as (_ & Hcount & Hempty).
    split; [rewrite Hcount, Hnil; reflexivity | exact (Hempty Hnil)].
Defined.

End CacheAndQueue.

(** ** The registry of the resource manager *)

Section Registry.
Import Js Resources.

Lemma mget_notin {V} (k : string) (m : Map V) :
  ~ In k (mkeys m) -> mget k m = None.
Proof.
  induction m as [|[k' v'] m IH]; simpl; [reflexivity|].
  intros Hnot. destruct (String.eqb_spec k k') as [->|Hne]; [tauto|].
  apply IH. tauto.
Qed.

Lemma mget_app_notin {V} (k : string) (pre m : Map V) :
  ~ In k (mkeys pre) -> mget k (pre ++ m) = mget k m.
Proof.
  induction pre as [|[k' v'] pre IH]; simpl; [reflexivity|].
  intros Hnot. destruct (String.eqb_spec k k') as [->|Hne]; [tauto|].
  apply IH. tauto.
Qed.

Lemma mdelete_notin {V} (k : string) (m : Map V) :
  ~ In k (mkeys m) -> mdelete k m = m.
Proof. intros Hnot. apply mdelete_absent, mget_notin. exact Hnot. Qed.

Lemma mdelete_app {V} (k : string) (a b : Map V) :
  mdelete k (a ++ b) = mdelete k a ++ mdelete k b.
Proof.
  induction a as [|[k' v'] a IH]; simpl; [reflexivity|].
  destruct (String.eqb k k'); simpl; rewrite IH; reflexivity.
Qed.

Lemma mkeys_app {V} (a b : Map V) : mkeys (a ++ b) = mkeys a ++ mkeys b.
Proof. unfold mkeys. apply map_app. Qed.

Lemma mkeys_mset {V} (k : string) (v : V) (m : Map V) :
  mkeys (mset k v m) = if existsb (String.eqb k) (mkeys m) then mkeys m
                       else mkeys m ++ [k].
Proof.
  induction m as [|[k' v'] m IH]; simpl; [reflexivity|].
  destruct (String.eqb_spec k k') as [->|Hne]; simpl; [reflexivity|].
  rewrite IH. destruct (existsb (String.eqb k) (mkeys m)); reflexivity.
Qed.

Lemma NoDup_mkeys_mset {V} (k : string) (v : V) (m : Map V) :
  List.NoDup (mkeys m) -> List.NoDup (mkeys (mset k v m)).
Proof.
  intros Hnd. rewrite mkeys_mset.
  destruct (existsb (String.eqb k) (mkeys m)) eqn:Hk; [exact Hnd|].
  apply List.NoDup_app; [exact Hnd | repeat constructor; intros [] |].
  intros x Hx [<-|[]].
  assert (existsb (String.eqb k) (mkeys m) = true) as Ht; [|congruence].
  apply existsb_exists. exists k. split; [exact Hx | apply String.eqb_refl].
Qed.

Lemma NoDup_mkeys_filter {V} (f : string * V -> bool) (m : Map V) :
  List.NoDup (mkeys m) -> List.NoDup (mkeys (List.filter f m)).
Proof. apply NoDup_map_filter. Qed.

Lemma NoDup_mkeys_mdelete {V} (k : string) (m : Map V) :
  List.NoDup (mkeys m) -> List.NoDup (mkeys (mdelete k m)).
Proof. intros Hnd. rewrite mkeys_mdelete. apply List.NoDup_filter. exact Hnd. Qed.

Lemma mget_filter {V} (f : string * V -> bool) (k : string) (m : Map V) (v : V) :
  mget k m = Some v -> f (k, v) = true -> mget k (List.filter f m) = Some v.
Proof.
  induction m as [|[k' v'] m IH]; simpl; [discriminate|].
  destruct (String.eqb_spec k k') as [->|Hne].
  - intros H. injection H as ->. intros ->. simpl. rewrite String.eqb_refl. reflexivity.
  - intros Hget Hf. destruct (f (k', v')); simpl; [|auto].
    destruct (String.eqb_spec k k'); [contradiction | auto].
Qed.

Lemma type_eqb_eq (a b : ResourceType) : type_eqb a b = true <-> a = b.
Proof. destruct a, b; simpl; split; congruence. Qed.

Lemma keys_apart {V} (pre : Map V) (k : string) (v : V) (m : Map V) :
  List.NoDup (mkeys (pre ++ (k, v) :: m)) ->
  ~ In k (mkeys pre) /\ ~ In k (mkeys m) /\ List.NoDup (mkeys (pre ++ m)).
Proof.
  rewrite !mkeys_app. simpl. intros Hnd.
  pose proof (List.NoDup_remove_1 _ _ _ Hnd) as Hrest.
  pose proof (List.NoDup_remove_2 _ _ _ Hnd) as Hk.
  rewrite in_app_iff in Hk. tauto.
Qed.

(** What the loop of [cleanupByType] does to a registry whose closures
    return normally: the entries [pre] have been passed, [m] is to come. *)
Lemma count_cleaned_spec (t : ResourceType) (m : Map ManagedResource) :
  forall pre n sched es,
    List.NoDup (mkeys (pre ++ m)) ->
    (forall k r, In (k, r) m -> fst (cleanup r tt) = Normal) ->
    count_cleaned (mkeys m) t n
      {| resources := pre ++ m; isCleanupScheduled := sched; effects := es |}
    = (Returned (n + List.length (of_type t m))%nat,
       {| resources := pre ++ not_of_type t m; isCleanupScheduled := sched;
          effects := es ++ released (of_type t m) |}).
Proof.
  induction m as [|[k v] m IH]; intros pre n sched es Hnd Hg.
  - simpl. rewrite Nat.add_0_r, !app_nil_r. reflexivity.
  - destruct (keys_apart pre k v m Hnd) as (Hpre & Hm & Hnd').
    change (mkeys ((k, v) :: m)) with (k :: mkeys m).
    cbn [count_cleaned resources].
    rewrite (mget_app_notin k pre _ Hpre). cbn [mget]. rewrite String.eqb_refl.
    unfold of_type, not_of_type. cbn [List.filter snd].
    destruct (type_eqb (type v) t) eqn:Ht; cbn [negb].
    + unfold bind. rewrite cleanupResource_eq. cbn [resources].
      rewrite (mget_app_notin k pre _ Hpre). cbn [mget]. rewrite String.eqb_refl.
      pose proof (Hg k v (or_introl eq_refl)) as Hnormal.
      destruct (cleanup v tt) as [[|] es'] eqn:Hv; [|discriminate Hnormal].
      cbn [isCleanupScheduled effects].
      rewrite mdelete_app, (mdelete_notin k pre Hpre). cbn [mdelete].
      rewrite String.eqb_refl, (mdelete_notin k m Hm).
      rewrite (IH pre (S n) sched (es ++ es') Hnd'
                  (fun k' r' Hin => Hg k' r' (or_intror Hin))).
      unfold of_type, not_of_type, released. cbn [List.length flat_map snd].
      rewrite Hv. cbn [snd]. rewrite <- app_assoc, Nat.add_succ_r. reflexivity.
    + assert (pre ++ (k, v) :: m = (pre ++ [(k, v)]) ++ m) as Hsplit
          by (rewrite <- app_assoc; reflexivity).
      rewrite Hsplit.
      rewrite (IH (pre ++ [(k, v)]) n sched es); [|rewrite <- Hsplit; exact Hnd|].
      * unfold of_type, not_of_type. rewrite <- app_assoc. reflexivity.
      * intros k' r' Hin. apply (Hg k' r'). right. exact Hin.
Qed.

(** What the loop of [cleanupAll] does to such a registry. *)
Lemma for_each_cleanup_releases (m : Map ManagedResource) :
  forall sched es,
    List.NoDup (mkeys m) ->
    (forall k r, In (k, r) m -> fst (cleanup r tt) = Normal) ->
    for_each (mkeys m) (fun i _ => bind (cleanupResource i) (fun _ => ret tt))
      {| resources := m; isCleanupScheduled := sched; effects := es |}
    = (Returned tt,
       {| resources := []; isCleanupScheduled := sched;
          effects := es ++ released m |}).
Proof.
  induction m as [|[k v] m IH]; intros sched es Hnd Hg.
  - simpl. rewrite app_nil_r. reflexivity.
  - destruct (keys_apart [] k v m Hnd) as (_ & Hm & Hnd').
    change (mkeys ((k, v) :: m)) with (k :: mkeys m).
    cbn [for_each resources mget]. rewrite String.eqb_refl.
    unfold bind at 1. unfold bind at 1. rewrite cleanupResource_eq.
    cbn [resources mget]. rewrite String.eqb_refl.
    pose proof (Hg k v (or_introl eq_refl)) as Hnormal.
    destruct (cleanup v tt) as [[|] es'] eqn:Hv; [|discriminate Hnormal].
    cbn [isCleanupScheduled effects mdelete]. rewrite String.eqb_refl.
    rewrite (mdelete_notin k m Hm). unfold ret at 1.
    rewrite (IH sched (es ++ es') Hnd' (fun k' r' Hin => Hg k' r' (or_intror Hin))).
    unfold released. cbn [flat_map snd]. rewrite Hv. cbn [snd].
    rewrite <- app_assoc. reflexivity.
Qed.

Lemma registered_normal (k : string) (r : ManagedResource) :
  registered (k, r) -> fst (cleanup r tt) = Normal.
Proof.
  intros [[stream H]|[[sc H]|[t H]]]; simpl in H; rewrite H; simpl.
  - apply guarded_closure.
  - unfold scanner_closure. destruct (has_reset sc); [apply guarded_closure | reflexivity].
  - apply guarded_closure.
Qed.

Lemma sound_guarded (s : State) : sound s -> guarded_state s.
Proof.
  intros [_ Hall] k r Hin. apply (registered_normal k).
  apply (proj1 (List.Forall_forall _ _) Hall). exact Hin.
Qed.

Lemma cleanupByType_sound (t : ResourceType) (s : State) :
  sound s ->
  cleanupByType t s
  = (Returned (List.length (of_type t (resources s))),
     {| resources := not_of_type t (resources s);
        isCleanupScheduled := isCleanupScheduled s;
        effects := effects s ++ released (of_type t (resources s)) |}).
Proof.
  intros Hs. pose proof (sound_guarded s Hs) as Hg. destruct Hs as [Hnd _].
  destruct s as [m sched es]. unfold cleanupByType. cbn [resources].
  apply (count_cleaned_spec t m [] 0%nat sched es Hnd Hg).
Qed.

Lemma cleanupAll_sound (s : State) :
  sound s ->
  cleanupAll s
  = (Returned (msize (resources s)),
     {| resources := []; isCleanupScheduled := isCleanupScheduled s;
        effects := effects s ++ released (resources s) |}).
Proof.
  intros Hs. pose proof (sound_guarded s Hs) as Hg. destruct Hs as [Hnd _].
  destruct s as [m sched es]. unfold cleanupAll. cbn [resources].
  unfold bind at 1.
  rewrite (for_each_cleanup_releases m sched es Hnd Hg). reflexivity.
Qed.

Lemma Forall_registered_mset (k : string) (r : ManagedResource) (m : Map ManagedResource) :
  registered (k, r) -> Forall registered m -> Forall registered (mset k r m).
Proof.
  intros Hr Hall. apply List.Forall_forall. intros x Hin.
  apply In_mset in Hin as [->|Hin]; [exact Hr|].
  apply (proj1 (List.Forall_forall _ _) Hall). exact Hin.
Qed.

Lemma Forall_registered_filter (f : string * ManagedResource -> bool)
      (m : Map ManagedResource) :
  Forall registered m -> Forall registered (List.filter f m).
Proof.
  intros Hall. apply List.Forall_forall. intros x Hin.
  apply List.filter_In in Hin as [Hin _].
  apply (proj1 (List.Forall_forall _ _) Hall). exact Hin.
Qed.

Lemma exec_sound (o : Op) (s : State) : sound s -> sound (exec o s).
Proof.
  intros Hs. pose proof (sound_guarded s Hs) as Hg.
  destruct o as [stream i g|sc i g|t i g|i|t|]; cbn [exec].
  - destruct Hs as [Hnd Hall]. split.
    + apply NoDup_mkeys_mset. exact Hnd.
    + apply Forall_registered_mset; [left; eexists; reflexivity | exact Hall].
  - destruct Hs as [Hnd Hall]. split.
    + apply NoDup_mkeys_mset. exact Hnd.
    + apply Forall_registered_mset; [right; left; eexists; reflexivity | exact Hall].
  - destruct Hs as [Hnd Hall]. split.
    + apply NoDup_mkeys_mset. exact Hnd.
    + apply Forall_registered_mset; [right; right; eexists; reflexivity | exact Hall].
  - rewrite (guarded_cleanupResource i s Hg). destruct Hs as [Hnd Hall]. split.
    + apply NoDup_mkeys_mdelete. exact Hnd.
    + apply List.Forall_forall. intros x Hin. cbn [snd resources] in Hin.
      apply In_mdelete in Hin. apply (proj1 (List.Forall_forall _ _) Hall). exact Hin.
  - rewrite (cleanupByType_sound t s Hs). destruct Hs as [Hnd Hall]. split.
    + apply NoDup_mkeys_filter. exact Hnd.
    + apply Forall_registered_filter. exact Hall.
  - rewrite (cleanupAll_sound s Hs). split; constructor.
Qed.

Lemma after_sound (history : list Op) : sound (after history).
Proof.
  unfold after.
  assert (forall s, sound s -> sound (fold_left (fun s o => exec o s) history s)) as H.
  { induction history as [|o history IH]; intros s Hs; simpl; [exact Hs|].
    apply IH. apply exec_sound. exact Hs. }
  apply H. split; constructor.
Qed.

Lemma count_of_type (t : ResourceType) (m : Map ManagedResource) :
  List.length (List.filter (fun resource => type_eqb (type resource) t) (map snd m))
  = List.length (of_type t m).
Proof.
  unfold of_type. induction m as [|[k v] m IH]; simpl; [reflexivity|].
  destruct (type_eqb (type v) t); simpl; rewrite IH; reflexivity.
Qed.

Lemma of_type_not_of_type (t t' : ResourceType) (m : Map ManagedResource) :
  of_type t' (not_of_type t m) = if type_eqb t' t then [] else of_type t' m.
Proof.
  unfold of_type, not_of_type. induction m as [|[k v] m IH]; cbn [List.filter snd].
  - destruct (type_eqb t' t); reflexivity.
  - destruct (type_eqb (type v) t) eqn:E1, (type_eqb (type v) t') eqn:E2,
      (type_eqb t' t) eqn:E3;
      cbn [negb List.filter snd]; rewrite ?E2, ?IH, ?E3; try reflexivity;
      rewrite ?type_eqb_eq in *; exfalso.
    + apply Bool.not_true_iff_false in E3. apply E3. apply type_eqb_eq. congruence.
    + apply Bool.not_true_iff_false in E1. apply E1. apply type_eqb_eq. congruence.
Qed.

(** X11.  After any history of operations, [cleanupByType(t)] returns
    the number of resources of type [t] that were registered, as
    [getResourceCount(t)] gives it, runs the closure of each of them
    once, in registration order, and removes them: no resource of type
    [t] is left, the resources of the other types stay as they are, and
    the total count drops by the number returned. *)
Theorem cleanupByType_releases_one_type (history : list Op) (t : ResourceType) :
  let s := after history in
  let s' := snd (cleanupByType t s) in
  fst (cleanupByType t s) = Returned (getResourceCount (Some t) s)
  /\ resources s' = not_of_type t (resources s)
  /\ effects s' = effects s ++ released (of_type t (resources s))
  /\ getResourceCount (Some t) s' = 0%nat
  /\ (forall t', t' <> t ->
                 getResourceCount (Some t') s' = getResourceCount (Some t') s)
  /\ (forall k r, mget k (resources s) = Some r ->
                  mget k (resources s')
                  = if type_eqb (type r) t then None else Some r)
  /\ getResourceCount None s'
     = (getResourceCount None s - getResourceCount (Some t) s)%nat.
Proof.
  cbn zeta. pose proof (after_sound history) as Hs.
  rewrite (cleanupByType_sound t (after history) Hs).
  unfold getResourceCount. cbn [fst snd resources effects].
  rewrite !count_of_type.
  refine (conj eq_refl (conj eq_refl (conj eq_refl (conj _ (conj _ (conj _ _)))))).
  - rewrite of_type_not_of_type.
    assert (type_eqb t t = true) as -> by (apply type_eqb_eq; reflexivity).
    reflexivity.
  - intros t' Hne. rewrite !count_of_type, of_type_not_of_type.
    destruct (type_eqb t' t) eqn:Heq; [|reflexivity].
    apply type_eqb_eq in Heq. contradiction.
  - intros k r Hget. destruct (type_eqb (type r) t) eqn:Ht.
    + apply mget_notin. intros Hin. unfold mkeys in Hin.
      apply List.in_map_iff in Hin as ([k' r'] & Hk & Hin). simpl in Hk. subst k'.
      apply List.filter_In in Hin as [Hin Hr']. simpl in Hr'.
      assert (r' = r) as ->; [|rewrite Ht in Hr'; discriminate].
      destruct Hs as [Hnd _].
      pose proof (NoDup_map_eq fst (resources (after history)) (k, r') (k, r)
                    Hnd Hin (mget_In _ _ _ Hget) eq_refl) as Heq.
      congruence.
    + apply mget_filter; [exact Hget|]. simpl. rewrite Ht. reflexivity.
  - unfold msize, of_type, not_of_type.
    induction (resources (after history)) as [|[k v] m IH]; simpl; [reflexivity|].
    destruct (type_eqb (type v) t); simpl; [exact IH|].
    rewrite IH.
    assert (List.length (List.filter (fun kv : string * ManagedResource =>
                                        type_eqb (type (snd kv)) t) m)
            <= List.length m)%nat by apply List.filter_length_le.
    lia.
Qed.

(** X12.  After any history of operations every entry of the registry is
    as a [register...] method stored it, and no two entries share an id.
    [cleanupAll] returns [getResourceCount()] and empties the registry,
    having run each closure exactly once, in registration order: the
    tracks of every stream are stopped, every scanner that has a [reset]
    is reset, every timer is cleared, and a release that throws leaves
    one line in the error log instead. *)
Theorem cleanupAll_runs_each_closure_once (history : list Op) :
  let s := after history in
  Forall registered (resources s)
  /\ List.NoDup (getActiveResources s)
  /\ cleanupAll s
     = (Returned (getResourceCount None s),
        {| resources := []; isCleanupScheduled := isCleanupScheduled s;
           effects := effects s ++ released (resources s) |})
  /\ released (resources s)
     = flat_map (fun kv =>
                   match resource (snd kv) with
                   | a_stream stream =>
                       match stop_tracks stream with
                       | Normal => [StoppedTracks (stream_id stream)]
                       | Throws => [LoggedError ("Cleanup MediaStream " ++ fst kv)]
                       end
                   | a_scanner sc =>
                       if has_reset sc
                       then match reset sc with
                            | Normal => [ResetScanner]
                            | Throws => [LoggedError ("Cleanup Scanner " ++ fst kv)]
                            end
                       else []
                   | a_timer t =>
                       match clear t with
                       | Normal => [ClearedTimeout]
                       | Throws => [LoggedError ("Cleanup Timeout " ++ fst kv)]
                       end
                   end)
                (resources s).
Proof.
  cbn zeta. destruct (after_sound history) as [Hnd Hall].
  split; [exact Hall|]. split; [exact Hnd|].
  split; [apply cleanupAll_sound; split; assumption|].
  unfold released. clear Hnd.
  induction Hall as [|[k r] m Hr Hall IH]; [reflexivity|].
  cbn [flat_map]. rewrite IH.
  f_equal. cbn [fst snd].
  destruct Hr as [[stream H]|[[sc H]|[t H]]]; cbn [fst snd] in H; rewrite H; simpl.
  - unfold stream_closure, guarded. destruct (stop_tracks stream); reflexivity.
  - unfold scanner_closure, guarded.
    destruct (has_reset sc); [destruct (reset sc)|]; reflexivity.
  - unfold timer_closure, guarded. destruct (clear t); reflexivity.
Qed.

(** The streams are released on a hidden page; the scanner and the timer
    stay. *)
Lemma cleanupByType_releases_one_type_witness :
  let s := after sample_history in
  let s' := snd (cleanupByType mediaStream s) in
  fst (cleanupByType mediaStream s) = Returned 1%nat
  /\ getResourceCount (Some scanner) s' = getResourceCount (Some scanner) s
  /\ mget "primary_camera" (resources s') = None
  /\ (exists r, mget "primary_barcode_scanner" (resources s') = Some r).
Proof.
  cbn zeta.
  destruct (cleanupByType_releases_one_type sample_history mediaStream)
    as (Hcount & _ & _ & _ & Hother & Hget & _).
  split; [exact Hcount|]. split; [apply Hother; discriminate|]. split.
  - destruct (mget "primary_camera" (resources (after sample_history)))
      as [r|] eqn:Hr; [|vm_compute in Hr; discriminate].
    rewrite (Hget _ r Hr).
    assert (type r = mediaStream) as ->; [|reflexivity].
    vm_compute in Hr. injection Hr as <-. reflexivity.
  - destruct (mget "primary_barcode_scanner" (resources (after sample_history)))
      as [r|] eqn:Hr; [|vm_compute in Hr; discriminate].
    exists r. rewrite (Hget _ r Hr).
    assert (type r = scanner) as ->; [|reflexivity].
    vm_compute in Hr. injection Hr as <-. reflexivity.
Defined.

Lemma mkeys_mset_present {V} (k : string) (v old : V) (m : Map V) :
  mget k m = Some old -> mkeys (mset k v m) = mkeys m.
Proof.
  intros Hget. rewrite mkeys_mset.
  assert (existsb (String.eqb k) (mkeys m) = true) as ->; [|reflexivity].
  apply existsb_exists. exists k. split; [|apply String.eqb_refl].
  apply mget_In in Hget. unfold mkeys. apply List.in_map_iff. exists (k, old). auto.
Qed.

Lemma length_mset_present {V} (k : string) (v old : V) (m : Map V) :
  mget k m = Some old -> List.length (mset k v m) = List.length m.
Proof.
  intros Hget.
  rewrite <- (length_map fst (mset k v m)), <- (length_map fst m).
  change (List.length (mkeys (mset k v m)) = List.length (mkeys m)).
  rewrite (mkeys_mset_present k v old m Hget). reflexivity.
Qed.

(** X13.  Registering a stream or a scanner under an id that is in use
    replaces the entry: the ids and the number of resources stay the
    same, and the closure of the resource that was there is not run,
    nothing is released or logged.  Releasing the id afterwards releases
    the new resource only; the manager has lost the old one. *)
Theorem registering_again_drops_the_old_resource
        (s : State) (stream : MediaStream) (sc : Scanner)
        (id : option string) (generated : string) (old : ManagedResource) :
  let resourceId := choose_id id generated in
  mget resourceId (resources s) = Some old ->
  (let s' := snd (registerMediaStream stream id generated s) in
   fst (registerMediaStream stream id generated s) = Returned resourceId
   /\ effects s' = effects s
   /\ getActiveResources s' = getActiveResources s
   /\ getResourceCount None s' = getResourceCount None s
   /\ mget resourceId (resources s')
      = Some (mkManaged resourceId mediaStream (a_stream stream)
                        (stream_closure stream resourceId))
   /\ effects (snd (cleanupResource resourceId s'))
      = effects s ++ snd (stream_closure stream resourceId tt)
   /\ mget resourceId (resources (snd (cleanupResource resourceId s'))) = None)
  /\ (let s' := snd (registerScanner sc id generated s) in
      fst (registerScanner sc id generated s) = Returned resourceId
      /\ effects s' = effects s
      /\ getActiveResources s' = getActiveResources s
      /\ getResourceCount None s' = getResourceCount None s
      /\ mget resourceId (resources s')
         = Some (mkManaged resourceId scanner (a_scanner sc)
                           (scanner_closure sc resourceId))
      /\ effects (snd (cleanupResource resourceId s'))
         = effects s ++ snd (scanner_closure sc resourceId tt)
      /\ mget resourceId (resources (snd (cleanupResource resourceId s'))) = None).
Proof.
  cbn zeta. intros Hget.
  unfold registerMediaStream, registerScanner, bind, set_resources,
    scheduleCleanupOnUnload, ret, getActiveResources, getResourceCount, msize.
  cbn [fst snd resources effects isCleanupScheduled].
  split.
  - rewrite (mkeys_mset_present _ _ old _ Hget).
    refine (conj eq_refl (conj eq_refl (conj eq_refl (conj _ (conj _ _))))).
    + apply (length_mset_present _ _ old). exact Hget.
    + apply mget_mset.
    + rewrite cleanupResource_eq. cbn [resources]. rewrite mget_mset.
      cbn [cleanup]. unfold stream_closure, guarded.
      destruct (stop_tracks stream); cbn [snd effects resources];
        (split; [reflexivity | apply mget_mdelete]).
  - rewrite (mkeys_mset_present _ _ old _ Hget).
    refine (conj eq_refl (conj eq_refl (conj eq_refl (conj _ (conj _ _))))).
    + apply (length_mset_present _ _ old). exact Hget.
    + apply mget_mset.
    + rewrite cleanupResource_eq. cbn [resources]. rewrite mget_mset.
      cbn [cleanup]. unfold scanner_closure, guarded.
      destruct (has_reset sc); [destruct (reset sc)|]; cbn [snd effects resources];
        (split; [reflexivity | apply mget_mdelete]).
Qed.

(** A second camera stream registered as ["primary_camera"] while the
    first one, whose tracks cannot be stopped, is still there: the first
    stream leaves the registry untouched, and the later release stops
    the second one only. *)
Lemma registering_again_drops_the_old_resource_witness :
  let s := after sample_history in
  let second := {| stream_id := "stream-2"; stop_tracks := Normal |} in
  let s' := snd (registerMediaStream second (Some "primary_camera"%string) "" s) in
  effects s' = effects s
  /\ getResourceCount None s' = 3%nat
  /\ effects (snd (cleanupResource "primary_camera" s')) = [StoppedTracks "stream-2"].
Proof.
  cbn zeta.
  destruct (mget "primary_camera" (resources (after sample_history)))
    as [old|] eqn:Hold; [|vm_compute in Hold; discriminate].
  destruct (proj1 (registering_again_drops_the_old_resource
                     (after sample_history)
                     {| stream_id := "stream-2"; stop_tracks := Normal |}
                     (mkScanner false Normal)
                     (Some "primary_camera"%string) "" old Hold))
    as (_ & Heffects & _ & Hcount & _ & Hrelease & _).
  split; [exact Heffects|]. split; [exact Hcount | exact Hrelease].
Defined.

Lemma count_cleaned_flag (t : ResourceType) (ids : list string) :
  forall n s,
    isCleanupScheduled (snd (count_cleaned ids t n s)) = isCleanupScheduled s.
Proof.
  induction ids as [|i ids IH]; intros n s; simpl; [reflexivity|].
  destruct (mget i (resources s)) as [r|] eqn:Hget; [|apply IH].
  destruct (type_eqb (type r) t); [|apply IH].
  unfold bind. rewrite cleanupResource_eq, Hget.
  destruct (cleanup r tt) as [[|] es]; rewrite IH; reflexivity.
Qed.

Lemma for_each_flag (ids : list string) :
  forall s,
    isCleanupScheduled
      (snd (for_each ids (fun i _ => bind (cleanupResource i) (fun _ => ret tt)) s))
    = isCleanupScheduled s.
Proof.
  induction ids as [|i ids IH]; intros s; simpl; [reflexivity|].
  destruct (mget i (resources s)) as [r|] eqn:Hget; [|apply IH].
  unfold bind at 1. unfold bind at 1. rewrite cleanupResource_eq, Hget.
  destruct (cleanup r tt) as [[|] es]; unfold ret at 1; rewrite IH; reflexivity.
Qed.

Lemma exec_flag (o : Op) (s : State) :
  isCleanupScheduled (exec o s) = isCleanupScheduled s || schedules o.
Proof.
  destruct o as [stream i g|sc i g|t i g|i|t|]; cbn [exec schedules];
    rewrite ?orb_true_r, ?orb_false_r; try reflexivity.
  - rewrite cleanupResource_eq.
    destruct (mget i (resources s)) as [r|]; [|reflexivity].
    destruct (cleanup r tt) as [[|] es]; reflexivity.
  - apply count_cleaned_flag.
  - unfold cleanupAll, bind.
    pose proof (for_each_flag (mkeys (resources s)) s) as H.
    destruct (for_each _ _ s) as [[[]|] s']; exact H.
Qed.

(** X14.  The handlers of the page life cycle are scheduled exactly when
    a media stream or a scanner has been registered.  Registering a
    timeout does not schedule them, and no cleanup method changes the
    flag: after a history in which only timeouts were registered the
    flag is still unset. *)
Theorem cleanup_is_scheduled_by_streams_and_scanners (history : list Op) :
  isCleanupScheduled (after history) = existsb schedules history
  /\ (forall t id generated,
        isCleanupScheduled (snd (registerTimeout t id generated (after history)))
        = isCleanupScheduled (after history))
  /\ (forall stream id generated,
        isCleanupScheduled (snd (registerMediaStream stream id generated (after history)))
        = true)
  /\ (forall sc id generated,
        isCleanupScheduled (snd (registerScanner sc id generated (after history)))
        = true).
Proof.
  split; [|repeat split; reflexivity].
  unfold after.
  assert (forall s, isCleanupScheduled (fold_left (fun s o => exec o s) history s)
                    = isCleanupScheduled s || existsb schedules history) as H.
  { induction history as [|o history IH]; intros s; simpl.
    - rewrite orb_false_r. reflexivity.
    - rewrite IH, exec_flag, orb_assoc. reflexivity. }
  apply H.
Qed.

End Registry.

(** ** Streams of the camera service *)

Section CameraStreams.
Import Js Resources Camera.

Lemma tracked_sound (w : World) : tracked w -> sound (manager w).
Proof.
  intros [_ [Hempty|(k & stream & Hres & _)]]; unfold sound, unique_ids.
  - rewrite Hempty. split; constructor.
  - rewrite Hres. split.
    + constructor; [intros [] | constructor].
    + constructor; [|constructor]. left. exists stream. reflexivity.
Qed.

Lemma held_empty (w : World) : resources (manager w) = [] -> held w = [].
Proof. unfold held. intros ->. reflexivity. Qed.

Lemma stopCamera_tracked (w : World) :
  tracked w ->
  exists w0,
    stopCamera w = Some w0
    /\ activeStreamId w0 = None
    /\ resources (manager w0) = []
    /\ effects (manager w0) = effects (manager w) ++ flat_map release_of (held w)
    /\ requested w0 = requested w.
Proof.
  intros [Hid [Hempty|(k & stream & Hres & Hk)]]; unfold stopCamera.
  - rewrite (held_empty w Hempty), app_nil_r.
    destruct (activeStreamId w) as [[|c rest]|] eqn:Hactive.
    + congruence.
    + rewrite cleanupResource_eq, Hempty. cbn [mget].
      eexists. split; [reflexivity|]. cbn [activeStreamId manager requested].
      auto.
    + exists w. auto.
  - rewrite Hk. destruct k as [|c rest]; [congruence|].
    rewrite cleanupResource_eq, Hres. cbn [mget]. rewrite String.eqb_refl.
    unfold held. rewrite Hres. cbn [cleanup flat_map snd fst resource app].
    unfold release_of. cbn [fst snd].
    destruct (stream_closure stream (String c rest) tt) as [completion es] eqn:Hclosure.
    assert (completion = Normal) as ->.
    { pose proof (guarded_closure (stop_tracks stream)
                    (StoppedTracks (stream_id stream))
                    ("Cleanup MediaStream " ++ String c rest)) as Hn.
      pose proof Hclosure as Hguarded. unfold stream_closure in Hguarded.
      rewrite Hguarded in Hn. exact Hn. }
    eexists. split; [reflexivity|]. cbn [activeStreamId manager resources effects requested mdelete].
    rewrite String.eqb_refl. cbn [snd]. rewrite ?app_nil_r. auto.
Qed.

Lemma register_active_tracked (stream : MediaStream) (i : string) (w : World) :
  i <> EmptyString ->
  resources (manager w) = [] ->
  exists w',
    register_active stream i w = Some w'
    /\ activeStreamId w' = Some i
    /\ resources (manager w')
       = [(i, mkManaged i mediaStream (a_stream stream) (stream_closure stream i))]
    /\ effects (manager w') = effects (manager w)
    /\ requested w' = requested w.
Proof.
  intros Hi Hempty. unfold register_active, registerMediaStream, bind,
    set_resources, scheduleCleanupOnUnload, ret, choose_id.
  destruct i as [|c rest]; [congruence|]. cbn [fst snd resources effects].
  rewrite Hempty. eexists. split; [reflexivity|]. simpl. auto.
Qed.

Lemma act_tracked (a : Action) (w : World) :
  tracked w ->
  tracked (act a w)
  /\ effects (manager (act a w)) ++ flat_map release_of (held (act a w))
     = (effects (manager w) ++ flat_map release_of (held w))
         ++ flat_map release_of (match a with Start gum => acquired gum | _ => [] end).
Proof.
  intros Ht. pose proof (tracked_sound w Ht) as Hs.
  destruct a as [gum| | |]; cbn [act].
  - unfold startCamera, startCamera_resume, startCamera_optimal, startCamera_minimal,
      acquired.
    destruct (stopCamera_tracked w Ht) as (w0 & -> & Hactive0 & Hres0 & Heff0 & _).
    destruct (gum Optimal) as [stream|e1].
    + destruct (register_active_tracked stream primary_camera (request Optimal w0)
                  ltac:(discriminate) Hres0)
        as (w' & -> & Hactive & Hres & Heff & _).
      cbn [snd]. split.
      * split; [rewrite Hactive; discriminate | right; eauto].
      * unfold held. rewrite Hres, Heff. cbn [manager request effects]. rewrite Heff0.
        reflexivity.
    + destruct (gum Minimal) as [stream|e2].
      * destruct (register_active_tracked stream fallback_camera
                    (request Minimal (request Optimal w0))
                    ltac:(discriminate) Hres0)
          as (w' & -> & Hactive & Hres & Heff & _).
        cbn [snd]. split.
        -- split; [rewrite Hactive; discriminate | right; eauto].
        -- unfold held. rewrite Hres, Heff. cbn [manager request effects]. rewrite Heff0.
           reflexivity.
      * cbn [snd]. split.
        -- split; [cbn [activeStreamId request]; rewrite Hactive0; discriminate
                  | left; exact Hres0].
        -- unfold held at 1. cbn [manager request]. rewrite Hres0. cbn [flat_map].
           rewrite Heff0, !app_nil_r. reflexivity.
  - destruct (stopCamera_tracked w Ht) as (w0 & -> & Hactive0 & Hres0 & Heff0 & _).
    split; [split; [rewrite Hactive0; discriminate | left; exact Hres0]|].
    rewrite (held_empty _ Hres0), Heff0. cbn [flat_map]. rewrite !app_nil_r. reflexivity.
  - rewrite (cleanupByType_sound mediaStream (manager w) Hs). cbn [snd].
    destruct Ht as [Hid [Hempty|(k & stream & Hres & Hk)]].
    + split; [split; [exact Hid | left; cbn [with_manager manager resources];
                                   rewrite Hempty; reflexivity]|].
      unfold held. cbn [with_manager manager resources effects].
      rewrite Hempty. cbn [flat_map]. rewrite !app_nil_r. reflexivity.
    + split; [split; [exact Hid | left; cbn [with_manager manager resources];
                                   rewrite Hres; reflexivity]|].
      unfold held. cbn [with_manager manager resources effects].
      rewrite Hres. unfold released, release_of. simpl. rewrite !app_nil_r. reflexivity.
  - rewrite (cleanupAll_sound (manager w) Hs). cbn [snd].
    destruct Ht as [Hid [Hempty|(k & stream & Hres & Hk)]].
    + split; [split; [exact Hid | left; reflexivity]|].
      unfold held. cbn [with_manager manager resources effects].
      rewrite Hempty. cbn [flat_map]. rewrite !app_nil_r. reflexivity.
    + split; [split; [exact Hid | left; reflexivity]|].
      unfold held. cbn [with_manager manager resources effects].
      rewrite Hres. unfold released, release_of. simpl. rewrite !app_nil_r. reflexivity.
Qed.

Lemma world_after_tracked (actions : list Action) :
  tracked (world_after actions)
  /\ effects (manager (world_after actions))
       ++ flat_map release_of (held (world_after actions))
     = flat_map release_of (acquisitions actions).
Proof.
  unfold world_after, acquisitions.
  assert (forall w,
             tracked w ->
             tracked (fold_left (fun w a => act a w) actions w)
             /\ effects (manager (fold_left (fun w a => act a w) actions w))
                  ++ flat_map release_of (held (fold_left (fun w a => act a w) actions w))
                = (effects (manager w) ++ flat_map release_of (held w))
                    ++ flat_map release_of
                         (flat_map (fun a => match a with
                                             | Start gum => acquired gum
                                             | _ => []
                                             end) actions)) as H.
  { induction actions as [|a actions IH]; intros w Hw; cbn [fold_left flat_map].
    - rewrite app_nil_r. auto.
    - destruct (act_tracked a w Hw) as [Hw' Heq].
      destruct (IH (act a w) Hw') as [Hfinal Hall].
      split; [exact Hfinal|]. rewrite Hall, Heq, flat_map_app, app_assoc. reflexivity. }
  destruct (H fresh) as [Ht Heq].
  - split; [discriminate | left; reflexivity].
  - split; [exact Ht | exact Heq].
Qed.









End CameraStreams.

(** ** The camera service on the shared registry *)

Section SharedRegistry.
Import Js Resources Camera.

(** *** The registry shared with the barcode hook *)
































End SharedRegistry.

Section CameraServiceClaim.
Import Js Resources Camera.




(** Scenario D: the permission is denied. *)
Example permission_denied :
  fst (startCamera denies fresh)
  = Throw (Classified
             {| name := "NotAllowedError";
                message := "Camera permission denied. Please enable camera access in your browser settings.";
                fallbackAvailable := true;
                userAction := Some "Enable camera permission and refresh the page"%string |})
  /\ requested (snd (startCamera denies fresh)) = [Optimal; Minimal].
Proof. split; reflexivity. Qed.

End CameraServiceClaim.

Section CameraStreamsClaim.
Import Js Resources Camera.



End CameraStreamsClaim.

(** ** The capture hook beyond auto-detection *)

Section CaptureControls.
Import Js Resources Camera Capture.

(** X16.  When [startCamera] of the service fails, after any history,
    the exception is the [CameraError] built from the rejection of the
    fallback request.  The handler that [useCapture] gives to
    [useCamera] then marks the capture inactive, stores the message and
    reports it, and shows the mode selection unless the error is
    [NotReadableError] (the camera is used by another application): for
    that error alone no manual fallback is offered.  The lookup result
    and the auto-detection timers are left alone. *)
Theorem camera_failure_and_mode_selection (actions : list Action) (gum : Tier -> Gum)
        (e : Exception) (h : Hook) :
  fst (startCamera gum (world_after actions)) = Throw e ->
  exists error_name,
    gum Minimal = Refused error_name
    /\ e = Classified (createCameraError error_name)
    /\ let h' := camera_onError (createCameraError error_name) h in
       isActive (state h') = false
       /\ error (state h') = Some (message (createCameraError error_name))
       /\ errors h' = errors h ++ [message (createCameraError error_name)]
       /\ showModeSelection (state h')
          = negb (String.eqb error_name "NotReadableError")
       /\ lookupResult (state h') = lookupResult (state h)
       /\ timers h' = timers h
       /\ autoDetectionTimeoutRef h' = autoDetectionTimeoutRef h.
Proof.
  destruct (world_after_one_stream actions) as [Hg Hone].
  destruct (startCamera_one_stream gum (world_after actions) Hg Hone)
    as (_ & _ & Hcases).
  intros Hthrow.
  destruct (gum Optimal) as [stream|e1].
  { destruct Hcases as (Hresult & _). rewrite Hresult in Hthrow. discriminate. }
  destruct Hcases as (_ & Hcases).
  destruct (gum Minimal) as [stream|error_name].
  { destruct Hcases as (Hresult & _). rewrite Hresult in Hthrow. discriminate. }
  destruct Hcases as (Hresult & _). rewrite Hresult in Hthrow. injection Hthrow as <-.
  exists error_name. split; [reflexivity|]. split; [reflexivity|].
  cbn zeta. unfold camera_onError, report_error.
  cbn [state errors timers autoDetectionTimeoutRef updateState
    isActive error showModeSelection lookupResult].
  refine (conj eq_refl (conj eq_refl (conj eq_refl (conj _
            (conj eq_refl (conj eq_refl eq_refl)))))).
  unfold createCameraError.
  destruct (String.eqb error_name "NotAllowedError") eqn:E1.
  { apply String.eqb_eq in E1. subst. reflexivity. }
  destruct (String.eqb error_name "NotFoundError") eqn:E2.
  { apply String.eqb_eq in E2. subst. reflexivity. }
  destruct (String.eqb error_name "NotReadableError") eqn:E3; [reflexivity|].
  destruct (String.eqb error_name "OverconstrainedError");
    [reflexivity|destruct (String.eqb error_name "AbortError"); reflexivity].
Qed.

(** A camera that another application holds, and a denied permission. *)
Lemma camera_failure_and_mode_selection_witness :
  let busy : Tier -> Gum := fun _ => Refused "NotReadableError" in
  showModeSelection
    (state (camera_onError (createCameraError "NotReadableError") mounted)) = false
  /\ fst (startCamera busy fresh)
     = Throw (Classified (createCameraError "NotReadableError"))
  /\ showModeSelection
       (state (camera_onError (createCameraError "NotAllowedError") mounted)) = true.
Proof.
  cbn zeta.
  destruct (camera_failure_and_mode_selection
              [] (fun _ => Refused "NotReadableError")
              (Classified (createCameraError "NotReadableError")) mounted eq_refl)
    as (n & Hn & _ & _ & _ & _ & Hshow & _).
  injection Hn as <-.
  split; [exact Hshow|]. split; reflexivity.
Defined.

(** X17.  [stopCapture] stops the camera, stops the scan and clears the
    activity flags, keeping the last lookup result.  Of the
    auto-detection timers it cancels the one set last, whose handle the
    ref holds: if that one elapses afterwards nothing changes.  A timer
    set by an earlier [startAutoDetection] is still pending, since
    [startAutoDetection] does not clear the timer it replaces; when it
    fires after the stop, and its closure saw neither a completed
    detection nor a result, the mode selection is shown on the stopped
    capture.  A lookup that is pending is not cancelled either: when it
    returns, its result is stored and a success is reported to
    [onBarcodeDetected] although the capture is inactive. *)
Theorem stopCapture_cancels_the_last_timer (h : Hook) (result : Lookup.LookupResult) :
  let stopped := fst (stopCapture h) in
  let resumed := handleBarcodeDetected_resume result stopped in
  snd (stopCapture h) = [CameraStopped]
  /\ autoDetectionTimeoutRef stopped = None
  /\ (forall t, autoDetectionTimeoutRef h = Some t ->
                pending t stopped = None /\ timeout_fires t stopped = stopped)
  /\ (forall t seen,
        pending t h = Some seen ->
        autoDetectionTimeoutRef h <> Some t ->
        pending t stopped = Some seen
        /\ (autoDetectionComplete seen = false ->
            lookupResult seen = None ->
            let late := timeout_fires t stopped in
            isActive (state late) = false
            /\ showModeSelection (state late) = true
            /\ autoDetectionComplete (state late) = true))
  /\ scanning stopped = false
  /\ isActive (state stopped) = false
  /\ isProcessing (state stopped) = false
  /\ showModeSelection (state stopped) = false
  /\ lookupResult (state stopped) = lookupResult (state h)
  /\ isActive (state resumed) = false
  /\ lookupResult (state resumed) = Some result
  /\ showModeSelection (state resumed) = negb (Lookup.success result)
  /\ reported resumed = reported h ++ (if Lookup.success result then [result] else []).
Proof.
  cbn zeta.
  assert (forall t, pending t (fst (stopCapture h))
                    = match autoDetectionTimeoutRef h with
                      | Some t' => pending t (clearTimeout t' h)
                      | None => pending t h
                      end) as Hpending.
  { intros t. unfold stopCapture. destruct (autoDetectionTimeoutRef h); reflexivity. }
  split; [reflexivity|]. split.
  { unfold stopCapture. destruct (autoDetectionTimeoutRef h) eqn:Href;
      [reflexivity | exact Href]. }
  split.
  { intros t Ht.
    assert (pending t (fst (stopCapture h)) = None) as Hgone.
    { rewrite Hpending, Ht. apply pending_clearTimeout. }
    split; [exact Hgone|]. unfold timeout_fires. rewrite Hgone. reflexivity. }
  split.
  { intros t seen Hseen Hother.
    assert (pending t (fst (stopCapture h)) = Some seen) as Hstill.
    { rewrite Hpending. destruct (autoDetectionTimeoutRef h) as [t'|]; [|exact Hseen].
      rewrite pending_clearTimeout_other; [exact Hseen | congruence]. }
    split; [exact Hstill|]. intros Hcomplete Hresult. cbn zeta.
    unfold timeout_fires. rewrite Hstill, Hcomplete, Hresult. cbn [negb andb].
    unfold stopCapture. destruct (autoDetectionTimeoutRef h); repeat split; reflexivity. }
  unfold stopCapture, handleBarcodeDetected_resume.
  destruct (autoDetectionTimeoutRef h), (Lookup.success result); cbn;
    rewrite ?app_nil_r; repeat split; reflexivity.
Qed.

(** The user asks for a retry while the first auto-detection is running,
    then stops the capture: the timer of the first auto-detection is
    still pending, and when it fires the mode selection appears on the
    stopped capture. *)
Lemma stopCapture_cancels_the_last_timer_witness :
  let retried := fst (retryCapture true true capturing (autoDetection capturing [])) in
  let stopped := fst (stopCapture retried) in
  map fst (timers retried) = [1%positive; 2%positive]
  /\ autoDetectionTimeoutRef retried = Some 2%positive
  /\ map fst (timers stopped) = [1%positive]
  /\ timeout_fires 2 stopped = stopped
  /\ isActive (state (timeout_fires 1 stopped)) = false
  /\ showModeSelection (state (timeout_fires 1 stopped)) = true.
Proof.
  cbn zeta.
  destruct (stopCapture_cancels_the_last_timer
              (fst (retryCapture true true capturing (autoDetection capturing [])))
              Lookup.not_found)
    as (_ & _ & Hlast & Hearlier & _).
  split; [reflexivity|]. split; [reflexivity|]. split; [reflexivity|].
  split; [apply (Hlast 2%positive); reflexivity|].
  destruct (Hearlier 1%positive capturing eq_refl ltac:(discriminate))
    as [_ Hfires].
  destruct (Hfires eq_refl eq_refl) as (Hactive & Hshow & _).
  split; [exact Hactive | exact Hshow].
Defined.

(** X18.  [switchMode] leaves the auto-detection timers pending.  When
    the mode is switched while the timer of an auto-detection that had
    seen no result is pending, the new mode is set and reported, and for
    the barcode mode the scan is started again; but the timer then still
    fires, stops the scan and shows the mode selection, in the barcode
    mode as in any other. *)
Theorem switchMode_leaves_the_timer (newMode : CaptureMode) (video : bool)
        (t : positive) (seen : CaptureState) (h : Hook) :
  pending t h = Some seen ->
  autoDetectionComplete seen = false ->
  lookupResult seen = None ->
  let switched := fst (switchMode newMode video h) in
  let late := timeout_fires t switched in
  snd (switchMode newMode video h) = [ModeChange newMode]
  /\ mode (state switched) = newMode
  /\ autoDetectionComplete (state switched) = true
  /\ timers switched = timers h
  /\ autoDetectionTimeoutRef switched = autoDetectionTimeoutRef h
  /\ pending t switched = Some seen
  /\ (newMode = barcode_mode -> video = true ->
      scanning switched = true /\ showModeSelection (state switched) = false)
  /\ (newMode <> barcode_mode ->
      scanning switched = false /\ showModeSelection (state switched) = true)
  /\ mode (state late) = newMode
  /\ scanning late = false
  /\ showModeSelection (state late) = true
  /\ pending t late = None.
Proof.
  intros Htimer Hcomplete Hresult. cbn zeta.
  assert (pending t (fst (switchMode newMode video h)) = Some seen) as Hstill.
  { unfold switchMode. destruct newMode, video; exact Htimer. }
  assert (pending t (timeout_fires t (fst (switchMode newMode video h))) = None) as Hgone.
  { apply (timeout_tests_the_captured_state t seen _ Hstill). }
  refine (conj eq_refl (conj _ (conj _ (conj _ (conj _ (conj Hstill (conj _ (conj _
            (conj _ (conj _ (conj _ Hgone))))))))))).
  1-4: unfold switchMode; destruct newMode, video; reflexivity.
  - intros -> ->. split; reflexivity.
  - intros Hmode. unfold switchMode. destruct newMode, video; try congruence;
      split; reflexivity.
  - unfold timeout_fires. rewrite Hstill, Hcomplete, Hresult.
    unfold switchMode. destruct newMode, video; reflexivity.
  - unfold timeout_fires. rewrite Hstill, Hcomplete, Hresult. reflexivity.
  - unfold timeout_fires. rewrite Hstill, Hcomplete, Hresult. reflexivity.
Qed.

(** Auto-detection has started; the user picks the barcode mode before
    the timeout elapses. *)
Lemma switchMode_leaves_the_timer_witness :
  let h := autoDetection capturing [] in
  let switched := fst (switchMode barcode_mode true h) in
  (scanning switched = true /\ showModeSelection (state switched) = false)
  /\ scanning (timeout_fires 1 switched) = false
  /\ showModeSelection (state (timeout_fires 1 switched)) = true.
Proof.
  cbn zeta.
  destruct (switchMode_leaves_the_timer barcode_mode true 1%positive capturing
              (autoDetection capturing []) eq_refl eq_refl eq_refl)
    as (_ & _ & _ & _ & _ & _ & Hbarcode & _ & _ & Hscan & Hshow & _).
  split; [apply Hbarcode; reflexivity|]. split; [exact Hscan | exact Hshow].
Defined.

End CaptureControls.

(** ** A scanning session that finds a barcode *)

Section ScanningSession.
Import Js Scan.

Lemma continuousScan_no_result (maxScanAttempts seen interval now : Z) (d : Decode)
      (h : Hook) :
  continuousScanRef h = true ->
  (0 <? maxScanAttempts) && (maxScanAttempts <=? seen) = false ->
  is_decoded d = false ->
  let h' := continuousScan maxScanAttempts seen interval now d h in
  decodes h' = S (decodes h)
  /\ continuousScanRef h' = true
  /\ scheduled h' = Some interval
  /\ detected h' = detected h
  /\ result (state h') = result (state h)
  /\ scanCount (state h') = scanCount (state h).
Proof.
  intros Href Hcheck Hd. cbn zeta. unfold continuousScan.
  rewrite Href, Hcheck. destruct d as [text format| |message]; [discriminate| |];
    simpl; rewrite Href; simpl; auto 10.
Qed.

Lemma continuousScan_decoded (maxScanAttempts seen interval now : Z)
      (text : jsstring) (format : string) (h : Hook) :
  continuousScanRef h = true ->
  (0 <? maxScanAttempts) && (maxScanAttempts <=? seen) = false ->
  let h' := continuousScan maxScanAttempts seen interval now (Decoded text format) h in
  decodes h' = S (decodes h)
  /\ continuousScanRef h' = false
  /\ scheduled h' = None
  /\ detected h' = detected h ++ [mkBarcodeResult text format now 95]
  /\ result (state h') = Some (mkBarcodeResult text format now 95)
  /\ scanCount (state h') = seen + 1
  /\ isScanning (state h') = false.
Proof.
  intros Href Hcheck. cbn zeta. unfold continuousScan.
  rewrite Href, Hcheck. simpl. auto 10.
Qed.

Lemma timer_fires_running (maxScanAttempts seen interval now : Z)
      (video : nat -> Decode) (h : Hook) (i : Z) :
  scheduled h = Some i ->
  timer_fires maxScanAttempts seen interval now video h
  = continuousScan maxScanAttempts seen interval now (video (decodes h))
      {| state := state h; continuousScanRef := continuousScanRef h;
         scheduled := None; decodes := decodes h;
         signalled := signalled h; detected := detected h |}.
Proof. intros Hs. unfold timer_fires. rewrite Hs. reflexivity. Qed.

Lemma session_before (maxScanAttempts seen interval now : Z) (video : nat -> Decode)
      (k : nat) :
  (0 <? maxScanAttempts) && (maxScanAttempts <=? seen) = false ->
  (forall j, (j < k)%nat -> is_decoded (video j) = false) ->
  forall n, (n < k)%nat ->
    let h := session maxScanAttempts seen interval now video n mounted in
    decodes h = S n
    /\ continuousScanRef h = true
    /\ scheduled h = Some interval
    /\ detected h = [].
Proof.
  intros Hcheck Hnone. induction n as [|n IH]; intros Hn; cbn zeta.
  - cbn [session]. unfold startContinuousScanning. cbn [negb].
    destruct (continuousScan_no_result maxScanAttempts seen interval now (video 0%nat)
                {| state := state mounted; continuousScanRef := true;
                   scheduled := scheduled mounted; decodes := decodes mounted;
                   signalled := signalled mounted; detected := detected mounted |}
                eq_refl Hcheck (Hnone 0%nat Hn))
      as (Hd & Hr & Hs & Hdet & _).
    cbn [decodes mounted] in *. auto.
  - cbn [session].
    destruct (IH ltac:(lia)) as (Hd & Hr & Hs & Hdet).
    rewrite (timer_fires_running _ _ _ _ _ _ interval Hs).
    destruct (continuousScan_no_result maxScanAttempts seen interval now
                (video (decodes (session maxScanAttempts seen interval now video n mounted)))
                {| state := state (session maxScanAttempts seen interval now video n mounted);
                   continuousScanRef :=
                     continuousScanRef (session maxScanAttempts seen interval now video n mounted);
                   scheduled := None;
                   decodes := decodes (session maxScanAttempts seen interval now video n mounted);
                   signalled := signalled (session maxScanAttempts seen interval now video n mounted);
                   detected := detected (session maxScanAttempts seen interval now video n mounted) |}
                Hr Hcheck ltac:(rewrite Hd; apply Hnone; exact Hn))
      as (Hd' & Hr' & Hs' & Hdet' & _).
    cbn [decodes detected] in Hd', Hdet'.
    split; [rewrite Hd', Hd; reflexivity|]. split; [exact Hr'|].
    split; [exact Hs' | rewrite Hdet'; exact Hdet].
Qed.

Lemma session_at (maxScanAttempts seen interval now : Z) (video : nat -> Decode)
      (k : nat) (text : jsstring) (format : string) :
  (0 <? maxScanAttempts) && (maxScanAttempts <=? seen) = false ->
  (forall j, (j < k)%nat -> is_decoded (video j) = false) ->
  video k = Decoded text format ->
  let h := session maxScanAttempts seen interval now video k mounted in
  decodes h = S k
  /\ continuousScanRef h = false
  /\ scheduled h = None
  /\ detected h = [mkBarcodeResult text format now 95]
  /\ result (state h) = Some (mkBarcodeResult text format now 95)
  /\ scanCount (state h) = seen + 1
  /\ isScanning (state h) = false.
Proof.
  intros Hcheck Hnone Hk. cbn zeta. destruct k as [|k].
  - cbn [session]. unfold startContinuousScanning. cbn [negb decodes mounted].
    rewrite Hk.
    apply (continuousScan_decoded maxScanAttempts seen interval now text format
             {| state := state mounted; continuousScanRef := true;
                scheduled := scheduled mounted; decodes := 0;
                signalled := signalled mounted; detected := detected mounted |}
             eq_refl Hcheck).
  - cbn [session].
    destruct (session_before maxScanAttempts seen interval now video (S k) Hcheck Hnone
                k ltac:(lia)) as (Hd & Hr & Hs & Hdet).
    rewrite (timer_fires_running _ _ _ _ _ _ interval Hs).
    assert (video (decodes (session maxScanAttempts seen interval now video k mounted))
            = Decoded text format) as -> by (rewrite Hd; exact Hk).
    destruct (continuousScan_decoded maxScanAttempts seen interval now text format
                {| state := state (session maxScanAttempts seen interval now video k mounted);
                   continuousScanRef :=
                     continuousScanRef (session maxScanAttempts seen interval now video k mounted);
                   scheduled := None;
                   decodes := decodes (session maxScanAttempts seen interval now video k mounted);
                   signalled := signalled (session maxScanAttempts seen interval now video k mounted);
                   detected := detected (session maxScanAttempts seen interval now video k mounted) |}
                Hr Hcheck)
      as (Hd' & Hr' & Hs' & Hdet' & Hres' & Hcount' & Hscan').
    cbn [decodes detected] in Hd', Hdet'.
    split; [rewrite Hd', Hd; reflexivity|]. split; [exact Hr'|]. split; [exact Hs'|].
    split; [rewrite Hdet', Hdet; reflexivity | auto].
Qed.

(** X19.  A scanning session whose ceiling is not reached at the start
    ends at the first barcode.  If decode [k] is the first that succeeds,
    then until then the session keeps running, one decode per timer
    event, and has reported nothing; from then on it has made exactly
    [k + 1] decodes, holds no timer, has reported that one barcode to
    [onDetected], stores it as the result and counts one scan more than
    the render in which it was started. *)
Theorem session_ends_at_the_first_barcode
        (maxScanAttempts seen interval now : Z) (video : nat -> Decode)
        (k : nat) (text : jsstring) (format : string) :
  (0 <? maxScanAttempts) && (maxScanAttempts <=? seen) = false ->
  (forall j, (j < k)%nat -> is_decoded (video j) = false) ->
  video k = Decoded text format ->
  (forall n, (n < k)%nat ->
     let h := session maxScanAttempts seen interval now video n mounted in
     decodes h = S n /\ continuousScanRef h = true
     /\ scheduled h = Some interval /\ detected h = [])
  /\ (forall n, (k <= n)%nat ->
        let h := session maxScanAttempts seen interval now video n mounted in
        decodes h = S k
        /\ continuousScanRef h = false
        /\ scheduled h = None
        /\ detected h = [mkBarcodeResult text format now 95]
        /\ result (state h) = Some (mkBarcodeResult text format now 95)
        /\ scanCount (state h) = seen + 1
        /\ isScanning (state h) = false).
Proof.
  intros Hcheck Hnone Hk. split.
  - apply session_before; assumption.
  - intros n Hn. cbn zeta.
    assert (session maxScanAttempts seen interval now video n mounted
            = session maxScanAttempts seen interval now video k mounted) as ->.
    { induction n as [|n IH]; [replace k with 0%nat by lia; reflexivity|].
      destruct (Nat.eq_dec (S n) k) as [<-|Hne]; [reflexivity|].
      cbn [session]. rewrite IH by lia.
      destruct (session_at maxScanAttempts seen interval now video k text format
                  Hcheck Hnone Hk) as (_ & _ & Hs & _).
      unfold timer_fires. rewrite Hs. reflexivity. }
    apply session_at; assumption.
Qed.

(** The barcode of the spread comes into view at the third decode. *)
Lemma session_ends_at_the_first_barcode_witness :
  let video : nat -> Decode :=
    fun n => match n with
             | 0%nat => NotFoundException
             | 1%nat => OtherError "Video not ready"
             | _ => Decoded (lit "3017620425035") "EAN_13"
             end in
  let h := session 10 0 600 1736928000000 video 7 mounted in
  decodes h = 3%nat
  /\ scheduled h = None
  /\ detected h = [mkBarcodeResult (lit "3017620425035") "EAN_13" 1736928000000 95]
  /\ scanCount (state h) = 1.
Proof.
  cbn zeta.
  destruct (proj2 (session_ends_at_the_first_barcode
                     10 0 600 1736928000000
                     (fun n => match n with
                               | 0%nat => NotFoundException
                               | 1%nat => OtherError "Video not ready"
                               | _ => Decoded (lit "3017620425035") "EAN_13"
                               end)
                     2 (lit "3017620425035") "EAN_13" eq_refl
                     ltac:(intros [|[|j]] Hj; [reflexivity | reflexivity | lia])
                     eq_refl) 7%nat ltac:(lia))
    as (Hd & _ & Hs & Hdet & _ & Hcount & _).
  auto.
Defined.

End ScanningSession.

(** ** The diary of meals *)

Section MealDiary.
Import Js FoodDb Meals.

Lemma getOrCreateMeal_today (mealType : MealType) (env : Env) (st : Storage) :
  date (getOrCreateMeal mealType env st) = today env
  /\ meal_type (getOrCreateMeal mealType env st) = mealType.
Proof.
  unfold getOrCreateMeal.
  destruct (List.find _ (getAllMeals st)) as [meal|] eqn:Hfind; [|split; reflexivity].
  apply List.find_some in Hfind as [_ Hp].
  apply andb_prop in Hp as [Ht Hd].
  apply String.eqb_eq in Hd.
  destruct (meal_type meal), mealType; try discriminate; auto.
Qed.

Lemma In_put_meal (meal : Meal) (meals : list Meal) : In meal (put_meal meal meals).
Proof.
  induction meals as [|m meals IH]; simpl; [auto|].
  destruct (String.eqb (meal_id m) (meal_id meal)); simpl; auto.
Qed.

Lemma find_put_meal_other (mealId : string) (meal : Meal) (meals : list Meal) :
  mealId <> meal_id meal ->
  find_meal mealId (put_meal meal meals) = find_meal mealId meals.
Proof.
  intros Hne. unfold find_meal. induction meals as [|m meals IH]; simpl.
  - destruct (String.eqb_spec (meal_id meal) mealId); [congruence | reflexivity].
  - destruct (String.eqb_spec (meal_id m) (meal_id meal)) as [Heq|Hdiff]; simpl.
    + destruct (String.eqb_spec (meal_id meal) mealId); [congruence|].
      destruct (String.eqb_spec (meal_id m) mealId); [congruence | reflexivity].
    + destruct (String.eqb (meal_id m) mealId); [reflexivity | exact IH].
Qed.

Lemma put_meal_fresh (meal : Meal) (meals : list Meal) :
  find_meal (meal_id meal) meals = None -> put_meal meal meals = meals ++ [meal].
Proof.
  unfold find_meal. induction meals as [|m meals IH]; simpl; [reflexivity|].
  destruct (String.eqb (meal_id m) (meal_id meal)); [discriminate|].
  intros H. f_equal. apply IH. exact H.
Qed.

Lemma length_put_meal (meal : Meal) (meals : list Meal) :
  List.length (put_meal meal meals)
  = match find_meal (meal_id meal) meals with
    | Some _ => List.length meals
    | None => S (List.length meals)
    end.
Proof.
  unfold find_meal. induction meals as [|m meals IH]; simpl; [reflexivity|].
  destruct (String.eqb (meal_id m) (meal_id meal)); simpl; [reflexivity|].
  rewrite IH. destruct (List.find _ meals); reflexivity.
Qed.

(** X20.  When the write succeeds, the food added by [addFoodToMeal] is
    in today's meals: the meal returned is among [getTodaysMeals], has
    the requested type and today's date, and its entries are those of
    the meal found or created followed by the new entry, built from the
    product.  Every meal of [getTodaysMeals] is dated today.  Meals with
    another id are unchanged, and the storage grows by one meal exactly
    when no stored meal has the id. *)
Theorem added_food_is_in_todays_meals
        (product : ProductData) (mealType : MealType) (servings : Q)
        (totalNutrition : Nutrition) (env : Env) (st : Storage) :
  writable st = true ->
  let target := getOrCreateMeal mealType env st in
  let st' := snd (addFoodToMeal product mealType servings totalNutrition env st) in
  exists meal,
    add_meal (fst (addFoodToMeal product mealType servings totalNutrition env st))
    = Some meal
    /\ In meal (getTodaysMeals env st')
    /\ meal_id meal = meal_id target
    /\ meal_type meal = mealType
    /\ date meal = today env
    /\ entries meal
       = entries target
           ++ [{| entry_id := new_entry_id env; foodName := name product;
                  entry_brand := brand product;
                  entry_barcode := Some (barcode product);
                  Meals.servings := servings; entry_nutrition := totalNutrition;
                  addedAt := now env; entry_source := source product |}]
    /\ Forall (fun m => date m = today env) (getTodaysMeals env st')
    /\ (forall mealId, mealId <> meal_id target ->
                       find_meal mealId (getAllMeals st')
                       = find_meal mealId (getAllMeals st))
    /\ List.length (getAllMeals st')
       = match find_meal (meal_id target) (getAllMeals st) with
         | Some _ => List.length (getAllMeals st)
         | None => S (List.length (getAllMeals st))
         end.
Proof.
  intros Hw. cbn zeta.
  destruct (getOrCreateMeal_today mealType env st) as [Hdate Htype].
  unfold addFoodToMeal, saveMeals. rewrite Hw. cbn [fst snd add_meal].
  eexists. split; [reflexivity|].
  unfold getTodaysMeals, getAllMeals at 1 2 3 4. cbn [stored].
  split.
  { apply List.filter_In. split; [apply In_put_meal|].
    cbn [date]. rewrite Hdate. apply String.eqb_refl. }
  split; [reflexivity|]. split; [exact Htype|]. split; [exact Hdate|].
  split; [reflexivity|]. split.
  { apply List.Forall_forall. intros m Hm. apply List.filter_In in Hm as [_ Hm].
    apply String.eqb_eq. exact Hm. }
  split.
  { intros mealId Hne. apply find_put_meal_other. exact Hne. }
  apply (length_put_meal
           {| meal_id := meal_id (getOrCreateMeal mealType env st);
              meal_type := meal_type (getOrCreateMeal mealType env st);
              date := date (getOrCreateMeal mealType env st);
              entries := _; totalNutrition := _ |}).
Qed.

(** The porridge at breakfast, on an empty storage. *)
Lemma added_food_is_in_todays_meals_witness :
  let st' := snd (addFoodToMeal porridge breakfast (5 # 2) two_and_a_half_servings
                                morning empty_storage) in
  exists meal,
    In meal (getTodaysMeals morning st')
    /\ meal_type meal = breakfast
    /\ List.length (entries meal) = 1%nat
    /\ List.length (getAllMeals st') = 1%nat.
Proof.
  cbn zeta.
  destruct (added_food_is_in_todays_meals porridge breakfast (5 # 2)
              two_and_a_half_servings morning empty_storage eq_refl)
    as (meal & _ & Hin & _ & Htype & _ & Hentries & _ & _ & Hlen).
  exists meal. split; [exact Hin|]. split; [exact Htype|].
  split; [rewrite Hentries; reflexivity | exact Hlen].
Defined.

Lemma remove_entry_put_meal (mealId : string) (meal : Meal) (entryId : string)
      (meals : list Meal) :
  meal_id meal = mealId ->
  remove_entry mealId entryId (put_meal meal meals)
  = Some (put_meal
            {| meal_id := meal_id meal; meal_type := meal_type meal; date := date meal;
               entries := List.filter (fun e => negb (String.eqb (entry_id e) entryId))
                                      (entries meal);
               totalNutrition :=
                 calculateMealNutrition
                   (List.filter (fun e => negb (String.eqb (entry_id e) entryId))
                                (entries meal)) |}
            meals).
Proof.
  intros <-. induction meals as [|m meals IH]; simpl.
  - rewrite String.eqb_refl. reflexivity.
  - destruct (String.eqb (meal_id m) (meal_id meal)) eqn:Hm; simpl.
    + rewrite String.eqb_refl. reflexivity.
    + rewrite Hm, IH. reflexivity.
Qed.

Lemma filter_fresh_entry (entryId : string) (entries : list MealEntry) (entry : MealEntry) :
  entry_id entry = entryId ->
  Forall (fun e => entry_id e <> entryId) entries ->
  List.filter (fun e => negb (String.eqb (entry_id e) entryId)) (entries ++ [entry])
  = entries.
Proof.
  intros Hid Hfresh. rewrite List.filter_app. simpl.
  rewrite Hid, String.eqb_refl. simpl. rewrite app_nil_r.
  induction Hfresh as [|e l He Hl IH]; simpl; [reflexivity|].
  destruct (String.eqb_spec (entry_id e) entryId); [contradiction|].
  simpl. f_equal. exact IH.
Qed.

Lemma getAllMeals_stored (meals : list Meal) (w : bool) :
  getAllMeals {| stored := Some meals; writable := w |} = meals.
Proof. reflexivity. Qed.

Lemma put_meal_same (meal : Meal) (meals : list Meal) :
  find_meal (meal_id meal) meals = Some meal -> put_meal meal meals = meals.
Proof.
  unfold find_meal. induction meals as [|m meals IH]; simpl; [discriminate|].
  destruct (String.eqb (meal_id m) (meal_id meal)).
  - intros H. injection H as ->. reflexivity.
  - intros H. f_equal. apply IH. exact H.
Qed.

(** X21.  Adding a food and removing it again, with an entry id that the
    meal did not use before, answers [true] and leaves the meal with the
    entries it had and the totals recomputed from them; no other meal is
    touched.  If the meal was stored before with exactly those totals,
    the stored meals are what they were; a meal created by the addition
    stays, empty. *)
Theorem add_then_remove
        (product : ProductData) (mealType : MealType) (servings : Q)
        (totalNutrition : Nutrition) (env : Env) (st : Storage) :
  writable st = true ->
  let target := getOrCreateMeal mealType env st in
  Forall (fun e => entry_id e <> new_entry_id env) (entries target) ->
  let st1 := snd (addFoodToMeal product mealType servings totalNutrition env st) in
  let removed := removeFoodFromMeal (meal_id target) (new_entry_id env) st1 in
  let restored :=
    {| meal_id := meal_id target; meal_type := meal_type target; date := date target;
       entries := entries target;
       Meals.totalNutrition := calculateMealNutrition (entries target) |} in
  fst removed = true
  /\ getAllMeals (snd removed) = put_meal restored (getAllMeals st)
  /\ find_meal (meal_id target) (getAllMeals (snd removed)) = Some restored
  /\ (forall mealId, mealId <> meal_id target ->
                     find_meal mealId (getAllMeals (snd removed))
                     = find_meal mealId (getAllMeals st))
  /\ (find_meal (meal_id target) (getAllMeals st) = Some target ->
      Meals.totalNutrition target = calculateMealNutrition (entries target) ->
      getAllMeals (snd removed) = getAllMeals st).
Proof.
  intros Hw target Hfresh. cbn zeta.
  assert (removeFoodFromMeal (meal_id target) (new_entry_id env)
            (snd (addFoodToMeal product mealType servings totalNutrition env st))
          = (true,
             {| stored :=
                  Some (put_meal
                          {| meal_id := meal_id target; meal_type := meal_type target;
                             date := date target; entries := entries target;
                             Meals.totalNutrition :=
                               calculateMealNutrition (entries target) |}
                          (getAllMeals st));
                writable := true |})) as ->.
  { unfold addFoodToMeal, saveMeals. rewrite Hw. cbn [snd].
    unfold removeFoodFromMeal. unfold getAllMeals at 1. cbn [stored].
    fold target.
    match goal with
    | |- context [put_meal ?added (getAllMeals st)] =>
        rewrite (remove_entry_put_meal (meal_id target) added (new_entry_id env)
                                       (getAllMeals st) eq_refl)
    end.
    cbn [meal_id meal_type date entries].
    rewrite (filter_fresh_entry
               (new_entry_id env) (entries target)
               {| entry_id := new_entry_id env; foodName := name product;
                  entry_brand := brand product;
                  entry_barcode := Some (barcode product);
                  Meals.servings := servings; entry_nutrition := totalNutrition;
                  addedAt := now env; entry_source := source product |}
               eq_refl Hfresh).
    reflexivity. }
  cbn [fst snd]. rewrite !getAllMeals_stored.
  refine (conj eq_refl (conj eq_refl (conj _ (conj _ _)))).
  - apply (find_put_meal
             {| meal_id := meal_id target; meal_type := meal_type target;
                date := date target; entries := entries target;
                Meals.totalNutrition := calculateMealNutrition (entries target) |}).
  - intros mealId Hne. apply find_put_meal_other. exact Hne.
  - intros Hfound Htotals. rewrite <- Htotals.
    assert ({| meal_id := meal_id target; meal_type := meal_type target;
               date := date target; entries := entries target;
               Meals.totalNutrition := Meals.totalNutrition target |} = target) as ->
        by (destruct target; reflexivity).
    apply put_meal_same. exact Hfound.
Qed.

(** The porridge is added to an empty storage and removed again: an empty
    breakfast is left.  A second helping added to that breakfast and
    removed again leaves the storage as it was. *)
Lemma add_then_remove_witness :
  let st1 := snd (addFoodToMeal porridge breakfast (5 # 2) two_and_a_half_servings
                                morning empty_storage) in
  let removed := removeFoodFromMeal (new_meal_id morning) (new_entry_id morning) st1 in
  let later := {| today := "2025-01-15"; now := 1736928060000;
                  new_meal_id := "breakfast_2025-01-15_1736928060000";
                  new_entry_id := "entry_1736928060000_p0o9i8u7y" |} in
  let st2 := snd (addFoodToMeal porridge breakfast 1 (mkNutrition 100 20 5 8 3)
                                later st1) in
  (fst removed = true
   /\ getAllMeals (snd removed)
      = [{| meal_id := new_meal_id morning; meal_type := breakfast;
            date := today morning; entries := [];
            Meals.totalNutrition := zero |}])
  /\ getAllMeals (snd (removeFoodFromMeal (new_meal_id morning) (new_entry_id later) st2))
     = getAllMeals st1.
Proof.
  cbn zeta. split.
  - destruct (add_then_remove porridge breakfast (5 # 2) two_and_a_half_servings
                morning empty_storage eq_refl ltac:(constructor))
      as (Hok & Hmeals & _).
    split; [exact Hok | exact Hmeals].
  - apply (add_then_remove
             porridge breakfast 1 (mkNutrition 100 20 5 8 3)
             {| today := "2025-01-15"; now := 1736928060000;
                new_meal_id := "breakfast_2025-01-15_1736928060000";
                new_entry_id := "entry_1736928060000_p0o9i8u7y" |}
             (snd (addFoodToMeal porridge breakfast (5 # 2) two_and_a_half_servings
                                 morning empty_storage))
             eq_refl).
    + repeat constructor. discriminate.
    + reflexivity.
    + reflexivity.
Defined.

(** X22.  When the write to the storage fails, [addFoodToMeal] still
    reports success, with the meal and no error, and [removeFoodFromMeal]
    still answers [true] for a known meal; the storage, and today's
    meals and totals read from it, are unchanged. *)
Theorem a_failed_write_is_not_reported
        (product : ProductData) (mealType : MealType) (servings : Q)
        (totalNutrition : Nutrition) (env : Env) (mealId entryId : string)
        (st : Storage) :
  writable st = false ->
  (let added := addFoodToMeal product mealType servings totalNutrition env st in
   add_success (fst added) = true
   /\ add_error (fst added) = None
   /\ (exists meal, add_meal (fst added) = Some meal
                    /\ In totalNutrition (map entry_nutrition (entries meal)))
   /\ snd added = st
   /\ getTodaysMeals env (snd added) = getTodaysMeals env st
   /\ getTodaysTotalNutrition env (snd added) = getTodaysTotalNutrition env st)
  /\ (let removed := removeFoodFromMeal mealId entryId st in
      snd removed = st
      /\ (fst removed = true <-> exists meal, find_meal mealId (getAllMeals st) = Some meal)).
Proof.
  intros Hw. cbn zeta. split.
  - unfold addFoodToMeal, saveMeals. rewrite Hw. cbn [fst snd add_success add_error add_meal].
    refine (conj eq_refl (conj eq_refl (conj _ (conj eq_refl (conj eq_refl eq_refl))))).
    eexists. split; [reflexivity|]. cbn [entries]. rewrite map_app.
    apply in_or_app. right. left. reflexivity.
  - unfold removeFoodFromMeal.
    pose proof (remove_entry_spec mealId entryId (getAllMeals st)) as Hspec.
    destruct (remove_entry mealId entryId (getAllMeals st)) as [meals'|]; cbn [fst snd].
    + unfold saveMeals. rewrite Hw. split; [reflexivity|].
      destruct Hspec as (before & _ & Hbefore & _). split; eauto.
    + split; [reflexivity|]. rewrite Hspec. split; [discriminate|].
      intros [meal H]. discriminate H.
Qed.

(** A storage that is full: the porridge is reported as added; nothing
    is stored. *)
Lemma a_failed_write_is_not_reported_witness :
  let full := {| stored := None; writable := false |} in
  let added := addFoodToMeal porridge breakfast (5 # 2) two_and_a_half_servings
                             morning full in
  add_success (fst added) = true
  /\ snd added = full
  /\ getTodaysMeals morning (snd added) = [].
Proof.
  cbn zeta.
  destruct (proj1 (a_failed_write_is_not_reported
                     porridge breakfast (5 # 2) two_and_a_half_servings morning
                     "" "" {| stored := None; writable := false |} eq_refl))
    as (Hok & _ & _ & Hsame & Htoday & _).
  split; [exact Hok|]. split; [exact Hsame | exact Htoday].
Defined.

(** X23.  [removeFoodFromMeal] answers [false] exactly when no stored
    meal has the given id, and then changes nothing.  For a known meal it
    answers [true] even when no entry has the given id, and the entries
    of the meal are then what they were.  Meals with another id are never
    touched. *)
Theorem removeFoodFromMeal_answers (mealId entryId : string) (st : Storage) :
  (fst (removeFoodFromMeal mealId entryId st) = false
   <-> find_meal mealId (getAllMeals st) = None)
  /\ (fst (removeFoodFromMeal mealId entryId st) = false ->
      snd (removeFoodFromMeal mealId entryId st) = st)
  /\ (forall meal,
        find_meal mealId (getAllMeals st) = Some meal ->
        Forall (fun e => entry_id e <> entryId) (entries meal) ->
        writable st = true ->
        fst (removeFoodFromMeal mealId entryId st) = true
        /\ exists after,
             find_meal mealId (getAllMeals (snd (removeFoodFromMeal mealId entryId st)))
             = Some after
             /\ entries after = entries meal)
  /\ (forall otherId,
        otherId <> mealId ->
        find_meal otherId (getAllMeals (snd (removeFoodFromMeal mealId entryId st)))
        = find_meal otherId (getAllMeals st)).
Proof.
  unfold removeFoodFromMeal.
  pose proof (remove_entry_spec mealId entryId (getAllMeals st)) as Hspec.
  destruct (remove_entry mealId entryId (getAllMeals st)) as [meals'|] eqn:Hrem;
    cbn [fst snd].
  - destruct Hspec as (before & after & Hbefore & Hafter & Hentries & _).
    split; [split; [discriminate | congruence]|].
    split; [discriminate|]. split.
    + intros meal Hmeal Hfresh Hw. split; [reflexivity|].
      unfold saveMeals. rewrite Hw. rewrite getAllMeals_stored.
      exists after. split; [exact Hafter|]. rewrite Hentries.
      assert (before = meal) as -> by congruence.
      clear -Hfresh. induction Hfresh as [|e l He Hl IH]; simpl; [reflexivity|].
      destruct (String.eqb_spec (entry_id e) entryId); [contradiction|].
      simpl. f_equal. exact IH.
    + intros otherId Hne. unfold saveMeals.
      destruct (writable st); [|reflexivity]. rewrite getAllMeals_stored.
      clear Hbefore Hafter Hentries. revert meals' Hrem. unfold find_meal.
      induction (getAllMeals st) as [|m meals IH]; simpl; intros meals' Hrem;
        [discriminate|].
      destruct (String.eqb_spec (meal_id m) mealId) as [Heq|Hdiff].
      * injection Hrem as <-. simpl.
        destruct (String.eqb_spec (meal_id m) otherId); [congruence | reflexivity].
      * destruct (remove_entry mealId entryId meals) as [rest|]; [|discriminate].
        injection Hrem as <-. simpl.
        destruct (String.eqb (meal_id m) otherId); [reflexivity|].
        apply IH. reflexivity.
  - split; [split; [intros _; exact Hspec | reflexivity]|].
    split; [reflexivity|]. split; [|reflexivity].
    intros meal Hmeal. congruence.
Qed.

(** An unknown meal, and an unknown entry of the breakfast. *)
Lemma removeFoodFromMeal_answers_witness :
  let st1 := snd (addFoodToMeal porridge breakfast (5 # 2) two_and_a_half_servings
                                morning empty_storage) in
  (fst (removeFoodFromMeal "lunch_2025-01-15_0" (new_entry_id morning) st1) = false
   /\ snd (removeFoodFromMeal "lunch_2025-01-15_0" (new_entry_id morning) st1) = st1)
  /\ fst (removeFoodFromMeal (new_meal_id morning) "no_such_entry" st1) = true.
Proof.
  cbn zeta. split.
  - destruct (removeFoodFromMeal_answers
                "lunch_2025-01-15_0" (new_entry_id morning)
                (snd (addFoodToMeal porridge breakfast (5 # 2) two_and_a_half_servings
                                    morning empty_storage)))
      as (Hfalse & Hsame & _).
    assert (fst (removeFoodFromMeal "lunch_2025-01-15_0" (new_entry_id morning)
                   (snd (addFoodToMeal porridge breakfast (5 # 2)
                                       two_and_a_half_servings morning empty_storage)))
            = false) as H by (apply Hfalse; reflexivity).
    split; [exact H | exact (Hsame H)].
  - destruct (addFoodToMeal porridge breakfast (5 # 2) two_and_a_half_servings
                            morning empty_storage) as [res st1] eqn:Hadd.
    pose proof (f_equal snd Hadd) as Hst. cbn [snd] in Hst.
    destruct (find_meal (new_meal_id morning) (getAllMeals st1)) as [meal|] eqn:Hmeal;
      [|rewrite <- Hst in Hmeal; vm_compute in Hmeal; discriminate].
    apply (proj1 (proj2 (proj2 (removeFoodFromMeal_answers
                                  (new_meal_id morning) "no_such_entry" st1)))
                 meal Hmeal).
    + rewrite <- Hst in Hmeal. vm_compute in Hmeal. injection Hmeal as <-.
      repeat constructor. discriminate.
    + rewrite <- Hst. reflexivity.
Defined.

Lemma fold_add_meal_totals_app (a b : list Meal) (total : Nutrition) :
  fold_left add_meal_totals (a ++ b) total
  = fold_left add_meal_totals b (fold_left add_meal_totals a total).
Proof. apply fold_left_app. Qed.

(** X24.  The first food of a meal type today (no meal of that type is
    stored for today and the new meal id is not in use) creates a meal
    that is appended to the stored meals and to today's meals.  The
    totals of the meal are [0 + v] for each value [v] of the food, and
    each of today's totals becomes the former total plus that. *)
Theorem first_food_of_a_meal
        (product : ProductData) (mealType : MealType) (servings : Q)
        (totalNutrition : Nutrition) (env : Env) (st : Storage) :
  writable st = true ->
  List.find (fun m => mealType_eqb (meal_type m) mealType
                      && String.eqb (date m) (today env)) (getAllMeals st) = None ->
  find_meal (new_meal_id env) (getAllMeals st) = None ->
  let st' := snd (addFoodToMeal product mealType servings totalNutrition env st) in
  let before := getTodaysTotalNutrition env st in
  exists meal,
    getAllMeals st' = getAllMeals st ++ [meal]
    /\ getTodaysMeals env st' = getTodaysMeals env st ++ [meal]
    /\ meal_id meal = new_meal_id env
    /\ Meals.totalNutrition meal
       = {| calories := 0 + calories totalNutrition;
            carbs := 0 + carbs totalNutrition;
            fat := 0 + fat totalNutrition;
            protein := 0 + protein totalNutrition;
            fiber := 0 + fiber totalNutrition |}%Q
    /\ getTodaysTotalNutrition env st'
       = {| calories := calories before + (0 + calories totalNutrition);
            carbs := carbs before + (0 + carbs totalNutrition);
            fat := fat before + (0 + fat totalNutrition);
            protein := protein before + (0 + protein totalNutrition);
            fiber := fiber before + (0 + fiber totalNutrition) |}%Q.
Proof.
  intros Hw Hnone Hfresh. cbn zeta.
  unfold addFoodToMeal, saveMeals, getOrCreateMeal. rewrite Hw, Hnone.
  cbn [snd meal_id meal_type date entries app].
  rewrite getAllMeals_stored.
  match goal with
  | |- context [put_meal ?added (getAllMeals st)] =>
      rewrite (put_meal_fresh added (getAllMeals st) Hfresh)
  end.
  eexists. split; [reflexivity|].
  unfold getTodaysTotalNutrition, getTodaysMeals. rewrite !getAllMeals_stored.
  rewrite List.filter_app. cbn [List.filter date]. rewrite String.eqb_refl.
  split; [reflexivity|]. split; [reflexivity|]. split; [reflexivity|].
  rewrite fold_add_meal_totals_app. reflexivity.
Qed.

(** The first food of the day. *)
Lemma first_food_of_a_meal_witness :
  let st' := snd (addFoodToMeal porridge breakfast (5 # 2) two_and_a_half_servings
                                morning empty_storage) in
  getTodaysTotalNutrition morning st'
  = {| calories := 0 + (0 + 250); carbs := 0 + (0 + 50); fat := 0 + (0 + (25 # 2));
       protein := 0 + (0 + 20); fiber := 0 + (0 + (15 # 2)) |}%Q.
Proof.
  cbn zeta.
  destruct (first_food_of_a_meal porridge breakfast (5 # 2) two_and_a_half_servings
              morning empty_storage eq_refl eq_refl eq_refl)
    as (meal & _ & _ & _ & _ & Htotal).
  exact Htotal.
Defined.

End MealDiary.

(** ** The serving control of the meal selection dialog *)

Section Servings.
Import Js MealSelection.

Lemma Math_max_spec (a b : Q) :
  (a <= Math_max a b)%Q /\ (b <= Math_max a b)%Q
  /\ (Math_max a b = a \/ Math_max a b = b).
Proof.
  unfold Math_max. destruct (Qle_bool a b) eqn:Hle.
  - apply Qle_bool_iff in Hle. split; [exact Hle|]. split; [apply Qle_refl | auto].
  - split; [apply Qle_refl|]. split; [|auto].
    destruct (Qlt_le_dec b a) as [Hlt|Hge]; [apply Qlt_le_weak; exact Hlt|].
    apply Qle_bool_iff in Hge. congruence.
Qed.

Lemma Math_round_integer (n : Z) (x : Q) :
  (x == inject_Z n)%Q -> Math_round x = n.
Proof.
  intros Hx. unfold Math_round.
  assert (x + (1 # 2) == inject_Z n + (1 # 2))%Q as -> by (rewrite Hx; reflexivity).
  unfold Qfloor, Qplus, inject_Z. simpl.
  symmetry. apply Z.div_unique with (r := 1); lia.
Qed.

Lemma inject_Z_le (a b : Z) : a <= b <-> (inject_Z a <= inject_Z b)%Q.
Proof. rewrite <- Zle_Qle. reflexivity. Qed.

(** X25.  Whatever the state and the step, [adjustServings] sets the
    servings to [k / 2] for an integer [k >= 1]: never less than a half.
    On such a value, a step of +0.5 adds a half, a step of -0.5 takes a
    half away except at 0.5, where the value stays; a step down after a
    step up gives the value back. *)
Theorem servings_move_in_half_steps (delta servings : Q) :
  half_steps (adjustServings delta servings)
  /\ ((1 # 2) <= adjustServings delta servings)%Q
  /\ (half_steps servings ->
      (adjustServings (1 # 2) servings == servings + (1 # 2))%Q
      /\ (adjustServings (- (1 # 2)) servings
          == if Qle_bool servings (1 # 2) then 1 # 2 else servings - (1 # 2))%Q
      /\ (adjustServings (- (1 # 2)) (adjustServings (1 # 2) servings) == servings)%Q).
Proof.
  assert (forall d s, 1 <= Math_round (Math_max (1 # 2) (s + d) * 2)) as Hone.
  { intros d s. unfold Math_round.
    destruct (Math_max_spec (1 # 2) (s + d)) as (Hlow & _).
    apply (Z.le_trans _ (Qfloor 1)); [reflexivity|].
    apply Qfloor_resp_le. lra. }
  assert (forall k : Z, 1 <= k ->
            forall s, (s == inject_Z k * (1 # 2))%Q ->
                      (adjustServings (1 # 2) s == inject_Z (k + 1) * (1 # 2))%Q) as Hup.
  { intros k Hk s Hs. unfold adjustServings. cbn zeta.
    rewrite (Math_round_integer (k + 1)); [reflexivity|].
    pose proof (proj1 (inject_Z_le 1 k) Hk) as Hq.
    change (inject_Z 1) with 1%Q in Hq.
    rewrite inject_Z_plus. change (inject_Z 1) with 1%Q.
    destruct (Math_max_spec (1 # 2) (s + (1 # 2))) as (_ & Hb & [Hm|Hm]);
      rewrite Hm in *; lra. }
  assert (forall k : Z, 1 <= k ->
            forall s, (s == inject_Z k * (1 # 2))%Q ->
                      (adjustServings (- (1 # 2)) s
                       == inject_Z (Z.max 1 (k - 1)) * (1 # 2))%Q) as Hdown.
  { intros k Hk s Hs. unfold adjustServings. cbn zeta.
    rewrite (Math_round_integer (Z.max 1 (k - 1))); [reflexivity|].
    destruct (Z.eq_dec k 1) as [->|Hne].
    - change (Z.max 1 (1 - 1)) with 1. change (inject_Z 1) with 1%Q in *.
      destruct (Math_max_spec (1 # 2) (s + - (1 # 2))) as (Ha & Hb & [Hm|Hm]);
        rewrite Hm in *; lra.
    - assert (Z.max 1 (k - 1) = k + -1) as -> by lia.
      pose proof (proj1 (inject_Z_le 2 k) ltac:(lia)) as Hq.
      change (inject_Z 2) with 2%Q in Hq.
      rewrite inject_Z_plus. change (inject_Z (-1)) with (-1)%Q.
      destruct (Math_max_spec (1 # 2) (s + - (1 # 2))) as (Ha & Hb & [Hm|Hm]);
        rewrite Hm in *; lra. }
  split; [|split].
  - exists (Math_round (Math_max (1 # 2) (servings + delta) * 2)).
    split; [apply Hone | reflexivity].
  - unfold adjustServings. cbn zeta.
    specialize (Hone delta servings).
    apply inject_Z_le in Hone. change (inject_Z 1) with 1%Q in Hone.
    unfold Qdiv. change (/ 2)%Q with (1 # 2)%Q. lra.
  - intros (k & Hk & Hs). unfold Qdiv in Hs. change (/ 2)%Q with (1 # 2)%Q in Hs.
    split; [|split].
    + rewrite (Hup k Hk servings Hs), Hs, inject_Z_plus.
      change (inject_Z 1) with 1%Q. lra.
    + rewrite (Hdown k Hk servings Hs).
      destruct (Qle_bool servings (1 # 2)) eqn:Hle.
      * apply Qle_bool_iff in Hle.
        assert (inject_Z k <= inject_Z 1)%Q as Hk1
            by (change (inject_Z 1) with 1%Q; lra).
        apply inject_Z_le in Hk1.
        assert (k = 1) as -> by lia. reflexivity.
      * assert (~ (servings <= 1 # 2)%Q) as Hgt
            by (intros H; apply Qle_bool_iff in H; congruence).
        assert (~ (inject_Z k <= 1)%Q) as Hk1 by (intros H; apply Hgt; lra).
        assert (~ k <= 1) as Hk2.
        { intros H. apply Hk1. apply inject_Z_le in H.
          change (inject_Z 1) with 1%Q in H. exact H. }
        assert (Z.max 1 (k - 1) = k + -1) as -> by lia.
        rewrite inject_Z_plus. change (inject_Z (-1)) with (-1)%Q. lra.
    + rewrite (Hdown (k + 1) ltac:(lia) _ (Hup k Hk servings Hs)).
      assert (Z.max 1 (k + 1 - 1) = k) as -> by lia.
      rewrite Hs. reflexivity.
Qed.

(** One serving, the initial value of the dialog. *)
Lemma servings_move_in_half_steps_witness :
  (adjustServings (1 # 2) 1 == 3 # 2)%Q
  /\ (adjustServings (- (1 # 2)) 1 == 1 # 2)%Q
  /\ (adjustServings (- (1 # 2)) (1 # 2) == 1 # 2)%Q.
Proof.
  assert (half_steps 1) as H1 by (exists 2; split; [lia | reflexivity]).
  assert (half_steps (1 # 2)) as H2 by (exists 1; split; [lia | reflexivity]).
  destruct (proj2 (proj2 (servings_move_in_half_steps 0 1)) H1) as (Hup & Hdown & _).
  destruct (proj2 (proj2 (servings_move_in_half_steps 0 (1 # 2))) H2) as (_ & Hmin & _).
  split; [rewrite Hup; reflexivity|]. split; [rewrite Hdown | rewrite Hmin]; reflexivity.
Defined.

End Servings.

(** ** Requests that fail *)

Section FailedRequests.
Import Js FoodDb Lookup.

(** X26.  [lookupBarcode] answers [null] exactly when the request fails
    (the transport throws, the HTTP status is not ok, the body is not
    JSON), when the database does not know the barcode (status other
    than 1), or when no nutrition can be extracted.  [performLookup]
    takes each of these answers, if it comes before the timeout, as "not
    found": the run ends after this single invocation with the
    not-found result, without back-off and without retry, whatever
    [maxRetries] is.  A failed request is thus never retried; only a
    timeout is. *)
Theorem failed_requests_are_not_retried
        (b : jsstring) (network : nat -> Network) (maxRetries : nat) (timeoutMs : Z)
        (requireHighQuality : bool) (after : Z) (r : FetchOutcome) :
  network 0%nat = Answers after r ->
  after < timeoutMs ->
  (lookupBarcode b r = None
   <-> r = FetchThrows \/ r = HttpNotOk \/ r = JsonThrows
       \/ exists status product,
            r = Json status product /\ (status <> 1 \/ extracted product = None))
  /\ (lookupBarcode b r = None ->
      performLookup maxRetries timeoutMs requireHighQuality
                    (through_lookupBarcode b network)
      = (not_found, [Attempt 0 after]))
  /\ (forall p,
        lookupBarcode b r = Some p ->
        invocations (snd (performLookup maxRetries timeoutMs requireHighQuality
                                        (through_lookupBarcode b network))) = 1%nat
        /\ backoffs (snd (performLookup maxRetries timeoutMs requireHighQuality
                                        (through_lookupBarcode b network))) = []).
Proof.
  intros Hnet Hfast.
  assert (race timeoutMs (through_lookupBarcode b network 0%nat)
          = (Resolved (lookupBarcode b r), after)) as Hrace.
  { unfold through_lookupBarcode. rewrite Hnet. simpl.
    apply Z.ltb_lt in Hfast. rewrite Hfast. reflexivity. }
  split; [|split].
  - unfold lookupBarcode. destruct r as [| | |status product].
    + split; auto.
    + split; auto.
    + split; auto.
    + destruct (Z.eqb_spec status 1) as [->|Hne]; simpl.
      * destruct (extracted product) as [n|] eqn:Hn.
        -- split; [discriminate|].
           intros [H|[H|[H|(status' & product' & H & [Hs|He])]]];
             try discriminate H; injection H as <- <-; congruence.
        -- split; [|reflexivity]. intros _. right. right. right.
           exists 1, product. auto.
      * split; [|reflexivity]. intros _. right. right. right.
        exists status, product. auto.
  - intros Hnone. unfold performLookup. cbn [attempts].
    rewrite Hrace, Hnone. reflexivity.
  - intros p Hp. unfold performLookup. cbn [attempts].
    rewrite Hrace, Hp.
    destruct (requireHighQuality && _); split; reflexivity.
Qed.

(** The device is offline: the default lookup asks once and reports that
    the product was not found. *)
Lemma failed_requests_are_not_retried_witness :
  performLookup 2 5000 false
                (through_lookupBarcode (lit "3017620425035")
                                       (fun _ => Answers 12 FetchThrows))
  = (not_found, [Attempt 0 12]).
Proof.
  apply (proj1 (proj2 (failed_requests_are_not_retried
                         (lit "3017620425035") (fun _ => Answers 12 FetchThrows)
                         2 5000 false 12 FetchThrows eq_refl eq_refl))).
  reflexivity.
Defined.

End FailedRequests.
